(** * fraud_dashboard: the normalisation and aggregation layer

    A shallow embedding of the data pipeline of [fraud_dashboard.py]
    (helpers, preprocessing, KPIs, daily series, segment tables, period
    comparison and the predictor ranking), followed by the properties that
    the specification states about it.

    Conventions.
    - Text is ASCII: a [string] is the sequence of characters of a Python
      [str] whose code points are all below 128.
    - A float is a rational when finite ([Q], exact arithmetic); rounding
      to binary64 is modelled where the code can observe it, in [float()]
      (underflow to zero and overflow to infinity).  NaN and the infinities
      are separate constructors.
    - A pandas column is a list of cells, [None] standing for NaN / NaT. *)

From Stdlib Require Import String Ascii ZArith QArith Qabs Qround Bool Lia Lqa.
From Stdlib Require Import DecimalString DecimalPos.
From Stdlib Require Import List Permutation Sorted.
Import ListNotations.

Local Open Scope Z_scope.

(** ** Python values and outcomes *)

(** A call either returns or raises; [except:] clauses match on [Raises]. *)
Inductive outcome (A : Type) : Type :=
| Returns (a : A)
| Raises.
Arguments Returns {A} a.
Arguments Raises {A}.

Definition bind {A B : Type} (m : outcome A) (k : A -> outcome B) : outcome B :=
  match m with
  | Returns a => k a
  | Raises => Raises
  end.

Notation "x <- m ;; k" := (bind m (fun x => k))
  (at level 61, m at next level, right associativity).

(** Python floats. *)
Inductive pyfloat : Type :=
| Fin (q : Q)
| Inf (negative : bool)
| NaN.

(** ** Text helpers: [str.strip], [str.lower], [float(str)] *)

Module Text.

Definition chars (s : string) : list ascii := list_ascii_of_string s.
Definition text (l : list ascii) : string := string_of_list_ascii l.

(** The ASCII characters for which [str.isspace] holds:
    TAB, LF, VT, FF, CR, FS, GS, RS, US and the space. *)
Definition is_space (c : ascii) : bool :=
  let n := nat_of_ascii c in
  ((9 <=? n) && (n <=? 13) || (28 <=? n) && (n <=? 32))%nat.

Fixpoint lstrip (l : list ascii) : list ascii :=
  match l with
  | c :: l' => if is_space c then lstrip l' else l
  | [] => []
  end.

Definition rstrip (l : list ascii) : list ascii := rev (lstrip (rev l)).

Definition strip (s : string) : string := text (rstrip (lstrip (chars s))).

Definition lower_char (c : ascii) : ascii :=
  let n := nat_of_ascii c in
  if ((65 <=? n) && (n <=? 90))%nat then ascii_of_nat (n + 32) else c.

Definition lower (s : string) : string := text (map lower_char (chars s)).

Definition is_digit (c : ascii) : bool :=
  let n := nat_of_ascii c in ((48 <=? n) && (n <=? 57))%nat.

Definition digit (c : ascii) : Z := Z.of_nat (nat_of_ascii c) - 48.

(** [digit (["_"] digit)*], entered after its first digit has been read:
    the digits read and the unread rest. *)
Fixpoint digits_tl (l : list ascii) : list Z * list ascii :=
  match l with
  | c :: l' =>
      if is_digit c then
        let (ds, r) := digits_tl l' in (digit c :: ds, r)
      else if Ascii.eqb c "_" then
        match l' with
        | d :: l'' =>
            if is_digit d then
              let (ds, r) := digits_tl l'' in (digit d :: ds, r)
            else ([], l)
        | [] => ([], l)
        end
      else ([], l)
  | [] => ([], [])
  end.

(** [digitpart ::= digit (["_"] digit)*] *)
Definition digitpart (l : list ascii) : option (list Z * list ascii) :=
  match l with
  | c :: l' =>
      if is_digit c then
        let (ds, r) := digits_tl l' in Some (digit c :: ds, r)
      else None
  | [] => None
  end.

Definition sign (l : list ascii) : bool * list ascii :=
  match l with
  | c :: l' =>
      if Ascii.eqb c "-" then (true, l')
      else if Ascii.eqb c "+" then (false, l')
      else (false, l)
  | [] => (false, [])
  end.

Definition decimal (ds : list Z) : Z := fold_left (fun n d => 10 * n + d) ds 0.

(** [number ::= [digitpart] "." digitpart | digitpart ["."]]:
    the digits of the mantissa, the count of digits behind the point and
    the rest. *)
Definition number (l : list ascii) : option (list Z * nat * list ascii) :=
  match digitpart l with
  | Some (ip, r) =>
      match r with
      | c :: r' =>
          if Ascii.eqb c "." then
            match digitpart r' with
            | Some (fp, r'') => Some (ip ++ fp, length fp, r'')
            | None => Some (ip, O, r')
            end
          else Some (ip, O, r)
      | [] => Some (ip, O, [])
      end
  | None =>
      match l with
      | c :: r' =>
          if Ascii.eqb c "." then
            match digitpart r' with
            | Some (fp, r'') => Some (fp, length fp, r'')
            | None => None
            end
          else None
      | [] => None
      end
  end.

(** [exponent ::= "e" [sign] digitpart], optional; [None] when an exponent
    is started and not finished. *)
Definition exponent (l : list ascii) : option (Z * list ascii) :=
  match l with
  | c :: l' =>
      if Ascii.eqb c "e" then
        let (neg, l'') := sign l' in
        match digitpart l'' with
        | Some (ds, r) => Some (if neg then - decimal ds else decimal ds, r)
        | None => None
        end
      else Some (0, l)
  | [] => Some (0, [])
  end.

Definition pow10 (e : Z) : Q :=
  if e <? 0 then 1 # Pos.pow 10 (Z.to_pos (- e))
  else inject_Z (10 ^ e).

Definition pow2 (e : Z) : Q :=
  if e <? 0 then 1 # Pos.pow 2 (Z.to_pos (- e))
  else inject_Z (2 ^ e).

(** Rounding of a real to binary64, as far as the code can tell: halfway to
    the smallest subnormal and below is zero, halfway past the largest
    finite double and above is infinite. *)
Definition round_double (q : Q) : pyfloat :=
  if Qle_bool (Qabs q) (pow2 (-1075)) then Fin 0
  else if Qle_bool (pow2 1024 - pow2 970) (Qabs q) then Inf (negb (Qle_bool 0 q))
  else Fin q.

Definition list_eqb (a b : list ascii) : bool := String.eqb (text a) (text b).

(** [floatvalue ::= [sign] (floatnumber | "inf" | "infinity" | "nan")] on a
    stripped, lower-case text. *)
Definition floatvalue (l : list ascii) : option pyfloat :=
  let (neg, r) := sign l in
  if list_eqb r (chars "inf") || list_eqb r (chars "infinity") then Some (Inf neg)
  else if list_eqb r (chars "nan") then Some NaN
  else
    match number r with
    | Some (ds, frac, r') =>
        match exponent r' with
        | Some (e, []) =>
            let m := inject_Z (if neg then - decimal ds else decimal ds) in
            Some (round_double (m * pow10 (e - Z.of_nat frac)))
        | _ => None
        end
    | None => None
    end.

(** [float(s)] for a text [s]; [None] is [ValueError]. *)
Definition float (s : string) : option pyfloat :=
  floatvalue (chars (lower (strip s))).

End Text.

(** [x != 0] on floats: NaN and the infinities differ from zero. *)
Definition float_ne0 (f : pyfloat) : bool :=
  match f with
  | Fin q => negb (Qeq_bool q 0)
  | Inf _ => true
  | NaN => true
  end.

(** ** Helpers: [to_bool_int] *)

(** A cell handed to [_map]: missing ([pd.isna]), or present with the text
    that [str(x)] gives for it (a text cell is its own text). *)
Inductive value : Type :=
| Absent
| Present (str : string).

Definition truthy : list string := ["1"; "true"; "t"; "yes"; "y"]%string.
Definition falsey : list string := ["0"; "false"; "f"; "no"; "n"]%string.

Definition mem (s : string) (l : list string) : bool := existsb (String.eqb s) l.

Definition _map (x : value) : Z :=
  match x with
  | Absent => 0
  | Present str =>
      let s := Text.lower (Text.strip str) in
      if mem s truthy then 1
      else if mem s falsey then 0
      else
        match Text.float s with
        | Some f => if float_ne0 f then 1 else 0
        | None => 0
        end
  end.

(** ** Helpers: [safe_div] *)

(** The arguments [safe_div] can meet. *)
Inductive pyval : Type :=
| PyInt (z : Z)
| PyFloat (f : pyfloat)
| PyNone
| PyStr (s : string).

(** Truth value, as tested by [if d]. *)
Definition truth (v : pyval) : bool :=
  match v with
  | PyInt z => negb (z =? 0)
  | PyFloat f => float_ne0 f
  | PyNone => false
  | PyStr s => negb (String.eqb s "")
  end.

(** [float(v)]: [OverflowError] for an integer beyond the doubles,
    [TypeError] for [None], [ValueError] for a text that is no number. *)
Definition to_float (v : pyval) : outcome pyfloat :=
  match v with
  | PyInt z =>
      match Text.round_double (inject_Z z) with
      | Inf _ => Raises
      | _ => Returns (Fin (inject_Z z))
      end
  | PyFloat f => Returns f
  | PyNone => Raises
  | PyStr s =>
      match Text.float s with
      | Some f => Returns f
      | None => Raises
      end
  end.

(** [a / b] on floats; a zero divisor is [ZeroDivisionError]. *)
Definition float_div (a b : pyfloat) : outcome pyfloat :=
  match b with
  | Fin qb =>
      if Qeq_bool qb 0 then Raises
      else
        match a with
        | Fin qa => Returns (Text.round_double (qa / qb))
        | Inf neg => Returns (Inf (xorb neg (negb (Qle_bool 0 qb))))
        | NaN => Returns NaN
        end
  | Inf _ =>
      match a with
      | Fin _ => Returns (Fin 0)
      | _ => Returns NaN
      end
  | NaN => Returns NaN
  end.

Definition safe_div (n d : pyval) : pyfloat :=
  let attempt :=
    if truth d then
      a <- to_float n ;; b <- to_float d ;; float_div a b
    else Returns (Fin 0) in
  match attempt with
  | Returns f => f
  | Raises => Fin 0
  end.

(** ** Lists: stable sorting, duplicates, grouping *)

Section Lists.

Context {A : Type}.

Fixpoint insert (leb : A -> A -> bool) (x : A) (l : list A) : list A :=
  match l with
  | [] => [x]
  | y :: l' => if leb x y then x :: l else y :: insert leb x l'
  end.

(** Insertion sort; equal elements keep their order. *)
Definition sort (leb : A -> A -> bool) (l : list A) : list A :=
  fold_right (insert leb) [] l.

(** The elements of [l] in order of first appearance ([unique]). *)
Fixpoint unique (eqb : A -> A -> bool) (l : list A) : list A :=
  match l with
  | [] => []
  | x :: l' => x :: filter (fun y => negb (eqb x y)) (unique eqb l')
  end.

End Lists.

Section GroupBy.

Context {K V : Type} (eqb : K -> K -> bool).

Fixpoint add_row (k : K) (v : V) (gs : list (K * list V)) : list (K * list V) :=
  match gs with
  | [] => [(k, [v])]
  | (k', vs) :: gs' =>
      if eqb k' k then (k', vs ++ [v]) :: gs'
      else (k', vs) :: add_row k v gs'
  end.

(** The rows of each key, keys in order of first appearance. *)
Definition groups (rows : list (K * V)) : list (K * list V) :=
  fold_left (fun gs r => add_row (fst r) (snd r) gs) rows [].

(** [groupby(key, dropna=False)]: one group per observed key, listed in
    the order [leb] of the keys. *)
Definition groupby (leb : K -> K -> bool) (rows : list (K * V)) : list (K * list V) :=
  sort (fun a b => leb (fst a) (fst b)) (groups rows).

End GroupBy.

(** ** Columns and frames *)

(** A cell as a grouping key or an identifier. *)
Inductive cell : Type :=
| Na
| Num (q : Q)
| Txt (s : string)
| Time (t : Z).

Definition cell_eqb (a b : cell) : bool :=
  match a, b with
  | Na, Na => true
  | Num x, Num y => Qeq_bool x y
  | Txt x, Txt y => String.eqb x y
  | Time x, Time y => x =? y
  | _, _ => false
  end.

Definition rank (a : cell) : Z :=
  match a with Num _ => 0 | Time _ => 1 | Txt _ => 2 | Na => 3 end.

(** Ascending order of the keys of one column, missing keys last. *)
Definition cell_leb (a b : cell) : bool :=
  match a, b with
  | Num x, Num y => Qle_bool x y
  | Txt x, Txt y => String.leb x y
  | Time x, Time y => x <=? y
  | _, _ => rank a <=? rank b
  end.

Definition notna (a : cell) : bool :=
  match a with Na => false | _ => true end.

Inductive column : Type :=
| IntCol (v : list Z)             (* int64 *)
| NumCol (v : list (option Q))    (* float64; None is NaN *)
| ObjCol (v : list value)         (* object: texts and missing cells *)
| TimeCol (v : list (option Z))   (* datetime64 in seconds; None is NaT *)
| DateCol (v : list (option Z)).  (* dates as day numbers; None is NaT *)

(** Ordered, named columns. *)
Definition frame : Type := list (string * column).

Definition col_len (c : column) : nat :=
  match c with
  | IntCol v => length v
  | NumCol v => length v
  | ObjCol v => length v
  | TimeCol v => length v
  | DateCol v => length v
  end.

(** [len(df)] *)
Definition len (df : frame) : nat :=
  match df with
  | (_, c) :: _ => col_len c
  | [] => O
  end.

(** [df.get(name)] *)
Fixpoint get (df : frame) (name : string) : option column :=
  match df with
  | [] => None
  | (n, c) :: df' => if String.eqb n name then Some c else get df' name
  end.

(** [name in df.columns] *)
Definition has (df : frame) (name : string) : bool :=
  match get df name with Some _ => true | None => false end.

(** [df[name]]: [KeyError] when the column is missing. *)
Definition getitem (df : frame) (name : string) : outcome column :=
  match get df name with Some c => Returns c | None => Raises end.

(** [df[name] = c]: in place when the column exists, appended otherwise. *)
Fixpoint setitem (df : frame) (name : string) (c : column) : frame :=
  match df with
  | [] => [(name, c)]
  | (n, c') :: df' =>
      if String.eqb n name then (n, c) :: df' else (n, c') :: setitem df' name c
  end.

Definition option_cell {A : Type} (f : A -> cell) (x : option A) : cell :=
  match x with Some a => f a | None => Na end.

Definition cells (c : column) : list cell :=
  match c with
  | IntCol v => map (fun z => Num (inject_Z z)) v
  | NumCol v => map (option_cell Num) v
  | ObjCol v => map (fun x => match x with Absent => Na | Present s => Txt s end) v
  | TimeCol v => map (option_cell Time) v
  | DateCol v => map (option_cell Time) v
  end.

(** [select_dtypes(include=[np.number])] keeps these. *)
Definition is_numeric (c : column) : bool :=
  match c with
  | IntCol _ | NumCol _ => true
  | _ => false
  end.

(** The cells of a numeric column as floats; a reduction such as [sum] or
    [mean] over another dtype is a [TypeError]. *)
Definition floats (c : column) : outcome (list (option Q)) :=
  match c with
  | IntCol v => Returns (map (fun z => Some (inject_Z z)) v)
  | NumCol v => Returns v
  | _ => Raises
  end.

(** ** Column reductions (NaN skipped) *)

Fixpoint dropna (l : list (option Q)) : list Q :=
  match l with
  | [] => []
  | Some q :: l' => q :: dropna l'
  | None :: l' => dropna l'
  end.

Definition total (l : list Q) : Q := fold_right Qplus 0%Q l.

(** [Series.sum()] *)
Definition nansum (l : list (option Q)) : Q := total (dropna l).

(** The mean of a list of floats, NaN when there is none. *)
Definition average (l : list Q) : option Q :=
  match l with
  | [] => None
  | _ => Some (total l / inject_Z (Z.of_nat (length l)))%Q
  end.

(** [Series.mean()] *)
Definition nanmean (l : list (option Q)) : option Q := average (dropna l).

Definition fill (d : Q) (x : option Q) : Q :=
  match x with Some q => q | None => d end.

Definition fillna (d : Q) (l : list (option Q)) : list (option Q) :=
  map (fun x => Some (fill d x)) l.

(** [Series.count()] *)
Definition count (l : list cell) : Z := Z.of_nat (length (filter notna l)).

(** [Series.nunique()] *)
Definition nunique (l : list cell) : Z :=
  Z.of_nat (length (unique cell_eqb (filter notna l))).

(** [int(x)] for a finite float: truncation towards zero. *)
Definition py_int (q : Q) : Z := Z.quot (Qnum q) (Z.pos (Qden q)).

(** [float(x)] of a reduction result. *)
Definition float_of (x : option Q) : pyfloat :=
  match x with Some q => Fin q | None => NaN end.

(** ** Preprocessing *)

Definition numeric_cols : list string :=
  ["GOV"; "CHARGEBACK_COST"; "SIFT_CREATE_ORDER_PA_SCORE";
   "FAIL_CHARGES_1HR"; "FAIL_CHARGES_1D"; "FAIL_CHARGES_7D";
   "DEVICE_DELIVERIES"; "DEVICE_PCT_CHARGEBACK";
   "CCR_PAST_DELIVERIES"; "CCR_CHARGEBACK_DELIVERIES"; "CX_PCT_CHARGEBACK";
   "CX_UNIQUE_ADDRESSES"; "UNIQUE_ADDRESS_PAST_1DAY"; "UNIQUE_ADDRESS_PAST_7DAY";
   "CX_DEVICE_ORDER_NUM"; "CX_ADDRESS_ORDER_NUM"; "CX_CARD_ORDER_NUM"; "CX_ORDER_NUM";
   "CX_AGE_ON_DELIVERY_BASED_ON_FIRST_ORDER"]%string.

Definition dow_map (d : Z) : value :=
  match d with
  | 0 => Present "Mon" | 1 => Present "Tue" | 2 => Present "Wed"
  | 3 => Present "Thu" | 4 => Present "Fri" | 5 => Present "Sat"
  | 6 => Present "Sun" | _ => Absent
  end.

(** Calendar fields of a time stamp in seconds since 1970-01-01 (a Thursday). *)
Definition date (t : Z) : Z := t / 86400.
Definition hour (t : Z) : Z := (t mod 86400) / 3600.
Definition dayofweek (t : Z) : Z := (date t + 3) mod 7.

(** [str(x)] of an integer: its decimal digits, behind a minus sign when
    it is negative. *)
Definition str_int (z : Z) : string :=
  match z with
  | 0 => "0"
  | Z.pos p => NilEmpty.string_of_uint (Pos.to_uint p)
  | Z.neg p => String "-" (NilEmpty.string_of_uint (Pos.to_uint p))
  end.

(** [to_bool_int].  A float cell is taken by its value: [str(x)] is a
    decimal text of [x] that [float] reads back as [x], and no such text
    is a token, so that [_map] on it is the test against zero.  The text
    of a time stamp is no token and no number. *)
Definition to_bool_int (series : column) : list Z :=
  match series with
  | ObjCol v => map _map v
  | IntCol v => map (fun z => _map (Present (str_int z))) v
  | NumCol v =>
      map (fun x => match x with
                    | None => 0
                    | Some q => if Qeq_bool q 0 then 0 else 1
                    end) v
  | TimeCol v => map (fun _ => 0) v
  | DateCol v => map (fun _ => 0) v
  end.

Section Pandas.

(** The text readers of pandas, which the pipeline calls and does not
    define: [pd.to_numeric] and [pd.to_datetime] on a text cell, [None]
    where the text is not understood ([errors="coerce"]). *)
Variable read_number : string -> option Q.
Variable read_time : string -> option Z.

(** [pd.to_numeric(c, errors="coerce")] *)
Definition to_numeric (c : column) : column :=
  match c with
  | IntCol v => IntCol v
  | NumCol v => NumCol v
  | ObjCol v =>
      NumCol (map (fun x => match x with
                            | Absent => None
                            | Present s => read_number s
                            end) v)
  | TimeCol v =>
      IntCol (map (fun x => match x with
                            | Some t => t * 10 ^ 9
                            | None => - 2 ^ 63
                            end) v)
  | DateCol v => NumCol (map (fun _ => None) v)
  end.

(** [pd.to_datetime(c, errors="coerce")]; numbers count nanoseconds. *)
Definition to_datetime (c : column) : list (option Z) :=
  match c with
  | TimeCol v => v
  | DateCol v => map (option_map (fun d => d * 86400)) v
  | ObjCol v =>
      map (fun x => match x with
                    | Absent => None
                    | Present s => read_time s
                    end) v
  | NumCol v => map (option_map (fun q => Qfloor (q / inject_Z (10 ^ 9)))) v
  | IntCol v => map (fun z => Some (z / 10 ^ 9)) v
  end.

Definition coerce (df : frame) (c : string) : frame :=
  match get df c with
  | Some col => setitem df c (to_numeric col)
  | None => df
  end.

(** A boolean-like column, or the scalar 0 on every row when it is missing. *)
Definition label (df : frame) (name : string) : column :=
  match get df name with
  | Some c => IntCol (to_bool_int c)
  | None => IntCol (repeat 0 (len df))
  end.

Definition col_fillna0 (c : column) : column :=
  match c with
  | NumCol v => NumCol (fillna 0 v)
  | _ => c
  end.

(** [c / 100.0] *)
Definition cents_to_dollars (c : column) : outcome column :=
  v <- floats c ;;
  Returns (NumCol (map (option_map (fun q => q / 100)%Q) v)).

Definition money (df : frame) : outcome frame :=
  match get df "GOV" with
  | Some c =>
      let gov := col_fillna0 (to_numeric c) in
      let df := setitem df "GOV" gov in
      dollars <- cents_to_dollars gov ;;
      Returns (setitem df "GOV_DOLLARS" dollars)
  | None =>
      Returns (setitem df "GOV_DOLLARS" (NumCol (repeat (Some 0%Q) (len df))))
  end.

(** Time stamps and calendar fields.  A missing CREATED_AT makes [df.get]
    give [None], [pd.to_datetime(None)] is [None], and the [.dt] accessor
    on a column of [None] raises. *)
Definition calendar (df : frame) : outcome frame :=
  match get df "CREATED_AT" with
  | None => Raises
  | Some c =>
      let created := to_datetime c in
      let df := setitem df "CREATED_AT" (TimeCol created) in
      let df := setitem df "DATE" (DateCol (map (option_map date) created)) in
      let df := setitem df "HOUR"
                  (NumCol (map (option_map (fun t => inject_Z (hour t))) created)) in
      let df := setitem df "DOW"
                  (NumCol (map (option_map (fun t => inject_Z (dayofweek t))) created)) in
      Returns (setitem df "DOW_LABEL"
                 (ObjCol (map (fun x => match x with
                                        | Some t => dow_map (dayofweek t)
                                        | None => Absent
                                        end) created)))
  end.

(** Numeric coercion of the declared columns that are present. *)
Definition numeric (df : frame) : frame := fold_left coerce numeric_cols df.

(** Booleans and label. *)
Definition labels (df : frame) : outcome frame :=
  let df := setitem df "RECEIVED_CHARGEBACK" (label df "RECEIVED_CHARGEBACK") in
  let df := setitem df "IS_FRAUDULENT_CHARGEBACK" (label df "IS_FRAUDULENT_CHARGEBACK") in
  fraud <- getitem df "IS_FRAUDULENT_CHARGEBACK" ;;
  Returns (setitem df "FRAUD_FLAG" fraud).

(** The preprocessing block. *)
Definition preprocess (df : frame) : outcome frame :=
  df <- calendar df ;;
  df <- labels (numeric df) ;;
  money df.

End Pandas.

(** ** KPIs *)

Definition overall_deliveries (df : frame) : Z :=
  match get df "DELIVERY_ID" with
  | Some c => nunique (cells c)
  | None => Z.of_nat (len df)
  end.

(** [int(df[name].sum())] *)
Definition flag_total (df : frame) (name : string) : outcome Z :=
  c <- getitem df name ;;
  v <- floats c ;;
  Returns (py_int (nansum v)).

Definition overall_cb (df : frame) : outcome Z := flag_total df "RECEIVED_CHARGEBACK".
Definition overall_fraud (df : frame) : outcome Z := flag_total df "FRAUD_FLAG".

Definition overall_cb_rate (df : frame) : outcome pyfloat :=
  cb <- overall_cb df ;;
  Returns (safe_div (PyInt cb) (PyInt (overall_deliveries df))).

Definition overall_fraud_rate (df : frame) : outcome pyfloat :=
  fraud <- overall_fraud df ;;
  Returns (safe_div (PyInt fraud) (PyInt (overall_deliveries df))).

(** [df.get(name, default)] read as floats. *)
Definition get_floats (df : frame) (name : string) (default : list (option Q))
  : outcome (list (option Q)) :=
  match get df name with
  | Some c => floats c
  | None => Returns default
  end.

Definition overall_cb_cost (df : frame) : outcome pyfloat :=
  v <- get_floats df "CHARGEBACK_COST" [Some 0%Q] ;;
  Returns (Fin (nansum (fillna 0 v))).

Definition avg_gov (df : frame) : outcome pyfloat :=
  match get df "GOV_DOLLARS" with
  | Some c => v <- floats c ;; Returns (float_of (nanmean v))
  | None => Returns (Fin 0)
  end.

Definition avg_sift (df : frame) : outcome pyfloat :=
  v <- get_floats df "SIFT_CREATE_ORDER_PA_SCORE" [None] ;;
  Returns (float_of (nanmean v)).

(** ** Daily trends *)

Module Daily.

Record row : Type := {
  DATE : cell;
  deliveries : Z;
  chargebacks : Q;
  fraudulent : Q;
  cb_cost : Q;
  avg_sift : option Q;
  avg_gov : option Q;
  chargeback_rate : Q;
  fraud_rate : Q
}.

End Daily.

(** [replace(0, np.nan)] on a count. *)
Definition replace_zero (d : Z) : option Q :=
  if d =? 0 then None else Some (inject_Z d).

(** Cell division; the divisor is never zero where it is used, zeros having
    been replaced by NaN. *)
Definition div_cell (a : Q) (b : option Q) : option Q :=
  match b with
  | Some d => Some (a / d)%Q
  | None => None
  end.

(** [(num / den.replace(0, np.nan)).fillna(0)] on one row. *)
Definition rate (num : Q) (den : Z) : Q :=
  fill 0 (div_cell num (replace_zero den)).

(** The values of one date, column by column, in the order of [agg]. *)
Definition daily_cells : Type :=
  cell * (option Q * (option Q * (option Q * (option Q * option Q)))).

Definition daily_agg (g : cell * list daily_cells) : Daily.row :=
  let vs := snd g in
  let deliveries := count (map fst vs) in
  let chargebacks := nansum (map (fun v => fst (snd v)) vs) in
  let fraudulent := nansum (map (fun v => fst (snd (snd v))) vs) in
  {| Daily.DATE := fst g;
     Daily.deliveries := deliveries;
     Daily.chargebacks := chargebacks;
     Daily.fraudulent := fraudulent;
     Daily.cb_cost := nansum (map (fun v => fst (snd (snd (snd v)))) vs);
     Daily.avg_sift := nanmean (map (fun v => fst (snd (snd (snd (snd v))))) vs);
     Daily.avg_gov := nanmean (map (fun v => snd (snd (snd (snd (snd v))))) vs);
     Daily.chargeback_rate := rate chargebacks deliveries;
     Daily.fraud_rate := rate fraudulent deliveries |}.

(** [df[name]] as floats, for a named aggregation: [KeyError] when the
    column is missing. *)
Definition agg_floats (df : frame) (name : string) : outcome (list (option Q)) :=
  c <- getitem df name ;; floats c.

Definition daily (df : frame) : outcome (list Daily.row) :=
  dates <- getitem df "DATE" ;;
  ids <- getitem df "DELIVERY_ID" ;;
  cb <- agg_floats df "RECEIVED_CHARGEBACK" ;;
  fr <- agg_floats df "FRAUD_FLAG" ;;
  cost <- agg_floats df "CHARGEBACK_COST" ;;
  sift <- agg_floats df "SIFT_CREATE_ORDER_PA_SCORE" ;;
  gov <- agg_floats df "GOV_DOLLARS" ;;
  let rows :=
    combine (cells dates)
      (combine (cells ids)
         (combine cb (combine fr (combine cost (combine sift gov))))) in
  Returns (map daily_agg (groupby cell_eqb cell_leb rows)).

(** ** Segment tables *)

(** A grouped fraud-rate table: the key of each group and its rate. *)
Definition segment (K : Type) : Type := list (K * option Q).

Definition rate_by {K : Type} (eqb leb : K -> K -> bool)
  (keys : list K) (flag : list (option Q)) : segment K :=
  map (fun g => (fst g, nanmean (snd g))) (groupby eqb leb (combine keys flag)).

(** [df.groupby(key, dropna=False)["FRAUD_FLAG"].mean()] when the key column
    is there, the empty table otherwise. *)
Definition fraud_by (df : frame) (key : string) : outcome (segment cell) :=
  match get df key with
  | Some k =>
      flag <- agg_floats df "FRAUD_FLAG" ;;
      Returns (rate_by cell_eqb cell_leb (cells k) flag)
  | None => Returns []
  end.

Definition sort_values_key (t : segment cell) : segment cell :=
  sort (fun a b => cell_leb (fst a) (fst b)) t.

Definition fraud_by_platform (df : frame) : outcome (segment cell) :=
  fraud_by df "PLATFORM".

Definition fraud_by_addr (df : frame) : outcome (segment cell) :=
  t <- fraud_by df "CX_UNIQUE_ADDRESSES" ;; Returns (sort_values_key t).

Definition fraud_by_failed (df : frame) : outcome (segment cell) :=
  t <- fraud_by df "FAIL_CHARGES_1D" ;; Returns (sort_values_key t).

(** ** Decile buckets of the order value *)

Definition bin_eqb (a b : option nat) : bool :=
  match a, b with
  | Some i, Some j => (i =? j)%nat
  | None, None => true
  | _, _ => false
  end.

(** Buckets by index, the missing bucket last.  (The source lists the rows
    by label text: the same rows, possibly in another order.) *)
Definition bin_leb (a b : option nat) : bool :=
  match a, b with
  | Some i, Some j => (i <=? j)%nat
  | None, Some _ => false
  | _, None => true
  end.


Definition Qlt_bool (a b : Q) : bool := negb (Qle_bool b a).

(** [np.linspace(0, 1, q + 1)] *)
Definition linspace (q : nat) : list Q :=
  map (fun k => (inject_Z (Z.of_nat k) / inject_Z (Z.of_nat q))%Q) (seq 0 (q + 1)).

(** [bins.searchsorted(x, side="left")] on increasing bins. *)
Definition searchsorted (bins : list Q) (x : Q) : nat :=
  length (filter (fun b => Qlt_bool b x) bins).

Inductive duplicates : Type := raise | drop.

(** The bucket of one value: its interval among the bin edges, the lowest
    edge included; [None] is the missing bucket. *)
Definition bucket (bins : list Q) (x : Q) : option nat :=
  let i := searchsorted bins x in
  let i := match bins with
           | b0 :: _ => if Qeq_bool x b0 then 1%nat else i
           | [] => i
           end in
  if (i =? length bins)%nat || (i =? 0)%nat then None else Some (i - 1)%nat.

Section Qcut.

(** [Series.quantile]: [quantile sorted p] is the quantile [p] of the
    sorted values, none of them NaN.  pandas computes it in binary64, by
    linear interpolation between two neighbours of the sorted values; the
    code calls it and does not define it, and the rounding of the
    interpolation is not modelled: the function is a parameter. *)
Variable quantile : list Q -> Q -> Q.

(** The bin edges of [pd.qcut(x, q, duplicates=...)]: repeated edges are
    dropped or refused. *)
Definition qcut_bins (x : list Q) (q : nat) (d : duplicates) : outcome (list Q) :=
  let bins := map (quantile (sort Qle_bool x)) (linspace q) in
  let unique_bins := unique Qeq_bool bins in
  if (length unique_bins <? length bins)%nat && negb (length bins =? 2)%nat then
    match d with
    | raise => Raises
    | drop => Returns unique_bins
    end
  else Returns bins.

(** [pd.qcut(x, q, duplicates=...)] on a column without NaN: for every row
    the index of its interval.  An interval prints as its label, so the
    index stands for [GOV_BIN_LABEL] as well, [None] for the label of a
    missing bucket. *)
Definition qcut (x : list Q) (q : nat) (d : duplicates) : outcome (list (option nat)) :=
  match x with
  | [] => Returns []
  | _ => bins <- qcut_bins x q d ;; Returns (map (bucket bins) x)
  end.

(** The column [GOV_BIN]. *)
Definition GOV_BIN (df : frame) : outcome (list (option nat)) :=
  c <- getitem df "GOV_DOLLARS" ;;
  gov <- floats c ;;
  qcut (map (fill 0) gov) 10 drop.

Definition fraud_by_gov_bin (df : frame) : outcome (segment (option nat)) :=
  if has df "GOV_DOLLARS" then
    bins <- GOV_BIN df ;;
    flag <- agg_floats df "FRAUD_FLAG" ;;
    Returns (rate_by bin_eqb bin_leb bins flag)
  else Returns [].

End Qcut.

(** The interpolation in exact arithmetic: the quantiles of pandas up to
    the rounding of binary64; the upper neighbour is clipped to the last
    value. *)
Definition linear_quantile (sorted : list Q) (q : Q) : Q :=
  let n := length sorted in
  let pos := (q * inject_Z (Z.of_nat (n - 1)))%Q in
  let lo := Z.to_nat (Qfloor pos) in
  let a := nth lo sorted 0%Q in
  let b := nth (Nat.min (lo + 1) (n - 1)) sorted 0%Q in
  (a + (b - a) * (pos - inject_Z (Qfloor pos)))%Q.

(** ** Quick insight helpers *)

Definition float_sub (a b : pyfloat) : pyfloat :=
  match a, b with
  | Fin x, Fin y => Fin (x - y)
  | Inf s, Fin _ => Inf s
  | Fin _, Inf s => Inf (negb s)
  | Inf s, Inf t => if Bool.eqb s t then NaN else Inf s
  | _, _ => NaN
  end.

(** Dates of the index, NaT last. *)
Definition date_leb (a b : option Z) : bool :=
  match a, b with
  | Some x, Some y => x <=? y
  | None, Some _ => false
  | _, None => true
  end.

(** [s.index.max()]: the latest date, NaT when there is none. *)
Definition index_max (s : list (option Z * Q)) : option Z :=
  fold_left (fun m r =>
               match fst r, m with
               | Some d, Some x => Some (Z.max x d)
               | Some d, None => Some d
               | None, _ => m
               end) s None.

(** A comparison of an index entry with a bound; false on NaT. *)
Definition after (bound : option Z) (d : option Z) : bool :=
  match d, bound with
  | Some x, Some b => b <? x
  | _, _ => false
  end.

Definition upto (bound : option Z) (d : option Z) : bool :=
  match d, bound with
  | Some x, Some b => x <=? b
  | _, _ => false
  end.

Definition minus_days (d : option Z) (days : Z) : option Z :=
  option_map (fun x => x - days) d.

(** [pd.Series(values.values, index=pd.to_datetime(series_dates)).sort_index()] *)
Definition series (series_dates : list (option Z)) (values : list Q)
  : list (option Z * Q) :=
  sort (fun a b => date_leb (fst a) (fst b)) (combine series_dates values).

(** [last_vs_prior_7d]: dates are day numbers, values floats without NaN.
    Building the series from columns of different lengths raises. *)
Definition last_vs_prior_7d (series_dates : list (option Z)) (values : list Q)
  : outcome (option (pyfloat * pyfloat * pyfloat)) :=
  if negb (length series_dates =? length values)%nat then Raises
  else
    let s := series series_dates values in
    match s with
    | [] => Returns None
    | _ =>
        let last_date := index_max s in
        let last7 := filter (fun r => after (minus_days last_date 7) (fst r)) s in
        let prior7 :=
          filter (fun r => after (minus_days last_date 14) (fst r)
                           && upto (minus_days last_date 7) (fst r)) s in
        if (length last7 =? 0)%nat || (length prior7 =? 0)%nat then Returns None
        else
          let m1 := float_of (average (map snd last7)) in
          let m0 := float_of (average (map snd prior7)) in
          Returns (Some (m1, m0, float_sub m1 m0))
    end.

(** ** Predictor ranking *)

(** The rows on which both columns are present. *)
Fixpoint complete (x y : list (option Q)) : list (Q * Q) :=
  match x, y with
  | Some a :: x', Some b :: y' => (a, b) :: complete x' y'
  | _ :: x', _ :: y' => complete x' y'
  | _, _ => []
  end.

(** Pearson's coefficient of two columns over their complete rows; NaN
    without a row or without variance.  The coefficient
    [r = sxy / sqrt (ssx * ssy)] is kept as the rational [r * |r|]: the map
    from [r] to [r * |r|] is increasing and one-to-one, so order and ties
    of coefficients, and of their magnitudes, are those of the kept
    values. *)
Definition pearson (x y : list (option Q)) : option Q :=
  let pts := complete x y in
  match average (map fst pts), average (map snd pts) with
  | Some mx, Some my =>
      let ssx := total (map (fun p => (fst p - mx) * (fst p - mx))%Q pts) in
      let ssy := total (map (fun p => (snd p - my) * (snd p - my))%Q pts) in
      let sxy := total (map (fun p => (fst p - mx) * (snd p - my))%Q pts) in
      if Qeq_bool (ssx * ssy) 0 then None
      else Some (sxy * Qabs sxy / (ssx * ssy))%Q
  | _, _ => None
  end.

(** [astype(int)]: NaN cannot be cast.  (Texts are not modelled here: the
    flag is numeric after preprocessing.) *)
Definition astype_int (c : column) : outcome (list Z) :=
  match c with
  | IntCol v => Returns v
  | NumCol v =>
      if forallb (fun x => match x with Some _ => true | None => false end) v
      then Returns (map (fun x => py_int (fill 0 x)) v)
      else Raises
  | _ => Raises
  end.

Definition numbers (c : column) : list (option Q) :=
  match floats c with Returns v => v | Raises => [] end.

Definition select_dtypes_number (df : frame) : frame :=
  filter (fun nc => is_numeric (snd nc)) df.

Definition drop_labels {A : Type} (labels : list string) (s : list (string * A))
  : list (string * A) :=
  filter (fun e => negb (mem (fst e) labels)) s.

(** The frame of the chart: [Feature] and [CorrelationWithFraud], one row
    per numeric column but the dropped labels, in column order. *)
Definition predictors (df : frame) : outcome (list (string * option Q)) :=
  c <- getitem df "FRAUD_FLAG" ;;
  flag <- astype_int c ;;
  let num := setitem (select_dtypes_number df) "FRAUD_FLAG" (IntCol flag) in
  let y := map (fun z => Some (inject_Z z)) flag in
  let corr := map (fun nc => (fst nc, pearson (numbers (snd nc)) y)) num in
  Returns (drop_labels ["FRAUD_FLAG"; "IS_FRAUDULENT_CHARGEBACK"]%string corr).

(** Ascending order of coefficients, NaN last. *)
Definition corr_leb (a b : option Q) : bool :=
  match a, b with
  | Some x, Some y => Qle_bool x y
  | None, Some _ => false
  | _, None => true
  end.

(** [_df.head(20).sort_values("CorrelationWithFraud")].  The order that
    [sort_values] gives to rows of one same coefficient is not fixed by
    its default algorithm (quicksort); the stable order stands for it, and
    no statement about the chart depends on it: the chart is described as
    a sorted permutation of the rows kept, and the sample [many_columns]
    has no two coefficients alike. *)
Definition predictors_chart (df : frame) : outcome (list (string * option Q)) :=
  t <- predictors df ;;
  Returns (sort (fun a b => corr_leb (snd a) (snd b)) (firstn 20 t)).

(** ** Static catalogs *)

Local Open Scope string_scope.

Definition glossary_items : list (string * string) :=
  [("DELIVERY_ID", "ID of Order/Delivery.");
   ("CREATED_AT", "Timestamp for order creation.");
   ("CONSUMER_ID", "ID of consumer account.");
   ("GOV", "Gross Order Value in cents; includes items subtotal, fees, taxes, tip.");
   ("CX_AGE_ON_DELIVERY_BASED_ON_FIRST_ORDER", "Consumer age in days at this delivery, since first order date.");
   ("PLATFORM", "Platform used at checkout (iOS/Android/Web).");
   ("RECEIVED_CHARGEBACK", "Whether the delivery received a chargeback.");
   ("IS_FRAUDULENT_CHARGEBACK", "True if chargeback reason ∈ {'fraudulent','unrecognized','general'} per issuer.");
   ("CHARGEBACK_COST", "Potential chargeback cost in cents (txn amount + processor fee; goes to 0 if win).");
   ("CX_DEVICE_ORDER_NUM", "Sequence number of orders by this consumer on this device.");
   ("CX_ADDRESS_ORDER_NUM", "Sequence number of orders by this consumer to this address.");
   ("CX_CARD_ORDER_NUM", "Sequence number of orders by this consumer using this card fingerprint.");
   ("CX_ORDER_NUM", "Sequence number of orders by this consumer (overall).");
   ("CX_UNIQUE_ADDRESSES", "Total unique addresses this consumer has ever used (to date).");
   ("UNIQUE_ADDRESS_PAST_1DAY", "Unique addresses used in last 24 hours from this order's creation.");
   ("UNIQUE_ADDRESS_PAST_7DAY", "Unique addresses used in last 7×24 hours from this order's creation.");
   ("SIFT_CREATE_ORDER_PA_SCORE", "Sift score for this order creation event.");
   ("FAIL_CHARGES_1HR", "Failed charge attempts in the hour before order.");
   ("FAIL_CHARGES_1D", "Failed charge attempts in the day before order.");
   ("FAIL_CHARGES_7D", "Failed charge attempts in the 7 days before order.");
   ("DEVICE_DELIVERIES", "Total deliveries placed by this device (to date).");
   ("DEVICE_PCT_CHARGEBACK", "% of this device's deliveries that received chargebacks.");
   ("CCR_PAST_DELIVERIES", "Consumer's total deliveries prior to this one.");
   ("CCR_CHARGEBACK_DELIVERIES", "Consumer's total prior chargebacks.");
   ("CX_PCT_CHARGEBACK", "Consumer chargeback rate = CCR_CHARGEBACK_DELIVERIES / CCR_PAST_DELIVERIES.")].

(** [glossary_map.get(field, "—")] *)
Definition glossary_map (field : string) : string :=
  match find (fun e => String.eqb (fst e) field) glossary_items with
  | Some e => snd e
  | None => "—"
  end.

(** The catalog of recommendations: key and title of each rule (the other
    entries of a rule are fixed texts as well). *)
Definition REC_DEFS : list (string * string) :=
  [("temporal", "Temporal Guardrails (Hot-Zone Windows)");
   ("failed_payments", "Step-up Verification on Failed Payments");
   ("address_velocity", "Address Velocity & Uniqueness Control");
   ("device", "Device-Level Risk Throttling");
   ("sift", "Sift Thresholds with Feedback Loop");
   ("gov", "High-Value (GOV) Order Scrutiny");
   ("platform", "Platform-Aware Guardrails")].

Record card : Type := {
  _id : string;
  title : string;
  highlight : bool
}.

Definition rec_card (key title : string) (selected_key : option string) : card :=
  {| _id := "rec-" ++ key;
     title := title;
     highlight := match selected_key with
                  | Some k => String.eqb key k
                  | None => false
                  end |}.

(** [build_rec_cards]: every rule of the catalog, the selected one first. *)
Definition build_rec_cards (selected_key : option string) : list card :=
  let cards := map (fun e => (fst e, rec_card (fst e) (snd e) selected_key)) REC_DEFS in
  let rank k (x : string * card) := if String.eqb (fst x) k then 0%nat else 1%nat in
  let cards :=
    match selected_key with
    | Some k =>
        if negb (String.eqb k "") && existsb (fun e => String.eqb (fst e) k) REC_DEFS
        then sort (fun a b => (rank k a <=? rank k b)%nat) cards
        else cards
    | None => cards
    end in
  map snd cards.

Local Close Scope string_scope.

(** ** Vocabulary of the statements *)

(** A group that is not empty, whose key satisfies [PK] and whose values
    satisfy [PV]. *)
Definition good_group {K V : Type} (PK : K -> Prop) (PV : V -> Prop)
  (g : K * list V) : Prop :=
  snd g <> [] /\ PK (fst g) /\ Forall PV (snd g).

(** A rate that is a number between 0 and 1. *)
Definition unit_rate (v : option Q) : Prop :=
  exists q, v = Some q /\ (0 <= q <= 1)%Q.

(** Every row of the table has a rate between 0 and 1 and a key that
    occurs among [keys], the keys of the rows that were grouped. *)
Definition rates_of_observed {K : Type} (t : segment K) (keys : list K) : Prop :=
  forall k r, In (k, r) t -> unit_rate r /\ In k keys.

(** The cells of the column [key], none when the column is missing. *)
Definition key_cells (df : frame) (key : string) : list cell :=
  match get df key with
  | Some c => cells c
  | None => []
  end.

(** The values of the rows dated in the last seven days up to the day [m],
    and of those dated in the seven days before. *)
Definition last_window (m : Z) (rows : list (option Z * Q)) : list Q :=
  map snd (filter (fun r => match fst r with
                            | Some d => m - 7 <? d
                            | None => false
                            end) rows).

Definition prior_window (m : Z) (rows : list (option Z * Q)) : list Q :=
  map snd (filter (fun r => match fst r with
                            | Some d => (m - 14 <? d) && (d <=? m - 7)
                            | None => false
                            end) rows).

(** [m] is the latest of the dates. *)
Definition latest (dates : list (option Z)) (m : Z) : Prop :=
  In (Some m) dates /\ forall d, In (Some d) dates -> d <= m.

(** [a] is the mean of the values [l], of which there is at least one. *)
Definition mean_of (l : list Q) (a : Q) : Prop :=
  l <> [] /\ (a == total l / inject_Z (Z.of_nat (length l)))%Q.

(** The mean of the order values that are present, in major units: the
    average order value as the specification words it. *)
Definition mean_present_order_value (raw : frame) : option Q :=
  match get raw "GOV" with
  | Some (NumCol v) => nanmean (map (option_map (fun q => q / 100)%Q) v)
  | _ => None
  end.

(** What the quantiles of pandas satisfy whatever their rounding: between
    two equal neighbours the interpolation is exact, so that every
    quantile of a column of one value is that value; *)
Definition constant_quantiles (quantile : list Q -> Q -> Q) : Prop :=
  forall s c p,
    s <> [] -> Forall (fun v => v == c)%Q s -> (0 <= p <= 1)%Q ->
    (quantile s p == c)%Q.

(** and the quantile 0 is the least of the values, the quantile 1 the
    greatest ([s] is sorted). *)
Definition end_quantiles (quantile : list Q -> Q -> Q) : Prop :=
  forall s p,
    ((p == 0)%Q -> (quantile s p == nth 0 s 0)%Q) /\
    ((p == 1)%Q -> (quantile s p == nth (length s - 1) s 0)%Q).

(** A table without records: every column is empty. *)
Definition zero_rows (df : frame) : Prop :=
  Forall (fun nc => col_len (snd nc) = O) df.





(** What holds of the column [n] of a frame when it is there. *)
Definition column_is (P : column -> Prop) (df : frame) (n : string) : Prop :=
  forall c, get df n = Some c -> P c.





(** ** Sample tables *)

(** Readers that understand no text. *)
Definition no_number (s : string) : option Q := None.
Definition no_time (s : string) : option Z := None.

(** One day whose only delivery has no identifier. *)
Definition no_id_frame : frame :=
  [("DATE", DateCol [Some 19723]); ("DELIVERY_ID", NumCol [None]);
   ("RECEIVED_CHARGEBACK", IntCol [1]); ("FRAUD_FLAG", IntCol [1]);
   ("CHARGEBACK_COST", NumCol [Some 7%Q]);
   ("SIFT_CREATE_ORDER_PA_SCORE", NumCol [None]);
   ("GOV_DOLLARS", NumCol [Some 50%Q])]%string.

Definition no_id_row : Daily.row :=
  {| Daily.DATE := Time 19723; Daily.deliveries := 0;
     Daily.chargebacks := 1%Q; Daily.fraudulent := 1%Q; Daily.cb_cost := 7%Q;
     Daily.avg_sift := None; Daily.avg_gov := Some (50 / 1)%Q;
     Daily.chargeback_rate := 0%Q; Daily.fraud_rate := 0%Q |}.

(** Two days of a daily rate, a week apart. *)
Definition two_days : list (option Z) := [Some 0; Some 7].
Definition two_rates : list Q := [1 # 10; 2 # 10]%Q.

Local Open Scope string_scope.

(** Two deliveries, the order value of the second missing. *)
Definition missing_gov : frame :=
  [("DELIVERY_ID", IntCol [1; 2]);
   ("CREATED_AT", TimeCol [Some 1704117600; Some 1704121200]);
   ("PLATFORM", ObjCol [Present "iOS"; Present "Web"]);
   ("GOV", NumCol [Some 1000%Q; None]);
   ("RECEIVED_CHARGEBACK", IntCol [1; 0]);
   ("IS_FRAUDULENT_CHARGEBACK", IntCol [1; 0]);
   ("CHARGEBACK_COST", NumCol [Some 1200%Q; None]);
   ("SIFT_CREATE_ORDER_PA_SCORE", NumCol [Some 80%Q; None])].

(** The same table without the column CHARGEBACK_COST. *)
Definition missing_cost : frame :=
  [("DELIVERY_ID", IntCol [1; 2]);
   ("CREATED_AT", TimeCol [Some 1704117600; Some 1704121200]);
   ("PLATFORM", ObjCol [Present "iOS"; Present "Web"]);
   ("GOV", NumCol [Some 1000%Q; Some 3000%Q]);
   ("RECEIVED_CHARGEBACK", IntCol [1; 0]);
   ("IS_FRAUDULENT_CHARGEBACK", IntCol [1; 0]);
   ("SIFT_CREATE_ORDER_PA_SCORE", NumCol [Some 80%Q; None])].

Local Close Scope string_scope.

Definition missing_gov_df : frame :=
  Eval vm_compute in
    match preprocess no_number no_time missing_gov with
    | Returns df => df
    | Raises => []
    end.

(** Three deliveries of one same order value. *)
Definition constant_gov : frame :=
  [("GOV_DOLLARS"%string, NumCol [Some 50%Q; Some 50%Q; Some 50%Q]);
   ("FRAUD_FLAG"%string, IntCol [1; 0; 0])].

(** One delivery of 2024-01-01 at 14:00 UTC: order value 5000, charged
    back as fraud, placed on iOS. *)
Definition single_record : frame :=
  [("DELIVERY_ID"%string, IntCol [1]);
   ("CREATED_AT"%string, TimeCol [Some 1704117600]);
   ("PLATFORM"%string, ObjCol [Present "iOS"]);
   ("GOV"%string, IntCol [5000]);
   ("RECEIVED_CHARGEBACK"%string, IntCol [1]);
   ("IS_FRAUDULENT_CHARGEBACK"%string, IntCol [1]);
   ("CHARGEBACK_COST"%string, NumCol [Some 5000%Q]);
   ("SIFT_CREATE_ORDER_PA_SCORE"%string, NumCol [Some 90%Q])].

(** A table without records. *)
Local Open Scope string_scope.

Definition empty_table : frame :=
  [("DELIVERY_ID", IntCol []);
   ("CREATED_AT", TimeCol []);
   ("PLATFORM", ObjCol []);
   ("GOV", NumCol []);
   ("RECEIVED_CHARGEBACK", IntCol []);
   ("IS_FRAUDULENT_CHARGEBACK", IntCol []);
   ("CHARGEBACK_COST", NumCol []);
   ("SIFT_CREATE_ORDER_PA_SCORE", NumCol [])].

Local Close Scope string_scope.

Definition empty_df : frame :=
  Eval vm_compute in
    match preprocess no_number no_time empty_table with
    | Returns df => df
    | Raises => []
    end.

Local Open Scope string_scope.


Local Close Scope string_scope.


(** The digits of a decimal numeral, most significant first. *)
Fixpoint uint_digits (d : Decimal.uint) : list Z :=
  match d with
  | Decimal.Nil => []
  | Decimal.D0 d => 0 :: uint_digits d
  | Decimal.D1 d => 1 :: uint_digits d
  | Decimal.D2 d => 2 :: uint_digits d
  | Decimal.D3 d => 3 :: uint_digits d
  | Decimal.D4 d => 4 :: uint_digits d
  | Decimal.D5 d => 5 :: uint_digits d
  | Decimal.D6 d => 6 :: uint_digits d
  | Decimal.D7 d => 7 :: uint_digits d
  | Decimal.D8 d => 8 :: uint_digits d
  | Decimal.D9 d => 9 :: uint_digits d
  end.

(** ** Vocabulary of the further properties *)

(** The values of the rows whose key is [k]. *)
Definition values_of {K V : Type} (eqb : K -> K -> bool) (k : K)
  (rows : list (K * V)) : list V :=
  map snd (filter (fun r => eqb k (fst r)) rows).

(** No group of [gs] has a key equal to [k]. *)
Definition unmatched {K V : Type} (eqb : K -> K -> bool)
  (gs : list (K * list V)) (k : K) : bool :=
  negb (existsb (fun a => eqb a k) (map fst gs)).

(** Keys of which no two are equal. *)
Definition distinct {K : Type} (eqb : K -> K -> bool) (ks : list K) : Prop :=
  ForallOrdPairs (fun a b => eqb a b = false) ks.

(** The state of the grouping loop after the rows [rows], started from the
    groups [gs]: the old groups extended, then a new group for each new
    key, in order of first appearance. *)
Definition grouped {K V : Type} (eqb : K -> K -> bool)
  (rows : list (K * V)) (gs : list (K * list V)) : list (K * list V) :=
  map (fun g => (fst g, snd g ++ values_of eqb (fst g) rows)) gs
  ++ map (fun k => (k, values_of eqb k rows))
       (unique eqb (filter (unmatched eqb gs) (map fst rows))).

(** The table [t] lists the mean flag of every key of the rows: a row of
    [t] holds the mean of the flags of all the rows of its key, every key
    of the rows has a row, and no key has two. *)
Definition group_means {K : Type} (eqb : K -> K -> bool)
  (keys : list K) (flag : list (option Q)) (t : segment K) : Prop :=
  (forall k r, In (k, r) t ->
     In k keys /\ r = nanmean (values_of eqb k (combine keys flag))) /\
  (forall k, In k (map fst (combine keys flag)) ->
     exists k' r, In (k', r) t /\ eqb k' k = true) /\
  (forall k, (length (filter (fun row => eqb k (fst row)) t) <= 1)%nat).

(** The key order of a table: ascending keys, missing keys last. *)
Definition ascending {V : Type} (t : list (cell * V)) : Prop :=
  Sorted (fun a b => cell_leb (fst a) (fst b) = true) t.

(** The records that [daily] groups: the date, the identifier and the five
    aggregated cells of every row of the table. *)
Definition daily_records (df : frame) : outcome (list (cell * daily_cells)) :=
  dates <- getitem df "DATE" ;;
  ids <- getitem df "DELIVERY_ID" ;;
  cb <- agg_floats df "RECEIVED_CHARGEBACK" ;;
  fr <- agg_floats df "FRAUD_FLAG" ;;
  cost <- agg_floats df "CHARGEBACK_COST" ;;
  sift <- agg_floats df "SIFT_CREATE_ORDER_PA_SCORE" ;;
  gov <- agg_floats df "GOV_DOLLARS" ;;
  Returns
    (combine (cells dates)
       (combine (cells ids)
          (combine cb (combine fr (combine cost (combine sift gov)))))).

(** A frame all of whose columns have one length, as pandas keeps them. *)
Definition rectangular (df : frame) : Prop :=
  Forall (fun nc => col_len (snd nc) = len df) df.

(** The sum of a column of counts. *)
Definition count_total (l : list Z) : Z := fold_right Z.add 0 l.

(** A frame all of whose columns have [n] rows. *)
Definition all_rows (n : nat) (df : frame) : Prop :=
  Forall (fun nc => col_len (snd nc) = n) df.

(** The columns that preprocessing writes. *)
Definition written : list string :=
  ["CREATED_AT"; "DATE"; "HOUR"; "DOW"; "DOW_LABEL";
   "RECEIVED_CHARGEBACK"; "IS_FRAUDULENT_CHARGEBACK"; "FRAUD_FLAG";
   "GOV"; "GOV_DOLLARS"]%string.

(** A column of zeros and ones. *)
Definition binary (c : column) : Prop :=
  exists v, c = IntCol v /\ Forall (fun z => z = 0 \/ z = 1) v.

(** A record of the daily grouping that has an identifier and whose two
    flags are 0 or 1. *)
Definition counted (v : daily_cells) : Prop :=
  notna (fst v) = true /\
  unit_rate (fst (snd v)) /\ unit_rate (fst (snd (snd v))).

(** ** Quick insights *)



(** The position of the first best of the present values, with the value:
    the scan of [idxmax] and [idxmin]. *)
Fixpoint arg_best (better : Q -> Q -> bool) (l : list (option Q)) (i : nat)
  (best : option (nat * Q)) : option (nat * Q) :=
  match l with
  | [] => best
  | None :: l' => arg_best better l' (S i) best
  | Some q :: l' =>
      arg_best better l' (S i)
        (match best with
         | Some (j, b) => if better q b then Some (i, q) else best
         | None => Some (i, q)
         end)
  end.

(** [s.idxmax()] on a default index: the position of the first greatest
    value, NaN skipped; without a value there is none and the lookup
    raises. *)
Definition idxmax (s : list (option Q)) : outcome nat :=
  match arg_best (fun q b => Qlt_bool b q) s 0 None with
  | Some (i, _) => Returns i
  | None => Raises
  end.

Definition idxmin (s : list (option Q)) : outcome nat :=
  match arg_best (fun q b => Qlt_bool q b) s 0 None with
  | Some (i, _) => Returns i
  | None => Raises
  end.

(** [t.loc[i]] on a default index. *)
Definition loc {K : Type} (t : segment K) (i : nat) : outcome (K * option Q) :=
  match nth_error t i with
  | Some row => Returns row
  | None => Raises
  end.

(** Descending order of rates, NaN last. *)
Definition rate_geb (a b : option Q) : bool :=
  match a, b with
  | Some x, Some y => Qle_bool y x
  | None, Some _ => false
  | _, None => true
  end.

(** [int(x)] of a key of a numeric column: NaN cannot be converted. *)
Definition int_key (c : cell) : outcome Z :=
  match c with
  | Num q => Returns (py_int q)
  | _ => Raises
  end.

(** [x >= n] on a key of a numeric column: false on NaN; a text or a time
    cannot be compared with a number. *)
Definition key_ge (n : Q) (c : cell) : outcome bool :=
  match c with
  | Num q => Returns (Qle_bool n q)
  | Na => Returns false
  | _ => Raises
  end.

(** The rows of a table whose key is at least [n]. *)
Fixpoint rows_ge (n : Q) (t : segment cell) : outcome (segment cell) :=
  match t with
  | [] => Returns []
  | row :: t' =>
      b <- key_ge n (fst row) ;;
      rest <- rows_ge n t' ;;
      Returns (if b then row :: rest else rest)
  end.

Local Open Scope string_scope.

Section Insights.

(** The texts of numbers and keys, which Python's formatting gives and
    which are not modelled: [fmt_pct(x)], that is [f"{x:.2%}"], and
    [str(x)] of a platform and of a bucket label. *)
Variable fmt_pct : pyfloat -> string.
Variable str_key : cell -> string.
Variable str_bin : option nat -> string.


(** [insight_platform], on the platform table and the overall fraud rate. *)
Definition insight_platform (fraud_by_platform : segment cell)
  (overall_fraud_rate : pyfloat) : outcome (list string) :=
  match fraud_by_platform with
  | [] => Returns ["No platform data available."]
  | _ =>
      i <- idxmax (map snd fraud_by_platform) ;;
      top <- loc fraud_by_platform i ;;
      j <- idxmin (map snd fraud_by_platform) ;;
      bot <- loc fraud_by_platform j ;;
      Returns
        ["Highest fraud platform: " ++ str_key (fst top)
         ++ " (" ++ fmt_pct (float_of (snd top)) ++ ").";
         "Lowest fraud platform: " ++ str_key (fst bot)
         ++ " (" ++ fmt_pct (float_of (snd bot)) ++ ").";
         "Overall fraud rate baseline: " ++ fmt_pct overall_fraud_rate ++ "."]
  end.

(** [insight_govbin], on the bucket table and the overall fraud rate. *)
Definition insight_govbin (fraud_by_gov_bin : segment (option nat))
  (overall_fraud_rate : pyfloat) : outcome (list string) :=
  match fraud_by_gov_bin with
  | [] => Returns ["No GOV bin data available."]
  | _ =>
      i <- idxmax (map snd fraud_by_gov_bin) ;;
      top <- loc fraud_by_gov_bin i ;;
      j <- idxmin (map snd fraud_by_gov_bin) ;;
      bot <- loc fraud_by_gov_bin j ;;
      Returns
        (firstn 3
           ["Highest fraud bin: " ++ str_bin (fst top)
            ++ " (" ++ fmt_pct (float_of (snd top)) ++ ").";
            "Lowest fraud bin: " ++ str_bin (fst bot)
            ++ " (" ++ fmt_pct (float_of (snd bot)) ++ ").";
            "Baseline fraud rate: " ++ fmt_pct overall_fraud_rate ++ "."])
  end.

(** [insight_addresses], on the address table and the overall fraud rate.
    The row of the highest rate is the head of the table in descending
    order of the rate; which of several rows of one same highest rate
    comes first is not fixed by [sort_values], the stable order stands for
    it. *)
Definition insight_addresses (fraud_by_addr : segment cell)
  (overall_fraud_rate : pyfloat) : outcome (list string) :=
  match fraud_by_addr with
  | [] => Returns ["No address data available."]
  | _ =>
      let overall := overall_fraud_rate in
      match sort (fun a b => rate_geb (snd a) (snd b)) fraud_by_addr with
      | [] => Raises
      | high :: _ =>
          n <- int_key (fst high) ;;
          let bullets :=
            ["Highest fraud at " ++ str_int n ++ " unique addresses ("
             ++ fmt_pct (float_of (snd high)) ++ ").";
             "Overall fraud rate baseline: " ++ fmt_pct overall ++ "."] in
          ge2 <- rows_ge 2 fraud_by_addr ;;
          let bullets :=
            match ge2 with
            | [] => bullets
            | _ =>
                let gte2 := float_of (nanmean (map snd ge2)) in
                List.app bullets
                ["2+ unique addresses avg fraud: " ++ fmt_pct gte2
                 ++ " (vs baseline)."]
            end in
          Returns (firstn 3 bullets)
      end
  end.

End Insights.

Local Close Scope string_scope.


Local Open Scope string_scope.

(** Three deliveries; the one without an address count is a fraud. *)
Definition missing_count : frame :=
  [("DELIVERY_ID", IntCol [1; 2; 3]);
   ("CREATED_AT", TimeCol [Some 1704117600; Some 1704121200; Some 1704124800]);
   ("CX_UNIQUE_ADDRESSES", NumCol [Some 1%Q; Some 2%Q; None]);
   ("IS_FRAUDULENT_CHARGEBACK", IntCol [0; 0; 1])].

Local Close Scope string_scope.

Definition missing_count_df : frame :=
  Eval vm_compute in
    match preprocess no_number no_time missing_count with
    | Returns df => df
    | Raises => []
    end.

Definition missing_count_table : segment cell :=
  Eval vm_compute in
    match fraud_by_addr missing_count_df with
    | Returns t => t
    | Raises => []
    end.

(** * Properties *)

(** ** Lists *)

Section ListFacts.

Context {A : Type}.
Variable leb : A -> A -> bool.

Lemma insert_perm (x : A) (l : list A) : Permutation (x :: l) (insert leb x l).
Proof.
  induction l as [|y l IH]; simpl.
  - reflexivity.
  - destruct (leb x y).
    + reflexivity.
    + rewrite perm_swap. now constructor.
Qed.

Lemma sort_perm (l : list A) : Permutation l (sort leb l).
Proof.
  induction l as [|x l IH]; simpl.
  - constructor.
  - rewrite <- insert_perm. now constructor.
Qed.

Lemma sort_length (l : list A) : length (sort leb l) = length l.
Proof. symmetry. apply Permutation_length, sort_perm. Qed.

Lemma sort_in (x : A) (l : list A) : In x (sort leb l) <-> In x l.
Proof.
  split; intro H.
  - eapply Permutation_in; [symmetry; apply sort_perm | exact H].
  - eapply Permutation_in; [apply sort_perm | exact H].
Qed.

Hypothesis leb_total : forall a b, leb a b = true \/ leb b a = true.

Lemma insert_sorted (x : A) (l : list A) :
  Sorted (fun a b => leb a b = true) l ->
  Sorted (fun a b => leb a b = true) (insert leb x l).
Proof.
  induction 1 as [|y l Hs IH Hd]; simpl.
  - repeat constructor.
  - destruct (leb x y) eqn:E.
    + constructor; [now constructor | now constructor].
    + constructor; [exact IH |].
      destruct l as [|z l]; simpl.
      * constructor. destruct (leb_total x y); congruence.
      * inversion Hd; subst. destruct (leb x z).
        -- constructor. destruct (leb_total x y); congruence.
        -- now constructor.
Qed.

Lemma sort_sorted (l : list A) : Sorted (fun a b => leb a b = true) (sort leb l).
Proof.
  induction l as [|x l IH]; simpl.
  - constructor.
  - now apply insert_sorted.
Qed.

End ListFacts.

Section UniqueFacts.

Context {A : Type}.
Variable eqb : A -> A -> bool.

Lemma unique_in (x : A) (l : list A) : In x (unique eqb l) -> In x l.
Proof.
  revert x. induction l as [|y l IH]; simpl; intros x H; [exact H|].
  destruct H as [H|H]; [now left|].
  apply filter_In in H. right. now apply IH.
Qed.

Lemma unique_all_equal (x : A) (l : list A) :
  Forall (fun y => eqb x y = true) l -> unique eqb (x :: l) = [x].
Proof.
  intro H. simpl. f_equal.
  assert (Hu : Forall (fun y => eqb x y = true) (unique eqb l)).
  { apply Forall_forall. intros y Hy. rewrite Forall_forall in H.
    now apply H, unique_in. }
  induction Hu as [|y u Hy _ IH]; simpl; [reflexivity|].
  now rewrite Hy.
Qed.

End UniqueFacts.

Section GroupFacts.

Context {K V : Type}.
Variable eqb : K -> K -> bool.
Variable PK : K -> Prop.
Variable PV : V -> Prop.

Lemma add_row_good (k : K) (v : V) (gs : list (K * list V)) :
  PK k -> PV v -> Forall (good_group PK PV) gs ->
  Forall (good_group PK PV) (add_row eqb k v gs).
Proof.
  intros Hk Hv. induction 1 as [|[k' vs] gs [Hn [Hk' Hvs]] Hgs IH]; simpl.
  - repeat constructor; simpl; auto. discriminate.
  - destruct (eqb k' k).
    + constructor; [|exact Hgs]. repeat split; simpl in *; auto.
      * now destruct vs.
      * apply Forall_app. split; auto.
    + constructor; [|exact IH]. repeat split; auto.
Qed.

Lemma groups_good (rows : list (K * V)) :
  Forall (fun r => PK (fst r) /\ PV (snd r)) rows ->
  Forall (good_group PK PV) (groups eqb rows).
Proof.
  unfold groups. generalize (@nil (K * list V)) (Forall_nil (good_group PK PV)).
  induction rows as [|r rows IH]; simpl; intros gs Hgs Hrows; [exact Hgs|].
  inversion Hrows as [|? ? [Hk Hv] Hrest]; subst.
  apply IH; [|exact Hrest]. now apply add_row_good.
Qed.

Lemma groupby_good (leb : K -> K -> bool) (rows : list (K * V)) :
  Forall (fun r => PK (fst r) /\ PV (snd r)) rows ->
  Forall (good_group PK PV) (groupby eqb leb rows).
Proof.
  intro H. unfold groupby. apply Forall_forall. intros g Hg.
  apply sort_in in Hg. revert g Hg. apply Forall_forall. now apply groups_good.
Qed.

End GroupFacts.

(** ** Texts *)

Module TextFacts.
Import Text.

Lemma text_chars (s : string) : text (chars s) = s.
Proof. apply string_of_list_ascii_of_string. Qed.

Lemma chars_text (l : list ascii) : chars (text l) = l.
Proof. apply list_ascii_of_string_of_list_ascii. Qed.

Lemma is_space_lower (c : ascii) : is_space (lower_char c) = is_space c.
Proof. destruct c as [[] [] [] [] [] [] [] []]; reflexivity. Qed.

Lemma lstrip_spaces (l m : list ascii) :
  Forall (fun c => is_space c = true) l -> lstrip (l ++ m) = lstrip m.
Proof.
  induction 1 as [|c l Hc _ IH]; simpl; [reflexivity|].
  now rewrite Hc.
Qed.

Lemma lstrip_solid (c : ascii) (m : list ascii) :
  is_space c = false -> lstrip (c :: m) = c :: m.
Proof. intro H. simpl. now rewrite H. Qed.

(** Stripping removes a padding of white space around a text that begins
    and ends with other characters. *)
Lemma strip_padding (l r m : list ascii) (a b : ascii) :
  Forall (fun c => is_space c = true) l ->
  Forall (fun c => is_space c = true) r ->
  is_space a = false -> is_space b = false ->
  hd_error m = Some a -> hd_error (rev m) = Some b ->
  rstrip (lstrip (l ++ m ++ r)) = m.
Proof.
  intros Hl Hr Ha Hb Hhd Hlast.
  rewrite lstrip_spaces by exact Hl.
  destruct m as [|a' m]; [discriminate|].
  injection Hhd as ->.
  change ((a :: m) ++ r) with (a :: (m ++ r)).
  rewrite lstrip_solid by exact Ha.
  unfold rstrip.
  change (a :: m ++ r) with ((a :: m) ++ r).
  rewrite rev_app_distr.
  rewrite lstrip_spaces.
  - destruct (rev (a :: m)) as [|b' t] eqn:E; [discriminate|].
    injection Hlast as ->.
    rewrite lstrip_solid by exact Hb.
    rewrite <- E. apply rev_involutive.
  - apply Forall_rev. exact Hr.
Qed.

Lemma lower_chars (s t : string) :
  lower s = t -> map lower_char (chars s) = chars t.
Proof. intros <-. unfold lower. now rewrite chars_text. Qed.

Lemma solid_ends (m : list ascii) :
  m <> [] -> Forall (fun c => is_space c = false) m ->
  exists a b, hd_error m = Some a /\ hd_error (rev m) = Some b /\
              is_space a = false /\ is_space b = false.
Proof.
  intros Hm H.
  destruct m as [|a m]; [congruence|].
  destruct (rev (a :: m)) as [|b t] eqn:E.
  - apply (f_equal (@length ascii)) in E. rewrite length_rev in E. discriminate.
  - exists a, b. repeat split.
    + now inversion H.
    + rewrite Forall_forall in H. apply H. apply in_rev. rewrite E. now left.
Qed.

Lemma solid_lower (m : list ascii) :
  Forall (fun c => is_space c = false) (map lower_char m) ->
  Forall (fun c => is_space c = false) m.
Proof.
  rewrite !Forall_forall. intros H c Hc.
  rewrite <- is_space_lower. apply H. now apply in_map.
Qed.

Lemma strip_padded_token (l r : list ascii) (s : string) :
  Forall (fun c => is_space c = true) l ->
  Forall (fun c => is_space c = true) r ->
  In (lower s) (truthy ++ falsey) ->
  lower (strip (text (l ++ chars s ++ r))) = lower s.
Proof.
  intros Hl Hr Hin.
  assert (Hs : chars s <> [] /\ Forall (fun c => is_space c = false) (chars s)).
  { pose proof (lower_chars s (lower s) eq_refl) as E.
    split.
    - intro Hnil. rewrite Hnil in E. simpl in E.
      simpl in Hin.
      repeat (destruct Hin as [Hin|Hin];
              [rewrite <- Hin in E; discriminate E|]).
      exact Hin.
    - apply solid_lower. rewrite E.
      simpl in Hin.
      repeat (destruct Hin as [Hin|Hin];
              [rewrite <- Hin; repeat constructor|]).
      destruct Hin. }
  destruct Hs as [Hne Hsolid].
  destruct (solid_ends _ Hne Hsolid) as (a & b & Ha & Hb & Hsa & Hsb).
  unfold strip. rewrite chars_text.
  rewrite (strip_padding l r (chars s) a b) by assumption.
  now rewrite text_chars.
Qed.

End TextFacts.

Lemma mem_in (s : string) (l : list string) : mem s l = true <-> In s l.
Proof.
  unfold mem. rewrite existsb_exists. split.
  - intros (x & Hx & E). apply String.eqb_eq in E. now subst.
  - intro H. exists s. split; [exact H | apply String.eqb_refl].
Qed.

Lemma map_binary (x : value) : _map x = 0 \/ _map x = 1.
Proof.
  destruct x as [|s]; [now left|]. unfold _map.
  destruct (mem (Text.lower (Text.strip s)) truthy); [now right|].
  destruct (mem (Text.lower (Text.strip s)) falsey); [now left|].
  destruct (Text.float (Text.lower (Text.strip s))) as [f|]; [|now left].
  destruct (float_ne0 f); [now right | now left].
Qed.

Lemma to_bool_int_binary (c : column) :
  Forall (fun z => z = 0 \/ z = 1) (to_bool_int c).
Proof.
  destruct c as [v|v|v|v|v]; cbn [to_bool_int]; apply Forall_forall; intros z Hz;
    apply in_map_iff in Hz; destruct Hz as (x & <- & _).
  - exact (map_binary _).
  - destruct x as [q|]; [destruct (Qeq_bool q 0)|]; auto.
  - exact (map_binary _).
  - now left.
  - now left.
Qed.

Lemma to_bool_int_length (c : column) : length (to_bool_int c) = col_len c.
Proof. destruct c; cbn [to_bool_int col_len]; apply length_map. Qed.

(** ** Texts of integers *)

Module IntText.
Import Text TextFacts.

Lemma acc_digits (d : Decimal.uint) (acc : positive) :
  Z.pos (Pos.of_uint_acc d acc)
  = fold_left (fun n k => 10 * n + k) (uint_digits d) (Z.pos acc).
Proof.
  revert acc. induction d; intro acc; cbn [Pos.of_uint_acc uint_digits fold_left];
    [reflexivity | rewrite IHd; f_equal; lia ..].
Qed.

Lemma of_uint_digits (d : Decimal.uint) :
  Z.of_N (Pos.of_uint d) = decimal (uint_digits d).
Proof.
  unfold decimal.
  induction d; cbn [Pos.of_uint uint_digits fold_left]; try reflexivity;
    try exact IHd; cbn [Z.of_N]; now rewrite acc_digits.
Qed.

Lemma to_uint_digits (p : positive) : decimal (uint_digits (Pos.to_uint p)) = Z.pos p.
Proof. now rewrite <- of_uint_digits, Unsigned.of_to. Qed.

Lemma digit_char (c : ascii) :
  is_digit c = true ->
  is_space c = false /\ lower_char c = c /\
  Ascii.eqb c "-" = false /\ Ascii.eqb c "+" = false /\
  Ascii.eqb c "i" = false /\ Ascii.eqb c "n" = false.
Proof.
  destruct c as [[] [] [] [] [] [] [] []]; cbv; try discriminate;
    intros _; repeat split.
Qed.

Lemma uint_chars_digits (d : Decimal.uint) :
  Forall (fun c => is_digit c = true) (chars (NilEmpty.string_of_uint d)) /\
  digits_tl (chars (NilEmpty.string_of_uint d)) = (uint_digits d, []).
Proof.
  unfold chars.
  induction d as [|d [IH1 IH2]|d [IH1 IH2]|d [IH1 IH2]|d [IH1 IH2]|d [IH1 IH2]
                  |d [IH1 IH2]|d [IH1 IH2]|d [IH1 IH2]|d [IH1 IH2]|d [IH1 IH2]];
    cbn [NilEmpty.string_of_uint list_ascii_of_string uint_digits];
    [split; [constructor | reflexivity] | ..];
    (split; [constructor; [reflexivity | exact IH1]
            | cbn [digits_tl]; rewrite IH2; reflexivity]).
Qed.

Lemma to_uint_not_nil (p : positive) : Pos.to_uint p <> Decimal.Nil.
Proof.
  intro E. pose proof (Unsigned.of_to p) as H. rewrite E in H. discriminate.
Qed.

Lemma string_of_uint_not_empty (d : Decimal.uint) :
  d <> Decimal.Nil -> chars (NilEmpty.string_of_uint d) <> [].
Proof. destruct d; [congruence | discriminate ..]. Qed.

Lemma digitpart_all (l : list ascii) (ds : list Z) :
  l <> [] -> Forall (fun c => is_digit c = true) l ->
  digits_tl l = (ds, []) -> digitpart l = Some (ds, []).
Proof.
  intros Hne Hl Hd. destruct l as [|c l]; [congruence|].
  inversion Hl as [|? ? Hc _]; subst.
  cbn [digits_tl] in Hd. rewrite Hc in Hd.
  cbn [digitpart]. rewrite Hc.
  destruct (digits_tl l) as [ds' r]. now injection Hd as <- <-.
Qed.

(** Reading a text of decimal digits, behind an optional minus sign. *)
Lemma floatvalue_digits (neg : bool) (l : list ascii) (ds : list Z) :
  l <> [] -> Forall (fun c => is_digit c = true) l ->
  digits_tl l = (ds, []) ->
  floatvalue (if neg then "-"%char :: l else l)
  = Some (round_double
            (inject_Z (if neg then - decimal ds else decimal ds) * pow10 0)).
Proof.
  intros Hne Hl Hd.
  pose proof (digitpart_all l ds Hne Hl Hd) as Hp.
  destruct l as [|c l]; [congruence|].
  inversion Hl as [|? ? Hc _]; subst.
  destruct (digit_char c Hc) as (_ & _ & Hm & Hplus & Hi & Hn).
  assert (Hsign : sign (if neg then "-"%char :: c :: l else c :: l)
                  = (neg, c :: l)).
  { destruct neg; cbn [sign]; [reflexivity|]. now rewrite Hm, Hplus. }
  unfold floatvalue. rewrite Hsign.
  assert (Hinf : list_eqb (c :: l) (chars "inf") = false).
  { unfold list_eqb, text. cbn. now rewrite Hi. }
  assert (Hinfinity : list_eqb (c :: l) (chars "infinity") = false).
  { unfold list_eqb, text. cbn. now rewrite Hi. }
  assert (Hnan : list_eqb (c :: l) (chars "nan") = false).
  { unfold list_eqb, text. cbn. now rewrite Hn. }
  rewrite Hinf, Hinfinity, Hnan. cbn [orb].
  unfold number. rewrite Hp. cbn [exponent]. reflexivity.
Qed.

Lemma round_double_int (m : Z) :
  float_ne0 (round_double (inject_Z m * pow10 0)) = negb (m =? 0).
Proof.
  change (pow10 0) with 1%Q.
  assert (Hzero : m = 0 -> Qle_bool (Qabs (inject_Z m * 1)) (pow2 (-1075)) = true).
  { intros ->. reflexivity. }
  assert (Hsmall : Qle_bool (Qabs (inject_Z m * 1)) (pow2 (-1075)) = true -> m = 0).
  { intro H. apply Qle_bool_iff in H.
    assert (Ht : (pow2 (-1075) < 1)%Q) by (vm_compute; reflexivity).
    pose proof (Qle_lt_trans _ _ _ H Ht) as Hlt.
    unfold Qlt, Qabs, Qmult, inject_Z in Hlt. cbn [Qnum Qden] in Hlt. lia. }
  unfold round_double.
  destruct (Qle_bool (Qabs (inject_Z m * 1)) (pow2 (-1075))) eqn:E1.
  - rewrite (Hsmall eq_refl). reflexivity.
  - assert (Hm : m <> 0) by (intro E; specialize (Hzero E); congruence).
    assert (Hne : negb (m =? 0) = true).
    { apply negb_true_iff, Z.eqb_neq, Hm. }
    rewrite Hne.
    destruct (Qle_bool (pow2 1024 - pow2 970) (Qabs (inject_Z m * 1)));
      [reflexivity|].
    cbn [float_ne0]. apply negb_true_iff.
    destruct (Qeq_bool (inject_Z m * 1) 0) eqn:E; [|reflexivity].
    apply Qeq_bool_iff in E. unfold Qeq, Qmult, inject_Z in E.
    cbn [Qnum Qden] in E. lia.
Qed.

Lemma plain_text (l : list ascii) :
  l <> [] ->
  Forall (fun c => is_space c = false /\ lower_char c = c) l ->
  lower (strip (text l)) = text l.
Proof.
  intros Hne Hl.
  assert (Hsolid : Forall (fun c => is_space c = false) l).
  { eapply Forall_impl; [|exact Hl]. now intros c [H _]. }
  destruct (solid_ends l Hne Hsolid) as (a & b & Ha & Hb & Hsa & Hsb).
  unfold strip. rewrite chars_text.
  pose proof (strip_padding [] [] l a b (Forall_nil _) (Forall_nil _)
                Hsa Hsb Ha Hb) as Hs.
  rewrite app_nil_r in Hs. cbn [app] in Hs. rewrite Hs.
  unfold lower. rewrite chars_text. f_equal.
  rewrite <- (map_id l) at 2. apply map_ext_in.
  intros c Hc. rewrite Forall_forall in Hl. now apply Hl.
Qed.

Lemma digits_plain (l : list ascii) :
  Forall (fun c => is_digit c = true) l ->
  Forall (fun c => is_space c = false /\ lower_char c = c) l.
Proof.
  intro H. eapply Forall_impl; [|exact H].
  intros c Hc. destruct (digit_char c Hc) as (H1 & H2 & _). now split.
Qed.

(** The text of an integer is read back by [float] as a number that is
    zero exactly when the integer is. *)
Lemma float_str_int (z : Z) :
  lower (strip (str_int z)) = str_int z /\
  exists f, float (str_int z) = Some f /\ float_ne0 f = negb (z =? 0).
Proof.
  destruct z as [|p|p].
  - split; [reflexivity|]. eexists. split; [vm_compute; reflexivity | reflexivity].
  - cbn [str_int].
    destruct (uint_chars_digits (Pos.to_uint p)) as [Hd Ht].
    pose proof (string_of_uint_not_empty _ (to_uint_not_nil p)) as Hne.
    set (s := NilEmpty.string_of_uint (Pos.to_uint p)) in *.
    assert (Hs : lower (strip s) = s).
    { pose proof (plain_text (chars s) Hne (digits_plain _ Hd)) as H.
      now rewrite text_chars in H. }
    split; [exact Hs|]. unfold float. rewrite Hs.
    rewrite (floatvalue_digits false _ _ Hne Hd Ht).
    eexists. split; [reflexivity|].
    rewrite round_double_int. unfold s. now rewrite to_uint_digits.
  - cbn [str_int].
    destruct (uint_chars_digits (Pos.to_uint p)) as [Hd Ht].
    pose proof (string_of_uint_not_empty _ (to_uint_not_nil p)) as Hne.
    set (s := NilEmpty.string_of_uint (Pos.to_uint p)) in *.
    assert (Hs : lower (strip (String "-" s)) = String "-" s).
    { assert (Hplain : Forall (fun c => is_space c = false /\ lower_char c = c)
                         ("-"%char :: chars s)).
      { constructor; [now split | now apply digits_plain]. }
      pose proof (plain_text ("-"%char :: chars s) ltac:(discriminate) Hplain) as H.
      cbn [text string_of_list_ascii] in H. fold (text (chars s)) in H.
      now rewrite text_chars in H. }
    split; [exact Hs|]. unfold float. rewrite Hs.
    change (chars (String "-" s)) with ("-"%char :: chars s).
    rewrite (floatvalue_digits true _ _ Hne Hd Ht).
    eexists. split; [reflexivity|].
    rewrite round_double_int. unfold s. rewrite to_uint_digits. reflexivity.
Qed.

End IntText.

(** On the text of an integer [_map] is the test against zero. *)
Lemma map_str_int (z : Z) : _map (Present (str_int z)) = if z =? 0 then 0 else 1.
Proof.
  destruct (IntText.float_str_int z) as (Hs & f & Hf & Hne).
  unfold _map. rewrite Hs, Hf, Hne.
  destruct (mem (str_int z) truthy) eqn:Et.
  - apply mem_in in Et. simpl in Et.
    destruct (z =? 0); [|reflexivity]. exfalso.
    repeat (destruct Et as [Et|Et];
            [rewrite <- Et in Hf; vm_compute in Hf;
             try discriminate Hf; injection Hf as <-; discriminate Hne|]).
    destruct Et.
  - destruct (mem (str_int z) falsey) eqn:Ef; [|now destruct (z =? 0)].
    apply mem_in in Ef. simpl in Ef.
    destruct (z =? 0); [reflexivity|]. exfalso.
    repeat (destruct Ef as [Ef|Ef];
            [rewrite <- Ef in Hf; vm_compute in Hf;
             try discriminate Hf; injection Hf as <-; discriminate Hne|]).
    destruct Ef.
Qed.

Example map_examples :
  map _map [Present "TRUE"; Present " Yes "; Present "FALSE"; Present " No ";
            Present "2"; Present "0.0"; Present "-1_0.5e3"; Present "abc";
            Present ""; Present "1e-400"; Present "nan"; Present "1_"; Absent]%string
  = [1; 1; 0; 0; 1; 0; 1; 0; 0; 0; 1; 0; 0].
Proof. vm_compute. reflexivity. Qed.

Example float_examples :
  map Text.float ["1e3"; " +.5 "; "-INF"; "1e400"; "1e-400"; "1__0"; "e5"; "0x10"]%string
  = [Some (Fin (1000 * 1)); Some (Fin (5 * (1 # 10))); Some (Inf true);
     Some (Inf false); Some (Fin 0); None; None; None].
Proof. vm_compute. reflexivity. Qed.












(** C10.  Boolean coercion strips the white space around a text and
    ignores the case of its letters: a text that spells a truthy token in
    any case, with any padding, is mapped to 1, and one that spells a
    falsey token to 0. *)
Theorem to_bool_int_ignores_case_and_padding (l r : list ascii) (s : string) :
  Forall (fun c => Text.is_space c = true) l ->
  Forall (fun c => Text.is_space c = true) r ->
  (In (Text.lower s) truthy ->
   _map (Present (Text.text (l ++ Text.chars s ++ r))) = 1) /\
  (In (Text.lower s) falsey ->
   _map (Present (Text.text (l ++ Text.chars s ++ r))) = 0).
Proof.
  intros Hl Hr. split; intro Hin.
  - unfold _map.
    rewrite TextFacts.strip_padded_token by (auto; apply in_or_app; auto).
    apply mem_in in Hin. now rewrite Hin.
  - unfold _map.
    rewrite TextFacts.strip_padded_token by (auto; apply in_or_app; auto).
    assert (Ht : mem (Text.lower s) truthy = false).
    { simpl in Hin.
      repeat (destruct Hin as [Hin|Hin]; [rewrite <- Hin; reflexivity|]).
      destruct Hin. }
    rewrite Ht. apply mem_in in Hin. now rewrite Hin.
Qed.

Lemma to_bool_int_ignores_case_and_padding_witness :
  _map (Present " Yes ") = 1 /\ _map (Present "TRUE") = 1 /\
  _map (Present " No ") = 0 /\ _map (Present "FALSE") = 0.
Proof.
  assert (Hsp : Forall (fun c => Text.is_space c = true) [" "%char])
    by (repeat constructor).
  assert (Hnil : Forall (fun c => Text.is_space c = true) []) by constructor.
  split; [|split; [|split]].
  - apply (proj1 (to_bool_int_ignores_case_and_padding [" "%char] [" "%char] "Yes" Hsp Hsp)).
    simpl. auto.
  - apply (proj1 (to_bool_int_ignores_case_and_padding [] [] "TRUE" Hnil Hnil)).
    simpl. auto.
  - apply (proj2 (to_bool_int_ignores_case_and_padding [" "%char] [" "%char] "No" Hsp Hsp)).
    simpl. auto.
  - apply (proj2 (to_bool_int_ignores_case_and_padding [] [] "FALSE" Hnil Hnil)).
    simpl. auto.
Defined.

(** ** Division by zero *)

Lemma safe_div_zero (n d : pyval) (q : Q) :
  to_float d = Returns (Fin q) -> q == 0 -> safe_div n d = Fin 0.
Proof.
  intros Hd Hq. unfold safe_div.
  destruct (truth d); [|reflexivity].
  destruct (to_float n) as [a|]; simpl; [|reflexivity].
  rewrite Hd. simpl.
  apply Qeq_bool_iff in Hq. now rewrite Hq.
Qed.

Lemma rate_zero (num : Q) : rate num 0 = 0%Q.
Proof. reflexivity. Qed.

Lemma daily_rows (df : frame) (rows : list Daily.row) :
  daily df = Returns rows ->
  forall r, In r rows -> exists g, r = daily_agg g.
Proof.
  unfold daily, agg_floats, bind. intros H r Hr.
  repeat match type of H with
         | match ?m with Returns _ => _ | Raises => _ end = _ =>
             destruct m; [|discriminate H]
         end.
  injection H as <-.
  apply in_map_iff in Hr. destruct Hr as (g & <- & _). now exists g.
Qed.

(** The single-record scenario: both overall rates are 1, the order value
    is 50.00, and the daily series is one row of one delivery, one
    chargeback and one fraud, dated 2024-01-01 (day 19723), a Monday. *)
Example single_record_scenario :
  exists df cb fr g day,
    preprocess no_number no_time single_record = Returns df /\
    overall_cb_rate df = Returns (Fin cb) /\ (cb == 1)%Q /\
    overall_fraud_rate df = Returns (Fin fr) /\ (fr == 1)%Q /\
    get df "GOV_DOLLARS" = Some (NumCol [Some g]) /\ (g == 50)%Q /\
    get df "DOW_LABEL" = Some (ObjCol [Present "Mon"]) /\
    daily df = Returns [day] /\
    Daily.DATE day = Time 19723 /\ Daily.deliveries day = 1 /\
    (Daily.chargebacks day == 1)%Q /\ (Daily.fraudulent day == 1)%Q.
Proof.
  do 5 eexists.
  repeat (split; [vm_compute; reflexivity|]). vm_compute; reflexivity.
Qed.

(** C4.  A rate with a zero denominator is exactly 0.0: [safe_div] returns
    0.0 whenever its denominator converts to a float zero, whatever the
    numerator (no error escapes it), and on every row of the daily series
    whose delivery count is zero both rates are 0. *)
Theorem zero_denominator_rate_is_zero :
  (forall n d q, to_float d = Returns (Fin q) -> q == 0 -> safe_div n d = Fin 0) /\
  (forall df rows r,
      daily df = Returns rows -> In r rows -> Daily.deliveries r = 0 ->
      Daily.chargeback_rate r = 0%Q /\ Daily.fraud_rate r = 0%Q).
Proof.
  split; [exact safe_div_zero|].
  intros df rows r H Hr Hz.
  destruct (daily_rows df rows H r Hr) as (g & ->).
  simpl in *. rewrite Hz. split; apply rate_zero.
Qed.


Lemma zero_denominator_rate_is_zero_witness :
  to_float (PyInt 0) = Returns (Fin 0) /\
  safe_div (PyInt 3) (PyInt 0) = Fin 0 /\
  daily no_id_frame = Returns [no_id_row] /\
  Daily.chargeback_rate no_id_row = 0%Q /\ Daily.fraud_rate no_id_row = 0%Q.
Proof.
  assert (Hd : daily no_id_frame = Returns [no_id_row]) by (vm_compute; reflexivity).
  split; [reflexivity|].
  split; [exact (proj1 zero_denominator_rate_is_zero (PyInt 3) (PyInt 0) 0%Q
                   eq_refl (Qeq_refl 0))|].
  split; [exact Hd|].
  exact (proj2 zero_denominator_rate_is_zero no_id_frame [no_id_row] no_id_row
           Hd (or_introl eq_refl) eq_refl).
Defined.

(** ** Frames *)

Lemma get_setitem_same (df : frame) (n : string) (c : column) :
  get (setitem df n c) n = Some c.
Proof.
  induction df as [|[n' c'] df IH]; simpl.
  - now rewrite String.eqb_refl.
  - destruct (String.eqb n' n) eqn:E; simpl; rewrite E; [reflexivity | exact IH].
Qed.

Lemma get_setitem_other (df : frame) (n n' : string) (c : column) :
  n <> n' -> get (setitem df n c) n' = get df n'.
Proof.
  intro Hn. induction df as [|[m c'] df IH]; simpl.
  - destruct (String.eqb n n') eqn:E; [|reflexivity].
    apply String.eqb_eq in E. contradiction.
  - destruct (String.eqb m n) eqn:E; simpl.
    + apply String.eqb_eq in E. subst m.
      destruct (String.eqb n n') eqn:E'; [|reflexivity].
      apply String.eqb_eq in E'. contradiction.
    + now rewrite IH.
Qed.

Section PreprocessFacts.

Variable read_number : string -> option Q.
Variable read_time : string -> option Z.

Lemma label_binary (df : frame) (n : string) :
  exists v, label df n = IntCol v /\ Forall (fun z => z = 0 \/ z = 1) v.
Proof.
  unfold label. destruct (get df n) as [c|].
  - exists (to_bool_int c). split; [reflexivity | apply to_bool_int_binary].
  - exists (repeat 0 (len df)). split; [reflexivity|].
    apply Forall_forall. intros z Hz. apply repeat_spec in Hz. now left.
Qed.

Lemma money_get_other (df df' : frame) (n : string) :
  money read_number df = Returns df' ->
  n <> "GOV"%string -> n <> "GOV_DOLLARS"%string -> get df' n = get df n.
Proof.
  unfold money. intros H H1 H2.
  destruct (get df "GOV") as [c|].
  - destruct (cents_to_dollars _) as [d|]; [|discriminate].
    injection H as <-.
    rewrite get_setitem_other by congruence.
    now rewrite get_setitem_other by congruence.
  - injection H as <-. now rewrite get_setitem_other by congruence.
Qed.

(** After preprocessing the fraud flag is an integer column of zeros and
    ones. *)
Lemma labels_fraud_flag (df df' : frame) :
  labels df = Returns df' ->
  exists v, get df' "FRAUD_FLAG" = Some (IntCol v) /\
            Forall (fun z => z = 0 \/ z = 1) v.
Proof.
  unfold labels. cbv zeta. unfold getitem. rewrite get_setitem_same. cbn [bind].
  intro H. injection H as <-. rewrite get_setitem_same.
  destruct (label_binary
              (setitem df "RECEIVED_CHARGEBACK" (label df "RECEIVED_CHARGEBACK"))
              "IS_FRAUDULENT_CHARGEBACK") as (v & -> & Hv).
  now exists v.
Qed.

(** After preprocessing the fraud flag is an integer column of zeros and
    ones. *)
Lemma preprocess_fraud_flag (raw df : frame) :
  preprocess read_number read_time raw = Returns df ->
  exists v, get df "FRAUD_FLAG" = Some (IntCol v) /\
            Forall (fun z => z = 0 \/ z = 1) v.
Proof.
  unfold preprocess, bind.
  destruct (calendar read_time raw) as [df1|]; [|discriminate].
  destruct (labels (numeric read_number df1)) as [df2|] eqn:E; [|discriminate].
  intro H.
  rewrite (money_get_other _ _ "FRAUD_FLAG" H) by discriminate.
  exact (labels_fraud_flag _ _ E).
Qed.

End PreprocessFacts.

(** ** Rates *)

Local Open Scope Q_scope.

Lemma total_unit (l : list Q) :
  Forall (fun q => 0 <= q <= 1) l ->
  0 <= total l <= inject_Z (Z.of_nat (length l)).
Proof.
  induction 1 as [|x l Hx _ IH].
  - simpl. split; apply Qle_refl.
  - cbn [total fold_right length]. fold (total l).
    rewrite Nat2Z.inj_succ. unfold Z.succ. rewrite inject_Z_plus.
    change (inject_Z 1) with 1. lra.
Qed.

Lemma dropna_unit (vs : list (option Q)) :
  Forall unit_rate vs ->
  length (dropna vs) = length vs /\ Forall (fun q => 0 <= q <= 1) (dropna vs).
Proof.
  induction 1 as [|v vs (q & -> & Hq) _ [IHl IHf]]; simpl.
  - now split.
  - split; [now rewrite IHl | now constructor].
Qed.

Lemma average_unit (l : list Q) :
  l <> [] -> Forall (fun q => 0 <= q <= 1) l -> unit_rate (average l).
Proof.
  intros Hne H. pose proof (total_unit l H) as [Hlo Hhi].
  destruct l as [|x l]; [congruence|].
  unfold average. eexists. split; [reflexivity|].
  set (n := inject_Z (Z.of_nat (length (x :: l)))) in *.
  assert (Hn : 0 < n).
  { unfold n. change 0 with (inject_Z 0). rewrite <- Zlt_Qlt. simpl. lia. }
  split.
  - apply Qle_shift_div_l; [exact Hn | lra].
  - apply Qle_shift_div_r; [exact Hn | lra].
Qed.

Lemma nanmean_unit (vs : list (option Q)) :
  vs <> [] -> Forall unit_rate vs -> unit_rate (nanmean vs).
Proof.
  intros Hne H. destruct (dropna_unit vs H) as [Hl Hf].
  apply average_unit; [|exact Hf].
  intro E. rewrite E in Hl. destruct vs; [congruence | discriminate].
Qed.

Lemma binary_flags_unit (v : list Z) :
  Forall (fun z => z = 0 \/ z = 1)%Z v ->
  Forall unit_rate (map (fun z => Some (inject_Z z)) v).
Proof.
  intro H. apply Forall_map. eapply Forall_impl; [|exact H].
  intros z [-> | ->]; eexists; (split; [reflexivity|]);
    split; unfold Qle; simpl; lia.
Qed.

(** Every row of a grouped rate table has a key that occurs among the keys
    of the rows and a rate between 0 and 1, when the flags are such. *)
Lemma rate_by_spec {K : Type} (eqb leb : K -> K -> bool)
  (keys : list K) (flag : list (option Q)) :
  Forall unit_rate flag ->
  forall k r, In (k, r) (rate_by eqb leb keys flag) ->
              In k keys /\ unit_rate r.
Proof.
  intros Hflag k r Hin. unfold rate_by in Hin.
  apply in_map_iff in Hin. destruct Hin as (g & E & Hg). injection E as <- <-.
  assert (Hrows : Forall (fun row => In (fst row) keys /\ unit_rate (snd row))
                    (combine keys flag)).
  { apply Forall_forall. intros [a b] Hab. simpl. split.
    - eapply in_combine_l, Hab.
    - rewrite Forall_forall in Hflag. eapply Hflag, in_combine_r, Hab. }
  pose proof (groupby_good eqb (fun a => In a keys) unit_rate leb _ Hrows) as Hgood.
  rewrite Forall_forall in Hgood. destruct (Hgood g Hg) as (Hne & Hk & Hv).
  split; [exact Hk | now apply nanmean_unit].
Qed.

Local Close Scope Q_scope.

(** ** Segment tables *)

Lemma qcut_drop_returns (quantile : list Q -> Q -> Q) (x : list Q) (q : nat) :
  exists bins, qcut_bins quantile x q drop = Returns bins /\
               qcut quantile x q drop = Returns (match x with
                                        | [] => []
                                        | _ => map (bucket bins) x
                                        end).
Proof.
  unfold qcut, qcut_bins.
  destruct (_ && _).
  - eexists. split; [reflexivity|]. now destruct x.
  - eexists. split; [reflexivity|]. now destruct x.
Qed.

Lemma fraud_by_spec (df : frame) (key : string) (v : list Z) :
  get df "FRAUD_FLAG" = Some (IntCol v) ->
  Forall (fun z => z = 0 \/ z = 1) v ->
  exists t, fraud_by df key = Returns t /\
            rates_of_observed t (key_cells df key).
Proof.
  intros Hget Hv. unfold fraud_by, key_cells, agg_floats, getitem.
  destruct (get df key) as [c|].
  - rewrite Hget. cbn [bind floats]. eexists. split; [reflexivity|].
    intros k r Hin.
    apply rate_by_spec in Hin; [tauto | now apply binary_flags_unit].
  - exists []. split; [reflexivity|]. intros k r [].
Qed.

Lemma sort_values_key_observed (t : segment cell) (keys : list cell) :
  rates_of_observed t keys -> rates_of_observed (sort_values_key t) keys.
Proof.
  intros H k r Hin. apply sort_in in Hin. now apply H.
Qed.

Section SegmentFacts.

Variable read_number : string -> option Q.
Variable read_time : string -> option Z.
Variable quantile : list Q -> Q -> Q.

Lemma money_gov_dollars (df df' : frame) :
  money read_number df = Returns df' ->
  exists g, get df' "GOV_DOLLARS" = Some (NumCol g).
Proof.
  unfold money, cents_to_dollars, bind.
  destruct (get df "GOV") as [c|].
  - destruct (floats _) as [v|]; [|discriminate].
    intro H. injection H as <-. rewrite get_setitem_same. now eexists.
  - intro H. injection H as <-. rewrite get_setitem_same. now eexists.
Qed.

Lemma preprocess_gov_dollars (raw df : frame) :
  preprocess read_number read_time raw = Returns df ->
  exists g, get df "GOV_DOLLARS" = Some (NumCol g).
Proof.
  unfold preprocess, bind.
  destruct (calendar read_time raw) as [df1|]; [|discriminate].
  destruct (labels (numeric read_number df1)) as [df2|]; [|discriminate].
  apply money_gov_dollars.
Qed.

(** C9.  In the four grouped fraud-rate tables of a preprocessed table (by
    platform, by lifetime unique-address count, by 1-day failed-charge
    count and by order-value decile bucket) every rate is a number between
    0 and 1, and the key of every row is the key of some row of the input:
    a group without rows does not appear. *)
Theorem grouped_rates_in_unit_interval (raw df : frame) :
  preprocess read_number read_time raw = Returns df ->
  (exists t, fraud_by_platform df = Returns t /\
             rates_of_observed t (key_cells df "PLATFORM")) /\
  (exists t, fraud_by_addr df = Returns t /\
             rates_of_observed t (key_cells df "CX_UNIQUE_ADDRESSES")) /\
  (exists t, fraud_by_failed df = Returns t /\
             rates_of_observed t (key_cells df "FAIL_CHARGES_1D")) /\
  (exists t bins, GOV_BIN quantile df = Returns bins /\
                  fraud_by_gov_bin quantile df = Returns t /\
                  rates_of_observed t bins).
Proof.
  intro H.
  destruct (preprocess_fraud_flag _ _ _ _ H) as (v & Hflag & Hv).
  destruct (preprocess_gov_dollars _ _ H) as (g & Hgov).
  split; [exact (fraud_by_spec df _ v Hflag Hv)|].
  split.
  { unfold fraud_by_addr.
    destruct (fraud_by_spec df "CX_UNIQUE_ADDRESSES" v Hflag Hv) as (t & -> & Ht).
    eexists. split; [reflexivity | now apply sort_values_key_observed]. }
  split.
  { unfold fraud_by_failed.
    destruct (fraud_by_spec df "FAIL_CHARGES_1D" v Hflag Hv) as (t & -> & Ht).
    eexists. split; [reflexivity | now apply sort_values_key_observed]. }
  unfold fraud_by_gov_bin, GOV_BIN, has, agg_floats, getitem.
  rewrite Hgov, Hflag. cbn [bind floats].
  destruct (qcut_drop_returns quantile (map (fill 0) g) 10) as (b & _ & ->).
  cbn [bind]. eexists. eexists. split; [reflexivity|]. split; [reflexivity|].
  intros k r Hin.
  apply rate_by_spec in Hin; [tauto | now apply binary_flags_unit].
Qed.

End SegmentFacts.

Lemma grouped_rates_in_unit_interval_witness :
  preprocess no_number no_time missing_gov = Returns missing_gov_df /\
  (exists t, fraud_by_platform missing_gov_df = Returns t /\
             rates_of_observed t (key_cells missing_gov_df "PLATFORM")) /\
  (exists t bins, GOV_BIN linear_quantile missing_gov_df = Returns bins /\
                  fraud_by_gov_bin linear_quantile missing_gov_df = Returns t /\
                  rates_of_observed t bins).
Proof.
  assert (H : preprocess no_number no_time missing_gov = Returns missing_gov_df)
    by (vm_compute; reflexivity).
  split; [exact H|].
  pose proof (grouped_rates_in_unit_interval no_number no_time linear_quantile
                missing_gov missing_gov_df H) as (H1 & _ & _ & H4).
  split; [exact H1 | exact H4].
Defined.

(** ** Group keys *)

Section GroupKeys.

Context {K V : Type}.
Variable eqb : K -> K -> bool.
Hypothesis eqb_eq : forall a b, eqb a b = true <-> a = b.

Lemma add_row_keys (k : K) (v : V) (gs : list (K * list V)) :
  map fst (add_row eqb k v gs) =
  if existsb (fun g => eqb (fst g) k) gs then map fst gs else map fst gs ++ [k].
Proof.
  induction gs as [|[k' vs] gs IH]; simpl; [reflexivity|].
  destruct (eqb k' k); simpl; [reflexivity|].
  rewrite IH. now destruct (existsb _ gs).
Qed.

Lemma add_row_nodup (k : K) (v : V) (gs : list (K * list V)) :
  NoDup (map fst gs) -> NoDup (map fst (add_row eqb k v gs)).
Proof.
  intro H. rewrite add_row_keys.
  destruct (existsb _ gs) eqn:E; [exact H|].
  apply NoDup_app; [exact H | repeat constructor; intros [] | ].
  intros x Hx [Ek|[]]. subst x.
  apply in_map_iff in Hx. destruct Hx as (g & Hg & Hin).
  assert (existsb (fun g => eqb (fst g) k) gs = true); [|congruence].
  apply existsb_exists. exists g. split; [exact Hin|]. now apply eqb_eq.
Qed.

Lemma groups_nodup (rows : list (K * V)) : NoDup (map fst (groups eqb rows)).
Proof.
  unfold groups.
  assert (H : forall gs : list (K * list V), NoDup (map fst gs) ->
            NoDup (map fst (fold_left
              (fun gs r => add_row eqb (fst r) (snd r) gs) rows gs))).
  { induction rows as [|r rows IH]; simpl; intros gs Hgs; [exact Hgs|].
    apply IH. now apply add_row_nodup. }
  apply H. constructor.
Qed.

Lemma add_row_not_nil (k : K) (v : V) (gs : list (K * list V)) :
  add_row eqb k v gs <> [].
Proof. destruct gs as [|[k' vs] gs]; simpl; [|destruct (eqb k' k)]; discriminate. Qed.

Lemma groups_not_nil (rows : list (K * V)) : rows <> [] -> groups eqb rows <> [].
Proof.
  unfold groups. intro Hne.
  assert (H : forall (rest : list (K * V)) (gs : list (K * list V)),
            gs <> [] -> fold_left
            (fun gs r => add_row eqb (fst r) (snd r) gs) rest gs <> []).
  { induction rest as [|r rest IH]; simpl; intros gs Hgs; [exact Hgs|].
    apply IH. apply add_row_not_nil. }
  destruct rows as [|r rows]; [congruence|]. simpl.
  apply H. discriminate.
Qed.

Lemma groupby_keys (leb : K -> K -> bool) (rows : list (K * V)) :
  NoDup (map fst (groupby eqb leb rows)) /\
  (rows <> [] -> groupby eqb leb rows <> []).
Proof.
  unfold groupby. split.
  - eapply Permutation_NoDup; [|apply groups_nodup].
    apply Permutation_map, sort_perm.
  - intros Hne E. apply (groups_not_nil rows Hne).
    apply Permutation_nil. rewrite <- E. symmetry. apply sort_perm.
Qed.

End GroupKeys.

Lemma bin_eqb_eq (a b : option nat) : bin_eqb a b = true <-> a = b.
Proof.
  destruct a as [i|], b as [j|]; simpl; try (split; congruence).
  rewrite Nat.eqb_eq. split; congruence.
Qed.

(** A grouped rate table has one row per key: the keys are pairwise
    different, each is the key of a row, and there is a row when there is
    an input row. *)
Lemma rate_by_keys {K : Type} (eqb leb : K -> K -> bool)
  (keys : list K) (flag : list (option Q)) :
  (forall a b, eqb a b = true <-> a = b) ->
  NoDup (map fst (rate_by eqb leb keys flag)) /\
  incl (map fst (rate_by eqb leb keys flag)) keys /\
  (combine keys flag <> [] -> rate_by eqb leb keys flag <> []).
Proof.
  intro Heq. unfold rate_by. rewrite map_map. cbn [fst].
  destruct (groupby_keys eqb Heq leb (combine keys flag)) as [Hnd Hne].
  split; [exact Hnd|]. split.
  - intros k Hk. apply in_map_iff in Hk. destruct Hk as (g & <- & Hg).
    assert (Hrows : Forall (fun row => In (fst row) keys /\ True) (combine keys flag)).
    { apply Forall_forall. intros [a b] Hab. split; [|exact I].
      eapply in_combine_l, Hab. }
    pose proof (groupby_good eqb (fun a => In a keys) (fun _ => True) leb _ Hrows) as Hgood.
    rewrite Forall_forall in Hgood. now destruct (Hgood g Hg) as (_ & Hk & _).
  - intros H E. apply (Hne H). now apply map_eq_nil in E.
Qed.

(** ** Decile buckets *)

Local Open Scope Q_scope.

Lemma Qle_bool_eq_l (x y b : Q) : x == y -> Qle_bool x b = Qle_bool y b.
Proof.
  intro E. destruct (Qle_bool y b) eqn:H.
  - apply Qle_bool_iff. apply Qle_bool_iff in H. now rewrite E.
  - destruct (Qle_bool x b) eqn:H'; [|reflexivity].
    apply Qle_bool_iff in H'. rewrite E in H'. apply Qle_bool_iff in H'. congruence.
Qed.

Lemma Qeq_bool_eq_l (x y b : Q) : x == y -> Qeq_bool x b = Qeq_bool y b.
Proof.
  intro E. destruct (Qeq_bool y b) eqn:H.
  - apply Qeq_bool_iff. apply Qeq_bool_iff in H. now rewrite E.
  - destruct (Qeq_bool x b) eqn:H'; [|reflexivity].
    apply Qeq_bool_iff in H'. rewrite E in H'. apply Qeq_bool_iff in H'. congruence.
Qed.

Lemma Qle_bool_total (a b : Q) : Qle_bool a b = true \/ Qle_bool b a = true.
Proof.
  destruct (Qlt_le_dec b a) as [H|H].
  - right. apply Qle_bool_iff. now apply Qlt_le_weak.
  - left. now apply Qle_bool_iff.
Qed.

Lemma Qle_bool_trans (a b c : Q) :
  Qle_bool a b = true -> Qle_bool b c = true -> Qle_bool a c = true.
Proof. rewrite !Qle_bool_iff. apply Qle_trans. Qed.

(** Equal values fall into the same bucket. *)
Lemma bucket_eq (bins : list Q) (x y : Q) : x == y -> bucket bins x = bucket bins y.
Proof.
  intro E. unfold bucket, searchsorted.
  rewrite (filter_ext (fun b => Qlt_bool b x) (fun b => Qlt_bool b y)).
  - destruct bins as [|b0 bins]; [reflexivity|].
    now rewrite (Qeq_bool_eq_l x y b0 E).
  - intro b. unfold Qlt_bool. now rewrite (Qle_bool_eq_l x y b E).
Qed.

Lemma linspace_unit (q : nat) : (0 < q)%nat ->
  Forall (fun p => 0 <= p <= 1) (linspace q).
Proof.
  intro Hq. unfold linspace. apply Forall_forall. intros p Hp.
  apply in_map_iff in Hp. destruct Hp as (k & <- & Hk). apply in_seq in Hk.
  assert (Hq' : 0 < inject_Z (Z.of_nat q)).
  { change 0 with (inject_Z 0). rewrite <- Zlt_Qlt. lia. }
  split.
  - apply Qle_shift_div_l; [exact Hq'|]. rewrite Qmult_0_l.
    change 0 with (inject_Z 0). rewrite <- Zle_Qle. lia.
  - apply Qle_shift_div_r; [exact Hq'|]. rewrite Qmult_1_l.
    rewrite <- Zle_Qle. lia.
Qed.

(** The interpolation in exact arithmetic has the two properties of the
    quantiles. *)
Lemma linear_quantile_constant : constant_quantiles linear_quantile.
Proof.
  intros s c p Hne Hs [Hp0 Hp1]. unfold linear_quantile.
  assert (Hn : (0 < length s)%nat) by (destruct s; [congruence | simpl; lia]).
  set (n := length s) in *.
  set (pos := p * inject_Z (Z.of_nat (n - 1))).
  assert (Hn1 : 0 <= inject_Z (Z.of_nat (n - 1))).
  { change 0 with (inject_Z 0). rewrite <- Zle_Qle. lia. }
  assert (Hpos : pos <= inject_Z (Z.of_nat (n - 1))).
  { unfold pos. rewrite <- (Qmult_1_l (inject_Z (Z.of_nat (n - 1)))) at 2.
    now apply Qmult_le_compat_r. }
  assert (Hlo : (Z.to_nat (Qfloor pos) < n)%nat).
  { apply Qfloor_resp_le in Hpos. rewrite Qfloor_Z in Hpos. lia. }
  assert (Hnth : forall i, (i < n)%nat -> nth i s 0 == c).
  { intros i Hi. rewrite Forall_forall in Hs. apply Hs. now apply nth_In. }
  rewrite (Hnth _ Hlo).
  rewrite (Hnth (Nat.min (Z.to_nat (Qfloor pos) + 1) (n - 1))).
  - ring.
  - apply Nat.le_lt_trans with (n - 1)%nat; [apply Nat.le_min_r | lia].
Qed.

Lemma linear_quantile_ends : end_quantiles linear_quantile.
Proof.
  intros s p. unfold linear_quantile. set (n := length s). split; intro Hp.
  - assert (Hpos : p * inject_Z (Z.of_nat (n - 1)) == 0) by (rewrite Hp; ring).
    rewrite (Qfloor_comp _ _ Hpos). change (Qfloor 0) with 0%Z.
    change (Z.to_nat 0) with 0%nat. rewrite Hpos. cbn [inject_Z]. ring.
  - assert (Hpos : p * inject_Z (Z.of_nat (n - 1)) == inject_Z (Z.of_nat (n - 1)))
      by (rewrite Hp; ring).
    rewrite (Qfloor_comp _ _ Hpos), Qfloor_Z, Nat2Z.id.
    replace (Nat.min (n - 1 + 1) (n - 1)) with (n - 1)%nat by lia.
    rewrite Hpos. ring.
Qed.

Lemma sort_forall {A : Type} (leb : A -> A -> bool) (P : A -> Prop) (l : list A) :
  Forall P l -> Forall P (sort leb l).
Proof.
  rewrite !Forall_forall. intros H x Hx. apply H. now apply sort_in in Hx.
Qed.

Lemma sorted_nth (l : list Q) :
  StronglySorted (fun a b => Qle_bool a b = true) l ->
  forall i j, (i <= j)%nat -> (j < length l)%nat -> nth i l 0 <= nth j l 0.
Proof.
  induction 1 as [|x l Hs IH Hall]; intros i j Hij Hj; [simpl in Hj; lia|].
  destruct i as [|i], j as [|j]; simpl in *; try lia.
  - apply Qle_refl.
  - rewrite Forall_forall in Hall. apply Qle_bool_iff, Hall, nth_In. lia.
  - apply IH; lia.
Qed.

Lemma sort_Qle_sorted (x : list Q) :
  StronglySorted (fun a b => Qle_bool a b = true) (sort Qle_bool x).
Proof.
  apply Sorted_StronglySorted.
  - intros a b c. apply Qle_bool_trans.
  - apply sort_sorted. apply Qle_bool_total.
Qed.

(** The values lie between the first and the last of the sorted values. *)
Lemma sort_bounds (x : list Q) (v : Q) :
  In v x ->
  nth 0 (sort Qle_bool x) 0 <= v
  <= nth (length (sort Qle_bool x) - 1) (sort Qle_bool x) 0.
Proof.
  intros Hv. assert (Hs : In v (sort Qle_bool x)) by (now apply sort_in).
  destruct (In_nth _ _ 0 Hs) as (i & Hi & <-).
  split; apply sorted_nth; try apply sort_Qle_sorted; lia.
Qed.

Lemma filter_length_lt {A : Type} (p : A -> bool) (l : list A) (a : A) :
  In a l -> p a = false -> (length (filter p l) < length l)%nat.
Proof.
  induction l as [|x l IH]; simpl; [tauto|].
  intros [->|H] Ha.
  - rewrite Ha. pose proof (filter_length_le p l). lia.
  - specialize (IH H Ha). destruct (p x); simpl; lia.
Qed.

Lemma unique_length {A : Type} (eqb : A -> A -> bool) (l : list A) :
  (length (unique eqb l) <= length l)%nat.
Proof.
  induction l as [|x l IH]; simpl; [lia|].
  pose proof (filter_length_le (fun y => negb (eqb x y)) (unique eqb l)). lia.
Qed.

(** Every value is equal to one of the values kept by [unique]. *)
Lemma unique_covers_Q (l : list Q) (k : Q) :
  In k l -> exists k', In k' (unique Qeq_bool l) /\ k' == k.
Proof.
  induction l as [|x l IH]; simpl; [tauto|].
  intros [->|H].
  - exists k. split; [now left | reflexivity].
  - destruct (IH H) as (k' & Hk' & E).
    destruct (Qeq_bool x k') eqn:Ex.
    + exists x. split; [now left|]. apply Qeq_bool_iff in Ex. now rewrite Ex.
    + exists k'. split; [|exact E]. right. apply filter_In.
      split; [exact Hk' | now rewrite Ex].
Qed.

(** A bucket is one of the intervals between the edges. *)
Lemma bucket_below (bins : list Q) (v : Q) (i : nat) :
  bucket bins v = Some i -> (i < length bins - 1)%nat.
Proof.
  destruct bins as [|b0 bins]; [discriminate|].
  unfold bucket, searchsorted.
  pose proof (filter_length_le (fun b => Qlt_bool b v) (b0 :: bins)) as Hle.
  set (n := length (filter (fun b => Qlt_bool b v) (b0 :: bins))) in *.
  destruct (Qeq_bool v b0).
  - destruct (Nat.eqb_spec 1 (length (b0 :: bins))); cbn [orb Nat.eqb];
      [discriminate|]. intro E. injection E as <-. simpl in *. lia.
  - destruct (Nat.eqb_spec n (length (b0 :: bins))); cbn [orb]; [discriminate|].
    destruct (Nat.eqb_spec n 0); [discriminate|].
    intro E. injection E as <-. lia.
Qed.

(** A value between the first edge and an edge above it has a bucket. *)
Lemma bucket_within (bins : list Q) (v lo hi : Q) :
  (exists rest, bins = nth 0 bins 0 :: rest /\ nth 0 bins 0 == lo) ->
  (exists b, In b bins /\ b == hi) ->
  lo <= v <= hi -> lo < hi ->
  bucket bins v <> None.
Proof.
  intros (rest & Eb & H0) (b & Hb & H1) [Hlo Hhi] Hlt.
  destruct bins as [|b0 bins']; [discriminate Eb|]. cbn [nth] in H0. clear Eb rest.
  assert (Hlen : (2 <= length (b0 :: bins'))%nat).
  { destruct Hb as [E|Hb'].
    - exfalso. rewrite <- E in H1. rewrite H0 in H1. rewrite H1 in Hlt.
      now apply Qlt_irrefl in Hlt.
    - destruct bins'; [destruct Hb' | simpl; lia]. }
  unfold bucket, searchsorted.
  destruct (Qeq_bool v b0) eqn:E.
  - destruct (Nat.eqb_spec 1 (length (b0 :: bins'))); [lia|]. discriminate.
  - assert (Hb0 : Qlt_bool b0 v = true).
    { unfold Qlt_bool. apply negb_true_iff.
      destruct (Qle_bool v b0) eqn:E'; [|reflexivity].
      apply Qle_bool_iff in E'.
      assert (Hv : v == b0) by (apply Qle_antisym; [exact E' | now rewrite H0]).
      apply Qeq_bool_iff in Hv. congruence. }
    assert (Hbv : Qlt_bool b v = false).
    { unfold Qlt_bool. apply negb_false_iff, Qle_bool_iff. now rewrite H1. }
    pose proof (filter_length_lt (fun b => Qlt_bool b v) (b0 :: bins') b Hb Hbv) as Hn.
    assert (Hpos : (0 < length (filter (fun b => Qlt_bool b v) (b0 :: bins')))%nat).
    { cbn [filter]. rewrite Hb0. simpl. lia. }
    set (n := length (filter (fun b => Qlt_bool b v) (b0 :: bins'))) in *.
    destruct (Nat.eqb_spec n (length (b0 :: bins'))); [lia|].
    destruct (Nat.eqb_spec n 0); [lia|]. discriminate.
Qed.

Section Buckets.

Variable quantile : list Q -> Q -> Q.

(** The deciles of a column of equal values collapse to one edge, and no
    row falls into an interval. *)
Lemma qcut_constant (x : list Q) (c : Q) :
  constant_quantiles quantile ->
  x <> [] -> Forall (fun v => v == c) x ->
  qcut quantile x 10 drop = Returns (map (fun _ => None) x).
Proof.
  intros Hq Hne Hx.
  assert (Hbins : Forall (fun b => b == c)
                    (map (quantile (sort Qle_bool x)) (linspace 10))).
  { apply Forall_map. eapply Forall_impl; [|apply (linspace_unit 10); lia].
    intros p Hp. apply Hq; [| now apply sort_forall | exact Hp].
    intro E. apply (f_equal (@length Q)) in E. rewrite sort_length in E.
    destruct x; [congruence | discriminate]. }
  unfold qcut, qcut_bins.
  destruct (map (quantile (sort Qle_bool x)) (linspace 10)) as [|b0 bins] eqn:Eb.
  { apply (f_equal (@length Q)) in Eb. rewrite length_map in Eb. discriminate. }
  assert (Hlen : length (b0 :: bins) = 11%nat).
  { rewrite <- Eb. now rewrite length_map. }
  inversion Hbins as [|? ? Hb0 Hrest]; subst.
  rewrite (unique_all_equal Qeq_bool b0 bins).
  2:{ eapply Forall_impl; [|exact Hrest]. intros y Hy. cbn beta in Hy.
      apply Qeq_bool_iff. now rewrite Hb0, Hy. }
  rewrite Hlen. cbn [length Nat.ltb Nat.leb Nat.eqb negb andb bind].
  destruct x as [|x0 x]; [congruence|]. f_equal.
  apply map_ext_in. intros v Hv.
  rewrite Forall_forall in Hx. specialize (Hx v Hv).
  unfold bucket, searchsorted.
  assert (E : Qeq_bool v b0 = true) by (apply Qeq_bool_iff; now rewrite Hx, Hb0).
  now rewrite E.
Qed.

(** The edges that [qcut] keeps start at the least value, hold the
    greatest and are at most eleven. *)
Lemma qcut_bins_ends (x : list Q) (bins : list Q) :
  end_quantiles quantile ->
  qcut_bins quantile x 10 drop = Returns bins ->
  (exists rest, bins = nth 0 bins 0 :: rest /\
                nth 0 bins 0 == nth 0 (sort Qle_bool x) 0) /\
  (exists b, In b bins /\
             b == nth (length (sort Qle_bool x) - 1) (sort Qle_bool x) 0) /\
  (length bins <= 11)%nat.
Proof.
  intros Hq Hb. unfold qcut_bins in Hb.
  set (s := sort Qle_bool x) in *.
  set (raw := map (quantile s) (linspace 10)) in *.
  assert (Hraw : exists q0 mid q10,
            raw = q0 :: mid /\ In q10 raw /\
            q0 == nth 0 s 0 /\ q10 == nth (length s - 1) s 0 /\
            length raw = 11%nat).
  { unfold raw, linspace. cbn [Nat.add seq map].
    eexists. eexists. eexists. split; [reflexivity|].
    split; [do 10 right; left; reflexivity|].
    split; [apply (proj1 (Hq s _)); reflexivity|].
    split; [apply (proj2 (Hq s _)); reflexivity | reflexivity]. }
  destruct Hraw as (q0 & mid & q10 & Eraw & Hin & H0 & H1 & Hlen).
  assert (Hu : exists rest, unique Qeq_bool raw = q0 :: rest).
  { rewrite Eraw. cbn [unique]. eauto. }
  destruct (unique_covers_Q raw q10 Hin) as (b & Hbin & Eb).
  assert (Hcase : bins = raw \/ bins = unique Qeq_bool raw).
  { destruct (_ && _) in Hb; injection Hb as <-; auto. }
  destruct Hcase as [-> | ->].
  - split; [|split].
    + exists mid. rewrite Eraw. cbn [nth]. split; [reflexivity | exact H0].
    + exists q10. split; [exact Hin | exact H1].
    + lia.
  - destruct Hu as (rest & Eu).
    split; [|split].
    + exists rest. rewrite Eu. cbn [nth]. split; [reflexivity | exact H0].
    + exists b. split; [exact Hbin | now rewrite Eb].
    + pose proof (unique_length Qeq_bool raw). lia.
Qed.

(** In a column of several values every row falls into an interval, one
    of at most ten. *)
Lemma qcut_covers (x : list Q) (buckets : list (option nat)) :
  end_quantiles quantile ->
  qcut quantile x 10 drop = Returns buckets ->
  length buckets = length x /\
  (forall i, In (Some i) buckets -> (i < 10)%nat) /\
  ((exists a b, In a x /\ In b x /\ ~ a == b) -> ~ In None buckets).
Proof.
  intros Hq Hb.
  destruct x as [|x0 x'] eqn:Ex.
  { injection Hb as <-. split; [reflexivity|]. split; [intros i []|].
    intros (a & b & [] & _). }
  rewrite <- Ex in *. assert (Hne : x <> []) by (rewrite Ex; discriminate).
  clear Ex x0 x'.
  destruct (qcut_drop_returns quantile x 10) as (edges & Hedges & Hcut).
  rewrite Hcut in Hb. destruct x as [|x0 x'] eqn:Ex; [congruence|].
  rewrite <- Ex in *. clear Ex x0 x' Hcut. injection Hb as <-.
  destruct (qcut_bins_ends x edges Hq Hedges) as (Hfirst & Hlast & Hlen).
  split; [apply length_map|]. split.
  - intros i Hi. apply in_map_iff in Hi. destruct Hi as (v & Hv & _).
    apply bucket_below in Hv. lia.
  - intros (a & b & Ha & Hb & Hab) Hnone.
    apply in_map_iff in Hnone. destruct Hnone as (v & Hv & Hin).
    revert Hv. apply (bucket_within edges v _ _ Hfirst Hlast).
    + now apply sort_bounds.
    + pose proof (sort_bounds x a Ha) as [La Ua].
      pose proof (sort_bounds x b Hb) as [Lb Ub].
      set (lo := nth 0 (sort Qle_bool x) 0) in *.
      set (hi := nth (length (sort Qle_bool x) - 1) (sort Qle_bool x) 0) in *.
      destruct (Qlt_le_dec lo hi) as [H|H]; [exact H|].
      exfalso. apply Hab. apply Qle_antisym; lra.
Qed.

End Buckets.

Local Close Scope Q_scope.

(** C8 (as the code has it).  Decile bucketing of the order value never
    fails.  When all the order values are equal the edges collapse to one
    edge and no interval is left: every record falls into the missing
    bucket, and the table is the single row of that bucket.  In general
    every record has its entry, an interval is one of at most ten, the
    table has at most as many rows as the column has different values
    (fewer than ten values give fewer than ten rows), and when the order
    values are not all equal every record falls into an interval. *)
Theorem decile_buckets_collapse (quantile : list Q -> Q -> Q) (df : frame)
  (gov : list (option Q)) (flag : list Z) :
  constant_quantiles quantile ->
  end_quantiles quantile ->
  get df "GOV_DOLLARS" = Some (NumCol gov) ->
  get df "FRAUD_FLAG" = Some (IntCol flag) ->
  length flag = length gov ->
  exists bins t,
    GOV_BIN quantile df = Returns bins /\
    fraud_by_gov_bin quantile df = Returns t /\
    length bins = length gov /\
    (forall i, In (Some i) bins -> (i < 10)%nat) /\
    (forall values,
        (forall x, In x gov -> exists v, In v values /\ (fill 0 x == v)%Q) ->
        (length t <= length values)%nat) /\
    ((exists a b, In a gov /\ In b gov /\ ~ (fill 0 a == fill 0 b)%Q) ->
     ~ In None bins /\ forall r, ~ In (None, r) t) /\
    (forall c,
        gov <> [] -> (forall x, In x gov -> (fill 0 x == c)%Q) ->
        bins = map (fun _ => None) gov /\ exists r, t = [(None, r)]).
Proof.
  intros Hconst Hends Hgov Hflag Hlen.
  unfold fraud_by_gov_bin, GOV_BIN, has, agg_floats, getitem.
  rewrite Hgov, Hflag. cbn [bind floats].
  destruct (qcut quantile (map (fill 0) gov) 10 drop) as [bins|] eqn:Hq.
  2:{ destruct (qcut_drop_returns quantile (map (fill 0) gov) 10) as (b & _ & E).
      congruence. }
  cbn [bind].
  set (fl := map (fun z => Some (inject_Z z)) flag).
  exists bins, (rate_by bin_eqb bin_leb bins fl).
  split; [reflexivity|]. split; [reflexivity|].
  destruct (rate_by_keys bin_eqb bin_leb bins fl bin_eqb_eq) as (Hnd & Hincl & Hne).
  destruct (qcut_covers quantile _ _ Hends Hq) as (Hlength & Hbelow & Hcover).
  rewrite length_map in Hlength.
  assert (Hbins : forall k, In k bins ->
                    exists edges x, In x gov /\ k = bucket edges (fill 0 x)).
  { intros k Hk.
    destruct (qcut_drop_returns quantile (map (fill 0) gov) 10) as (b & _ & E).
    rewrite E in Hq. injection Hq as Hq. rewrite <- Hq in Hk.
    destruct (map (fill 0) gov) eqn:Eg; [destruct Hk|]. rewrite <- Eg in Hk.
    rewrite map_map in Hk. apply in_map_iff in Hk.
    destruct Hk as (x & <- & Hx). now exists b, x. }
  assert (Hedges : exists edges, forall k, In k bins ->
                     exists x, In x gov /\ k = bucket edges (fill 0 x)).
  { destruct (qcut_drop_returns quantile (map (fill 0) gov) 10) as (b & _ & E).
    exists b. intros k Hk.
    rewrite E in Hq. injection Hq as Hq. rewrite <- Hq in Hk.
    destruct (map (fill 0) gov) eqn:Eg; [destruct Hk|]. rewrite <- Eg in Hk.
    rewrite map_map in Hk. apply in_map_iff in Hk.
    destruct Hk as (x & <- & Hx). now exists x. }
  clear Hbins. destruct Hedges as (edges & Hbins).
  assert (Hbound : forall values,
             (forall x, In x gov -> exists v, In v values /\ (fill 0 x == v)%Q) ->
             (length (rate_by bin_eqb bin_leb bins fl) <= length values)%nat).
  { intros values Hcov.
    rewrite <- (length_map fst), <- (length_map (bucket edges) values).
    apply NoDup_incl_length; [exact Hnd|].
    intros k Hk. apply Hincl in Hk.
    destruct (Hbins k Hk) as (x & Hx & ->).
    destruct (Hcov x Hx) as (v & Hv & E).
    rewrite (bucket_eq edges _ _ E). now apply in_map. }
  split; [exact Hlength|]. split; [exact Hbelow|]. split; [exact Hbound|].
  split.
  - intros (a & b & Ha & Hb & Hab).
    assert (Hnone : ~ In None bins).
    { apply Hcover. exists (fill 0 a), (fill 0 b).
      split; [now apply in_map|]. split; [now apply in_map | exact Hab]. }
    split; [exact Hnone|].
    intros r Hr. apply Hnone, Hincl. apply in_map_iff. now exists (None, r).
  - intros c Hgne Hc.
    assert (Hx : Forall (fun v => v == c)%Q (map (fill 0) gov)).
    { apply Forall_map, Forall_forall. exact Hc. }
    assert (Hxne : map (fill 0) gov <> []).
    { intro E. apply map_eq_nil in E. contradiction. }
    pose proof (qcut_constant quantile _ c Hconst Hxne Hx) as Hcol.
    rewrite Hq in Hcol. injection Hcol as Hcol. rewrite map_map in Hcol.
    split; [exact Hcol|].
    assert (H1 : (length (rate_by bin_eqb bin_leb bins fl) <= 1)%nat).
    { apply (Hbound [c]). intros x Hin. exists c. split; [now left | now apply Hc]. }
    assert (H2 : rate_by bin_eqb bin_leb bins fl <> []).
    { apply Hne. rewrite Hcol. unfold fl.
      destruct gov; [congruence|]. destruct flag; [discriminate|]. discriminate. }
    destruct (rate_by bin_eqb bin_leb bins fl) as [|[k r] [|? ?]] eqn:Et;
      [congruence | | simpl in H1; lia].
    exists r. f_equal. f_equal.
    assert (Hk : In k bins) by (apply Hincl; now left).
    rewrite Hcol in Hk. apply in_map_iff in Hk. now destruct Hk as (? & <- & _).
Qed.

Lemma decile_buckets_collapse_witness :
  constant_quantiles linear_quantile /\
  end_quantiles linear_quantile /\
  (exists bins t,
     GOV_BIN linear_quantile constant_gov = Returns bins /\
     fraud_by_gov_bin linear_quantile constant_gov = Returns t /\
     bins = [None; None; None] /\ exists r, t = [(None, r)]) /\
  (exists bins t,
     GOV_BIN linear_quantile missing_gov_df = Returns bins /\
     fraud_by_gov_bin linear_quantile missing_gov_df = Returns t /\
     ~ In None bins /\ forall r, ~ In (None, r) t).
Proof.
  pose proof linear_quantile_constant as Hc.
  pose proof linear_quantile_ends as He.
  split; [exact Hc|]. split; [exact He|]. split.
  - assert (Hg : get constant_gov "GOV_DOLLARS"
                 = Some (NumCol [Some 50%Q; Some 50%Q; Some 50%Q])) by reflexivity.
    assert (Hf : get constant_gov "FRAUD_FLAG" = Some (IntCol [1; 0; 0]))
      by reflexivity.
    destruct (decile_buckets_collapse linear_quantile constant_gov _ _ Hc He Hg Hf
                eq_refl) as (bins & t & Hb & Ht & _ & _ & _ & _ & Hconst).
    exists bins, t. split; [exact Hb|]. split; [exact Ht|].
    apply (Hconst 50%Q).
    + discriminate.
    + intros x [<-|[<-|[<-|[]]]]; reflexivity.
  - assert (Hg : get missing_gov_df "GOV_DOLLARS"
                 = Some (NumCol [Some (1000 / 100)%Q; Some (0 / 100)%Q]))
      by reflexivity.
    assert (Hf : get missing_gov_df "FRAUD_FLAG" = Some (IntCol [1; 0]))
      by reflexivity.
    destruct (decile_buckets_collapse linear_quantile missing_gov_df _ _ Hc He Hg Hf
                eq_refl) as (bins & t & Hb & Ht & _ & _ & _ & Hcover & _).
    exists bins, t. split; [exact Hb|]. split; [exact Ht|].
    apply Hcover. exists (Some (1000 / 100)%Q), (Some (0 / 100)%Q).
    split; [now left|]. split; [right; now left|].
    cbn [fill]. intro E. discriminate E.
Defined.

(** C8 as stated fails: the three deliveries of one same order value do
    not collapse into a single bucket, they are left without any; the
    only row of the table is that of the missing bucket. *)
Lemma constant_column_is_left_without_bucket :
  get constant_gov "GOV_DOLLARS" = Some (NumCol [Some 50%Q; Some 50%Q; Some 50%Q]) /\
  GOV_BIN linear_quantile constant_gov = Returns [None; None; None] /\
  (exists edge, qcut_bins linear_quantile [50%Q; 50%Q; 50%Q] 10 drop
                = Returns [edge]) /\
  (exists rate, fraud_by_gov_bin linear_quantile constant_gov
                = Returns [(None, Some rate)]).
Proof.
  split; [reflexivity|].
  split; [vm_compute; reflexivity|].
  split; [eexists; vm_compute; reflexivity|].
  eexists; vm_compute; reflexivity.
Qed.

(** ** Period comparison *)

Lemma filter_perm {A : Type} (f : A -> bool) (l l' : list A) :
  Permutation l l' -> Permutation (filter f l) (filter f l').
Proof.
  induction 1 as [|x l l' _ IH|x y l|l l' l'' _ IH1 _ IH2]; simpl.
  - constructor.
  - destruct (f x); [now constructor | exact IH].
  - destruct (f x), (f y); try reflexivity. apply perm_swap.
  - now transitivity (filter f l').
Qed.

Lemma total_perm (l l' : list Q) : Permutation l l' -> (total l == total l')%Q.
Proof.
  induction 1 as [|x l l' _ IH|x y l|l l' l'' _ IH1 _ IH2]; simpl.
  - reflexivity.
  - now rewrite IH.
  - ring.
  - now rewrite IH1.
Qed.

Lemma average_perm (l l' : list Q) :
  Permutation l l' -> l <> [] ->
  exists a, average l' = Some a /\ mean_of l a.
Proof.
  intros Hp Hne.
  exists (total l' / inject_Z (Z.of_nat (length l')))%Q. split.
  - destruct l'; [|reflexivity].
    apply Permutation_sym, Permutation_nil in Hp. contradiction.
  - split; [exact Hne|].
    now rewrite (total_perm _ _ Hp), (Permutation_length Hp).
Qed.

Lemma index_max_acc (s : list (option Z * Q)) (acc : option Z) :
  match fold_left (fun m r =>
                     match fst r, m with
                     | Some d, Some x => Some (Z.max x d)
                     | Some d, None => Some d
                     | None, _ => m
                     end) s acc with
  | Some m =>
      (acc = Some m \/ In (Some m) (map fst s)) /\
      (forall d, In (Some d) (map fst s) -> d <= m) /\
      (forall a, acc = Some a -> a <= m)
  | None => acc = None /\ forall d, ~ In (Some d) (map fst s)
  end.
Proof.
  revert acc. induction s as [|[d v] s IH]; intro acc; simpl.
  - destruct acc as [a|].
    + split; [now left|]. split; [intros d []|]. intros b E. injection E as ->. lia.
    + split; [reflexivity | intros d []].
  - destruct d as [d|]; [destruct acc as [a|]|].
    + specialize (IH (Some (Z.max a d))).
      destruct (fold_left _ s _) as [m|].
      * destruct IH as (Hin & Hall & Hacc). specialize (Hacc _ eq_refl).
        split; [|split].
        -- destruct Hin as [E|Hin]; [|now right; right].
           injection E as <-. destruct (Z.max_spec a d) as [[_ ->]|[_ ->]]; auto.
        -- intros d' [E|Hd']; [injection E as <-; lia | now apply Hall].
        -- intros b E. injection E as <-. lia.
      * destruct IH as [E _]. discriminate.
    + specialize (IH (Some d)).
      destruct (fold_left _ s _) as [m|].
      * destruct IH as (Hin & Hall & Hacc). specialize (Hacc _ eq_refl).
        split; [|split].
        -- destruct Hin as [E|Hin]; [injection E as <-; now right; left | now right; right].
        -- intros d' [E|Hd']; [injection E as <-; lia | now apply Hall].
        -- intros b E. discriminate.
      * destruct IH as [E _]. discriminate.
    + specialize (IH acc).
      destruct (fold_left _ s _) as [m|].
      * destruct IH as (Hin & Hall & Hacc).
        split; [|split]; auto.
        -- destruct Hin; auto.
        -- intros d' [E|Hd']; [discriminate | now apply Hall].
      * destruct IH as [E Hall]. split; [exact E|].
        intros d' [E'|Hd']; [discriminate | now apply (Hall d')].
Qed.

Lemma index_max_latest (s : list (option Z * Q)) (m : Z) :
  latest (map fst s) m -> index_max s = Some m.
Proof.
  intros [Hin Hmax]. unfold index_max.
  pose proof (index_max_acc s None) as H.
  destruct (fold_left _ s None) as [m'|].
  - destruct H as ([E|Hin'] & Hall & _); [discriminate|].
    f_equal. apply Z.le_antisymm; [now apply Hmax | now apply Hall].
  - destruct H as [_ Hnone]. now elim (Hnone m).
Qed.

Lemma index_max_none (s : list (option Z * Q)) :
  (forall d, ~ In (Some d) (map fst s)) -> index_max s = None.
Proof.
  intro Hnone. unfold index_max.
  pose proof (index_max_acc s None) as H.
  destruct (fold_left _ s None) as [m'|]; [|reflexivity].
  destruct H as ([E|Hin'] & _); [discriminate | now elim (Hnone m')].
Qed.

Lemma map_fst_combine {A B : Type} (l : list A) (l' : list B) :
  length l = length l' -> map fst (combine l l') = l.
Proof.
  revert l'. induction l as [|a l IH]; intros [|b l'] H; simpl in *;
    try discriminate; [reflexivity|].
  f_equal. apply IH. now injection H.
Qed.

Lemma length_zero_nil {A : Type} (l : list A) :
  (length l =? 0)%nat = true <-> l = [].
Proof. destruct l; simpl; split; congruence. Qed.

Section PeriodComparison.

Variable series_dates : list (option Z).
Variable values : list Q.
Hypothesis same_length : length series_dates = length values.

Local Abbreviation rows := (combine series_dates values).
Local Abbreviation s := (series series_dates values).

Lemma period_unfold :
  last_vs_prior_7d series_dates values =
  match s with
  | [] => Returns None
  | _ =>
      let last_date := index_max s in
      let last7 := filter (fun r => after (minus_days last_date 7) (fst r)) s in
      let prior7 :=
        filter (fun r => after (minus_days last_date 14) (fst r)
                         && upto (minus_days last_date 7) (fst r)) s in
      if (length last7 =? 0)%nat || (length prior7 =? 0)%nat then Returns None
      else
        let m1 := float_of (average (map snd last7)) in
        let m0 := float_of (average (map snd prior7)) in
        Returns (Some (m1, m0, float_sub m1 m0))
  end.
Proof.
  unfold last_vs_prior_7d. rewrite same_length, Nat.eqb_refl. reflexivity.
Qed.

Lemma rows_perm : Permutation rows s.
Proof. apply sort_perm. Qed.

Lemma dates_of_rows : map fst rows = series_dates.
Proof. apply map_fst_combine, same_length. Qed.

Lemma no_date_no_result :
  (forall d, ~ In (Some d) series_dates) ->
  last_vs_prior_7d series_dates values = Returns None.
Proof.
  intro Hnone. rewrite period_unfold.
  assert (Hmax : index_max s = None).
  { apply index_max_none. intros d Hd. apply (Hnone d).
    rewrite <- dates_of_rows.
    eapply Permutation_in; [|exact Hd]. apply Permutation_map, Permutation_sym, rows_perm. }
  destruct s as [|r0 s']; [reflexivity|].
  rewrite Hmax. cbn zeta.
  replace (filter (fun r => after (minus_days None 7) (fst r)) (r0 :: s'))
    with (@nil (option Z * Q)); [reflexivity|].
  symmetry. generalize (r0 :: s'). intro l.
  induction l as [|[[d|] v] l IH]; simpl; auto.
Qed.

Lemma windows (m : Z) :
  latest series_dates m ->
  index_max s = Some m /\
  Permutation (last_window m rows)
    (map snd (filter (fun r => after (minus_days (Some m) 7) (fst r)) s)) /\
  Permutation (prior_window m rows)
    (map snd (filter (fun r => after (minus_days (Some m) 14) (fst r)
                               && upto (minus_days (Some m) 7) (fst r)) s)) /\
  last_window m rows <> [].
Proof.
  intros Hlatest. split; [|split; [|split]].
  - apply index_max_latest. destruct Hlatest as [Hin Hmax]. split.
    + eapply Permutation_in; [apply Permutation_map, rows_perm|].
      now rewrite dates_of_rows.
    + intros d Hd. apply Hmax. rewrite <- dates_of_rows.
      eapply Permutation_in; [|exact Hd].
      apply Permutation_map, Permutation_sym, rows_perm.
  - unfold last_window. apply Permutation_map.
    erewrite filter_ext; [apply filter_perm, rows_perm|].
    intros [[d|] v]; reflexivity.
  - unfold prior_window. apply Permutation_map.
    erewrite filter_ext; [apply filter_perm, rows_perm|].
    intros [[d|] v]; reflexivity.
  - destruct Hlatest as [Hin _]. rewrite <- dates_of_rows in Hin.
    apply in_map_iff in Hin. destruct Hin as ([d v] & E & Hin). simpl in E. subst d.
    unfold last_window. intro Hnil. apply map_eq_nil in Hnil.
    assert (H : In (Some m, v) (filter (fun r => match fst r with
                                              | Some d => m - 7 <? d
                                              | None => false
                                              end) rows)).
    { apply filter_In. split; [exact Hin|]. simpl. apply Z.ltb_lt. lia. }
    rewrite Hnil in H. destruct H.
Qed.

End PeriodComparison.

(** C2 (as the code has it).  The 7-day comparison of a daily series
    gives no result when the series has no date, or when no day of the
    series lies in the seven days before the last seven (the window of the
    last seven days, which end at the latest date, holds that date).
    Otherwise, however few days the two windows hold, the result is the
    mean of each window and the difference of the two means. *)
Theorem period_comparison_skips_empty_window
  (series_dates : list (option Z)) (values : list Q) :
  length series_dates = length values ->
  ((forall d, ~ In (Some d) series_dates) ->
   last_vs_prior_7d series_dates values = Returns None) /\
  (forall m, latest series_dates m ->
     let rows := combine series_dates values in
     (prior_window m rows = [] ->
      last_vs_prior_7d series_dates values = Returns None) /\
     (prior_window m rows <> [] ->
      exists a b,
        mean_of (last_window m rows) a /\ mean_of (prior_window m rows) b /\
        last_vs_prior_7d series_dates values
        = Returns (Some (Fin a, Fin b, Fin (a - b))))).
Proof.
  intro Hlen. split; [now apply no_date_no_result|].
  intros m Hm rows. subst rows.
  destruct (windows series_dates values Hlen m Hm) as (Hmax & Hl & Hp & Hlne).
  rewrite (period_unfold series_dates values Hlen).
  set (s := series series_dates values) in *.
  assert (Hs : s <> []).
  { intro E. rewrite E in Hl. simpl in Hl.
    apply Permutation_sym, Permutation_nil in Hl. contradiction. }
  destruct s as [|r0 s'] eqn:Es; [congruence|]. rewrite <- Es in *. clear Es r0 s' Hs.
  rewrite Hmax. cbn zeta.
  set (last7 := filter (fun r => after (minus_days (Some m) 7) (fst r)) s) in *.
  set (prior7 := filter (fun r => after (minus_days (Some m) 14) (fst r)
                                  && upto (minus_days (Some m) 7) (fst r)) s) in *.
  split.
  - intro Hnil. rewrite Hnil in Hp. apply Permutation_nil in Hp.
    apply map_eq_nil in Hp. rewrite Hp. simpl. now rewrite orb_true_r.
  - intro Hpne.
    destruct (average_perm _ _ Hl Hlne) as (a & Ha & Hma).
    destruct (average_perm _ _ Hp Hpne) as (b & Hb & Hmb).
    exists a, b. split; [exact Hma|]. split; [exact Hmb|].
    rewrite Ha, Hb.
    assert (H1 : (length last7 =? 0)%nat = false).
    { destruct (length last7 =? 0)%nat eqn:E; [|reflexivity].
      apply length_zero_nil in E. rewrite E in Ha. discriminate. }
    assert (H0 : (length prior7 =? 0)%nat = false).
    { destruct (length prior7 =? 0)%nat eqn:E; [|reflexivity].
      apply length_zero_nil in E. rewrite E in Hb. discriminate. }
    rewrite H1, H0. reflexivity.
Qed.


Lemma period_comparison_skips_empty_window_witness :
  length two_days = length two_rates /\
  latest two_days 7 /\
  prior_window 7 (combine two_days two_rates) <> [] /\
  exists a b,
    mean_of (last_window 7 (combine two_days two_rates)) a /\
    mean_of (prior_window 7 (combine two_days two_rates)) b /\
    last_vs_prior_7d two_days two_rates = Returns (Some (Fin a, Fin b, Fin (a - b))).
Proof.
  assert (Hlen : length two_days = length two_rates) by reflexivity.
  assert (Hm : latest two_days 7).
  { split; [simpl; auto|]. intros d [E|[E|[]]]; injection E as <-; lia. }
  assert (Hp : prior_window 7 (combine two_days two_rates) <> []) by discriminate.
  split; [exact Hlen|]. split; [exact Hm|]. split; [exact Hp|].
  exact (proj2 (proj2 (period_comparison_skips_empty_window two_days two_rates Hlen)
                  7 Hm) Hp).
Defined.

(** C2 as stated fails: a series of two days, a week apart, has one day in
    each window, fewer than seven, and the comparison returns a result. *)
Lemma period_comparison_with_two_days :
  length (last_window 7 (combine two_days two_rates)) = 1%nat /\
  length (prior_window 7 (combine two_days two_rates)) = 1%nat /\
  last_vs_prior_7d two_days two_rates
  = Returns (Some (Fin (2 # 10), Fin (1 # 10), Fin ((2 # 10) - (1 # 10)))).
Proof. vm_compute. repeat split. Qed.

(** ** Missing order values and missing columns *)


(** C3 (the code departs from it).  With order values 1000 and missing,
    the mean of the present order values is 10.00, whereas the average
    order value KPI is 5.00: the missing value was filled with 0 before
    the mean, and so it is in the daily mean; the mean risk score of the
    same rows leaves the missing score out. *)
Theorem avg_gov_counts_missing_as_zero (read_number : string -> option Q)
  (read_time : string -> option Z) :
  exists df p a s day,
    preprocess read_number read_time missing_gov = Returns df /\
    mean_present_order_value missing_gov = Some p /\ (p == 10)%Q /\
    avg_gov df = Returns (Fin a) /\ (a == 5)%Q /\
    avg_sift df = Returns (Fin s) /\ (s == 80)%Q /\
    daily df = Returns [day] /\
    (exists g, Daily.avg_gov day = Some g /\ (g == 5)%Q).
Proof.
  eexists. eexists. eexists. eexists. eexists.
  split; [vm_compute; reflexivity|].
  split; [vm_compute; reflexivity|].
  split; [vm_compute; reflexivity|].
  split; [vm_compute; reflexivity|].
  split; [vm_compute; reflexivity|].
  split; [vm_compute; reflexivity|].
  split; [vm_compute; reflexivity|].
  split; [vm_compute; reflexivity|].
  eexists. split; [vm_compute; reflexivity | vm_compute; reflexivity].
Qed.

(** A daily series cannot be built without the cost column or without the
    score column. *)
Lemma daily_needs_cost_and_score (df : frame) :
  get df "CHARGEBACK_COST" = None \/ get df "SIFT_CREATE_ORDER_PA_SCORE" = None ->
  daily df = Raises.
Proof.
  intros [H|H]; unfold daily, agg_floats, getitem, bind; rewrite H;
    repeat match goal with
           | |- match ?m with Returns _ => _ | Raises => _ end = _ =>
               destruct m; [|reflexivity]
           end; reflexivity.
Qed.

(** C5 (the code departs from it).  On a table without the column
    CHARGEBACK_COST the preprocessing succeeds, the total cost KPI falls
    back to 0 and the platform table is built, but the daily series
    raises: the start-up fails. *)
Theorem missing_cost_column_stops_daily (read_number : string -> option Q)
  (read_time : string -> option Z) :
  exists df,
    preprocess read_number read_time missing_cost = Returns df /\
    overall_cb_cost df = Returns (Fin 0) /\
    (exists t, fraud_by_platform df = Returns t) /\
    daily df = Raises.
Proof.
  eexists.
  split; [vm_compute; reflexivity|].
  split; [vm_compute; reflexivity|].
  split; [eexists; vm_compute; reflexivity|].
  vm_compute; reflexivity.
Qed.

(** ** A table without records *)

Lemma cells_nil (c : column) : col_len c = O -> cells c = [].
Proof.
  destruct c as [v|v|v|v|v]; simpl; intro H;
    apply length_zero_iff_nil in H; now subst.
Qed.

Lemma floats_nil (c : column) :
  col_len c = O -> is_numeric c = true -> floats c = Returns [].
Proof.
  destruct c as [v|v|v|v|v]; simpl; intros H Hn; try discriminate;
    apply length_zero_iff_nil in H; now subst.
Qed.

Lemma get_zero_rows (df : frame) (n : string) (c : column) :
  zero_rows df -> get df n = Some c -> col_len c = O.
Proof.
  induction 1 as [|[m c'] df Hc _ IH]; simpl; [discriminate|].
  destruct (String.eqb m n); [|exact IH].
  intro E. injection E as <-. exact Hc.
Qed.

Lemma setitem_zero_rows (df : frame) (n : string) (c : column) :
  zero_rows df -> col_len c = O -> zero_rows (setitem df n c).
Proof.
  intros H Hc. induction H as [|[m c'] df Hc' Hdf IH]; simpl.
  - now repeat constructor.
  - destruct (String.eqb m n); constructor; auto.
Qed.

Lemma len_zero_rows (df : frame) : zero_rows df -> len df = O.
Proof. destruct 1 as [|[m c] df Hc _]; [reflexivity | exact Hc]. Qed.

Lemma to_numeric_numeric (rn : string -> option Q) (c : column) :
  is_numeric (to_numeric rn c) = true /\ col_len (to_numeric rn c) = col_len c.
Proof. destruct c; simpl; now rewrite ?length_map. Qed.

Lemma to_datetime_length (rt : string -> option Z) (c : column) :
  length (to_datetime rt c) = col_len c.
Proof. destruct c; simpl; now rewrite ?length_map. Qed.


Lemma setitem_column_is (P : column -> Prop) (df : frame) (n m : string) (c : column) :
  (m = n -> P c) -> column_is P df n -> column_is P (setitem df m c) n.
Proof.
  intros Hc Hdf c' Hget.
  destruct (String.eqb m n) eqn:E.
  - apply String.eqb_eq in E. subst m. rewrite get_setitem_same in Hget.
    injection Hget as <-. now apply Hc.
  - apply String.eqb_neq in E. rewrite get_setitem_other in Hget by exact E.
    now apply Hdf.
Qed.

Section ZeroRows.

Variable read_number : string -> option Q.
Variable read_time : string -> option Z.

Lemma coerce_zero_rows (df : frame) (n : string) :
  zero_rows df -> zero_rows (coerce read_number df n).
Proof.
  intro H. unfold coerce. destruct (get df n) as [c|] eqn:E; [|exact H].
  apply setitem_zero_rows; [exact H|].
  rewrite (proj2 (to_numeric_numeric _ c)). eapply get_zero_rows; eauto.
Qed.

Lemma coerce_numeric_other (df : frame) (n m : string) :
  column_is (fun c => is_numeric c = true) df n ->
  column_is (fun c => is_numeric c = true) (coerce read_number df m) n.
Proof.
  intro H. unfold coerce. destruct (get df m) as [c|] eqn:E; [|exact H].
  apply setitem_column_is; [|exact H].
  intros _. apply to_numeric_numeric.
Qed.

Lemma coerce_numeric_same (df : frame) (n : string) :
  column_is (fun c => is_numeric c = true) (coerce read_number df n) n.
Proof.
  unfold coerce. destruct (get df n) as [c|] eqn:E.
  - intros c' Hget. rewrite get_setitem_same in Hget. injection Hget as <-.
    apply to_numeric_numeric.
  - intros c' Hget. congruence.
Qed.

Lemma coerce_all_numeric (names : list string) (df : frame) (n : string) :
  In n names \/ column_is (fun c => is_numeric c = true) df n ->
  column_is (fun c => is_numeric c = true)
    (fold_left (coerce read_number) names df) n.
Proof.
  revert df. induction names as [|m names IH]; simpl; intros df H.
  - destruct H as [[]|H]. exact H.
  - apply IH. destruct H as [[->|H]|H].
    + right. apply coerce_numeric_same.
    + now left.
    + right. now apply coerce_numeric_other.
Qed.

Lemma coerce_all_zero_rows (names : list string) (df : frame) :
  zero_rows df -> zero_rows (fold_left (coerce read_number) names df).
Proof.
  revert df. induction names as [|m names IH]; simpl; intros df H; [exact H|].
  apply IH. now apply coerce_zero_rows.
Qed.

End ZeroRows.

Section ZeroRowsPipeline.

Variable read_number : string -> option Q.
Variable read_time : string -> option Z.

Lemma calendar_zero_rows (df df' : frame) :
  calendar read_time df = Returns df' -> zero_rows df -> zero_rows df'.
Proof.
  unfold calendar. destruct (get df "CREATED_AT") as [c|] eqn:E; [|discriminate].
  intros H Hz. injection H as <-.
  assert (Hc : length (to_datetime read_time c) = O).
  { rewrite to_datetime_length. eapply get_zero_rows; eauto. }
  repeat apply setitem_zero_rows; try exact Hz; simpl; now rewrite ?length_map.
Qed.

Lemma label_length (df : frame) (n : string) :
  zero_rows df -> col_len (label df n) = O.
Proof.
  intro Hz. unfold label. destruct (get df n) as [c|] eqn:E; simpl.
  - rewrite to_bool_int_length. eapply get_zero_rows; eauto.
  - now rewrite repeat_length, len_zero_rows.
Qed.

Lemma labels_zero_rows (df df' : frame) :
  labels df = Returns df' -> zero_rows df -> zero_rows df'.
Proof.
  unfold labels. cbv zeta. unfold getitem. rewrite get_setitem_same. cbn [bind].
  intros H Hz. injection H as <-.
  assert (H1 : zero_rows (setitem df "RECEIVED_CHARGEBACK"
                            (label df "RECEIVED_CHARGEBACK"))).
  { apply setitem_zero_rows; [exact Hz | now apply label_length]. }
  repeat apply setitem_zero_rows; auto using label_length.
Qed.

Lemma money_zero_rows (df df' : frame) :
  money read_number df = Returns df' -> zero_rows df -> zero_rows df'.
Proof.
  unfold money, cents_to_dollars, bind. intros H Hz.
  destruct (get df "GOV") as [c|] eqn:E.
  - assert (Hc : col_len (col_fillna0 (to_numeric read_number c)) = O).
    { pose proof (get_zero_rows _ _ _ Hz E) as Hc.
      destruct c; simpl in *; unfold fillna; now rewrite ?length_map. }
    destruct (floats _) as [v|] eqn:Ev; [|discriminate].
    injection H as <-.
    repeat apply setitem_zero_rows; auto.
    simpl. rewrite length_map.
    destruct (col_fillna0 (to_numeric read_number c)); simpl in *;
      try discriminate; injection Ev as <-; now rewrite ?length_map.
  - injection H as <-. apply setitem_zero_rows; [exact Hz|].
    simpl. now rewrite repeat_length, len_zero_rows.
Qed.

Lemma labels_flags (df df' : frame) :
  labels df = Returns df' ->
  (exists v, get df' "RECEIVED_CHARGEBACK" = Some (IntCol v)) /\
  (exists v, get df' "FRAUD_FLAG" = Some (IntCol v)).
Proof.
  intro H. split.
  - revert H. unfold labels. cbv zeta. unfold getitem.
    rewrite get_setitem_same. cbn [bind]. intro H. injection H as <-.
    rewrite !get_setitem_other by discriminate. rewrite get_setitem_same.
    destruct (label_binary df "RECEIVED_CHARGEBACK") as (v & -> & _). now exists v.
  - destruct (labels_fraud_flag _ _ H) as (v & Hv & _). now exists v.
Qed.

Lemma labels_column_is (P : column -> Prop) (df df' : frame) (n : string) :
  labels df = Returns df' ->
  n <> "RECEIVED_CHARGEBACK"%string -> n <> "IS_FRAUDULENT_CHARGEBACK"%string ->
  n <> "FRAUD_FLAG"%string ->
  column_is P df n -> column_is P df' n.
Proof.
  unfold labels. cbv zeta. unfold getitem. rewrite get_setitem_same. cbn [bind].
  intros H H1 H2 H3 Hdf. injection H as <-.
  repeat apply setitem_column_is; try congruence. exact Hdf.
Qed.

Lemma money_column_is (P : column -> Prop) (df df' : frame) (n : string) :
  money read_number df = Returns df' ->
  n <> "GOV"%string -> n <> "GOV_DOLLARS"%string ->
  column_is P df n -> column_is P df' n.
Proof.
  intros H H1 H2 Hdf c Hget.
  rewrite (money_get_other _ _ _ n H H1 H2) in Hget. now apply Hdf.
Qed.

(** What preprocessing establishes: the flags are integer columns, the
    cost and score columns are numeric when present, and a table without
    records stays without records. *)
Lemma preprocess_columns (raw df : frame) :
  preprocess read_number read_time raw = Returns df ->
  (exists v, get df "RECEIVED_CHARGEBACK" = Some (IntCol v)) /\
  (exists v, get df "FRAUD_FLAG" = Some (IntCol v)) /\
  (exists g, get df "GOV_DOLLARS" = Some (NumCol g)) /\
  column_is (fun c => is_numeric c = true) df "CHARGEBACK_COST" /\
  column_is (fun c => is_numeric c = true) df "SIFT_CREATE_ORDER_PA_SCORE" /\
  (zero_rows raw -> zero_rows df).
Proof.
  intro H. pose proof (preprocess_gov_dollars _ _ _ _ H) as Hgov.
  revert H. unfold preprocess, bind.
  destruct (calendar read_time raw) as [df1|] eqn:E1; [|discriminate].
  destruct (labels (numeric read_number df1)) as [df2|] eqn:E2; [|discriminate].
  intro H.
  destruct (labels_flags _ _ E2) as ((v1 & H1) & (v2 & H2)).
  split; [exists v1; now rewrite (money_get_other _ _ _ _ H) by discriminate|].
  split; [exists v2; now rewrite (money_get_other _ _ _ _ H) by discriminate|].
  split; [exact Hgov|].
  split; [|split].
  - eapply money_column_is; [exact H | discriminate | discriminate |].
    eapply labels_column_is; [exact E2 | discriminate | discriminate | discriminate |].
    apply coerce_all_numeric. left. simpl. auto.
  - eapply money_column_is; [exact H | discriminate | discriminate |].
    eapply labels_column_is; [exact E2 | discriminate | discriminate | discriminate |].
    apply coerce_all_numeric. left. simpl. auto.
  - intro Hz. eapply money_zero_rows; [exact H|].
    eapply labels_zero_rows; [exact E2|].
    apply coerce_all_zero_rows. eapply calendar_zero_rows; eauto.
Qed.

End ZeroRowsPipeline.

(** ** Static catalogs *)

Lemma glossary_map_items :
  Forall (fun e => glossary_map (fst e) = snd e) glossary_items.
Proof. repeat constructor. Qed.

Lemma build_rec_cards_all (selected_key : option string) :
  Permutation (build_rec_cards selected_key)
    (map (fun e => rec_card (fst e) (snd e) selected_key) REC_DEFS).
Proof.
  unfold build_rec_cards.
  set (cards := map (fun e => (fst e, rec_card (fst e) (snd e) selected_key)) REC_DEFS).
  assert (E : map snd cards
              = map (fun e => rec_card (fst e) (snd e) selected_key) REC_DEFS).
  { unfold cards. rewrite map_map. reflexivity. }
  rewrite <- E.
  destruct selected_key as [k|]; [|reflexivity].
  destruct (negb (String.eqb k "") && existsb (fun e => String.eqb (fst e) k) REC_DEFS);
    [|reflexivity].
  apply Permutation_map, Permutation_sym, sort_perm.
Qed.

(** ** Predictor ranking *)





(** The entries of the chart are the first twenty of the ranking, in column
    order, whatever their coefficients. *)
Lemma predictors_chart_head (df : frame) (t : list (string * option Q)) :
  predictors df = Returns t ->
  exists chart, predictors_chart df = Returns chart /\
                Permutation chart (firstn 20 t).
Proof.
  intro H. unfold predictors_chart. rewrite H. cbn [bind].
  eexists. split; [reflexivity|]. symmetry. apply sort_perm.
Qed.







(** * Further properties *)

(** ** Groups, characterised *)

Lemma filter_comm {A : Type} (p q : A -> bool) (l : list A) :
  filter p (filter q l) = filter q (filter p l).
Proof.
  induction l as [|x l IH]; simpl; [reflexivity|].
  destruct (p x) eqn:P, (q x) eqn:Q0; simpl; rewrite ?P, ?Q0, IH; reflexivity.
Qed.

Lemma filter_and {A : Type} (p q : A -> bool) (l : list A) :
  filter p (filter q l) = filter (fun x => q x && p x) l.
Proof.
  induction l as [|x l IH]; simpl; [reflexivity|].
  destruct (q x); simpl; [destruct (p x)|]; now rewrite IH.
Qed.

Lemma filter_implied {A : Type} (p q : A -> bool) (l : list A) :
  (forall x, p x = true -> q x = true) ->
  filter p (filter q l) = filter p l.
Proof.
  intro H. induction l as [|x l IH]; simpl; [reflexivity|].
  destruct (p x) eqn:P.
  - rewrite (H x P). simpl. now rewrite P, IH.
  - destruct (q x); simpl; now rewrite ?P, IH.
Qed.

Lemma filter_all {A : Type} (p : A -> bool) (l : list A) :
  (forall x, In x l -> p x = true) -> filter p l = l.
Proof.
  induction l as [|x l IH]; simpl; intro H; [reflexivity|].
  rewrite (H x (or_introl eq_refl)). f_equal. apply IH. auto.
Qed.

Section GroupSpec.

Context {K V : Type}.
Variable eqb : K -> K -> bool.
Hypothesis eqb_refl : forall a, eqb a a = true.
Hypothesis eqb_sym : forall a b, eqb a b = eqb b a.
Hypothesis eqb_trans :
  forall a b c, eqb a b = true -> eqb b c = true -> eqb a c = true.

Lemma eqb_false_l (a b c : K) : eqb a b = true -> eqb a c = false -> eqb b c = false.
Proof.
  intros Hab Hac. destruct (eqb b c) eqn:E; [|reflexivity].
  rewrite (eqb_trans a b c Hab E) in Hac. discriminate.
Qed.

Lemma eqb_congr (k x y : K) : eqb x y = true -> eqb k x = eqb k y.
Proof.
  intro Hxy. destruct (eqb k x) eqn:Ex.
  - symmetry. now apply (eqb_trans k x y).
  - symmetry. destruct (eqb k y) eqn:Ey; [|reflexivity].
    rewrite eqb_sym in Hxy. rewrite (eqb_trans k y x Ey Hxy) in Ex. discriminate.
Qed.

Lemma filter_unique (q : K -> bool) (l : list K) :
  (forall x y, eqb x y = true -> q x = q y) ->
  filter q (unique eqb l) = unique eqb (filter q l).
Proof.
  intro Hq. induction l as [|x l IH]; simpl; [reflexivity|].
  destruct (q x) eqn:Qx; simpl.
  - f_equal. rewrite <- IH. apply filter_comm.
  - rewrite <- IH. apply filter_implied.
    intros y Qy. destruct (eqb x y) eqn:E; [|reflexivity].
    rewrite (Hq x y E) in Qx. congruence.
Qed.

Lemma values_of_cons (k a : K) (v : V) (rows : list (K * V)) :
  values_of eqb k ((a, v) :: rows)
  = if eqb k a then v :: values_of eqb k rows else values_of eqb k rows.
Proof. unfold values_of. simpl. now destruct (eqb k a). Qed.

Lemma add_row_fst (k : K) (v : V) (gs : list (K * list V)) :
  map fst (add_row eqb k v gs)
  = if unmatched eqb gs k then map fst gs ++ [k] else map fst gs.
Proof.
  unfold unmatched. induction gs as [|[k' vs] gs IH]; simpl; [reflexivity|].
  destruct (eqb k' k); simpl; [reflexivity|].
  rewrite IH. now destruct (existsb _ _).
Qed.

Lemma unmatched_false (gs : list (K * list V)) (k : K) :
  unmatched eqb gs k = false ->
  exists a, In a (map fst gs) /\ eqb a k = true.
Proof.
  unfold unmatched. intro H. apply negb_false_iff in H.
  apply existsb_exists in H. exact H.
Qed.

Lemma unmatched_true (gs : list (K * list V)) (k a : K) :
  unmatched eqb gs k = true -> In a (map fst gs) -> eqb a k = false.
Proof.
  unfold unmatched. intros H Ha. apply negb_true_iff in H.
  destruct (eqb a k) eqn:E; [|reflexivity].
  assert (existsb (fun a => eqb a k) (map fst gs) = true); [|congruence].
  apply existsb_exists. now exists a.
Qed.

Lemma unmatched_add_row (k x : K) (v : V) (gs : list (K * list V)) :
  unmatched eqb (add_row eqb k v gs) x
  = unmatched eqb gs x && (if unmatched eqb gs k then negb (eqb k x) else true).
Proof.
  unfold unmatched at 1. rewrite add_row_fst.
  destruct (unmatched eqb gs k).
  - rewrite existsb_app. simpl. unfold unmatched.
    rewrite orb_false_r. apply negb_orb.
  - unfold unmatched. now rewrite andb_true_r.
Qed.

Lemma distinct_snoc (ks : list K) (k : K) :
  distinct eqb ks -> (forall a, In a ks -> eqb a k = false) ->
  distinct eqb (ks ++ [k]).
Proof.
  unfold distinct. induction 1 as [|a l Ha Hl IH]; intro Hk; simpl.
  - repeat constructor.
  - constructor.
    + apply Forall_app. split; [exact Ha|]. repeat constructor.
      apply Hk. now left.
    + apply IH. intros b Hb. apply Hk. now right.
Qed.

Lemma add_row_distinct (k : K) (v : V) (gs : list (K * list V)) :
  distinct eqb (map fst gs) -> distinct eqb (map fst (add_row eqb k v gs)).
Proof.
  intro H. rewrite add_row_fst. destruct (unmatched eqb gs k) eqn:E; [|exact H].
  apply distinct_snoc; [exact H|]. intros a Ha. now apply (unmatched_true gs).
Qed.

Lemma extend_add_row (rows : list (K * V)) (k : K) (v : V) (gs : list (K * list V)) :
  distinct eqb (map fst gs) ->
  map (fun g => (fst g, snd g ++ values_of eqb (fst g) rows)) (add_row eqb k v gs)
  = map (fun g => (fst g, snd g ++ values_of eqb (fst g) ((k, v) :: rows))) gs
    ++ (if unmatched eqb gs k then [(k, v :: values_of eqb k rows)] else []).
Proof.
  induction gs as [|[k' vs] gs IH]; intro Hd; [reflexivity|].
  inversion Hd as [|a l Hfa Hrest]; subst.
  cbn [add_row]. unfold unmatched. cbn [map fst existsb].
  destruct (eqb k' k) eqn:E.
  - cbn [orb negb map fst snd]. rewrite app_nil_r. f_equal.
    + f_equal. rewrite values_of_cons, E. now rewrite <- app_assoc.
    + apply map_ext_in. intros g Hg. f_equal. f_equal.
      rewrite values_of_cons.
      assert (Hg' : eqb k' (fst g) = false).
      { rewrite Forall_forall in Hfa. apply Hfa. now apply in_map. }
      pose proof (eqb_false_l k' k (fst g) E Hg') as Hkg.
      rewrite eqb_sym in Hkg. now rewrite Hkg.
  - cbn [orb map fst snd]. fold (unmatched eqb gs k).
    rewrite (IH Hrest). cbn [app]. f_equal.
    rewrite values_of_cons, E. reflexivity.
Qed.

Lemma grouped_step (rows : list (K * V)) (k : K) (v : V) (gs : list (K * list V)) :
  distinct eqb (map fst gs) ->
  grouped eqb rows (add_row eqb k v gs) = grouped eqb ((k, v) :: rows) gs.
Proof.
  intro Hd. unfold grouped. rewrite (extend_add_row rows k v gs Hd).
  rewrite <- app_assoc. f_equal.
  rewrite (filter_ext _ _ (fun x => unmatched_add_row k x v gs)).
  cbn [map fst filter].
  destruct (unmatched eqb gs k) eqn:E.
  - cbn [unique map app]. f_equal.
    + now rewrite values_of_cons, eqb_refl.
    + rewrite (filter_unique (fun y => negb (eqb k y))).
      2:{ intros x y Hxy. f_equal. now apply eqb_congr. }
      rewrite filter_and. apply map_ext_in. intros x Hx. f_equal.
      apply unique_in, filter_In in Hx. destruct Hx as [_ Hx].
      apply andb_true_iff in Hx. destruct Hx as [_ Hx].
      apply negb_true_iff in Hx.
      rewrite values_of_cons. rewrite eqb_sym in Hx. now rewrite Hx.
  - cbn [app].
    rewrite (filter_ext (fun x => unmatched eqb gs x && true) (unmatched eqb gs))
      by (intro x; apply andb_true_r).
    apply map_ext_in. intros x Hx. f_equal.
    apply unique_in, filter_In in Hx. destruct Hx as [_ Hx].
    rewrite values_of_cons.
    destruct (eqb x k) eqn:Exk; [|reflexivity]. exfalso.
    destruct (unmatched_false gs k E) as (a & Ha & Hak).
    rewrite eqb_sym in Exk.
    pose proof (unmatched_true gs x a Hx Ha) as Hax.
    pose proof (eqb_trans a k x Hak Exk). congruence.
Qed.

Lemma fold_grouped (rows : list (K * V)) :
  forall gs, distinct eqb (map fst gs) ->
  fold_left (fun gs r => add_row eqb (fst r) (snd r) gs) rows gs
  = grouped eqb rows gs.
Proof.
  induction rows as [|[k v] rows IH]; intros gs Hd; cbn [fold_left fst snd].
  - unfold grouped. cbn [map filter unique]. rewrite app_nil_r.
    rewrite <- (map_id gs) at 1. apply map_ext. intros [a vs].
    cbn [fst snd]. unfold values_of. cbn [filter map]. now rewrite app_nil_r.
  - rewrite IH by (now apply add_row_distinct). now apply grouped_step.
Qed.

(** The groups are those of the keys in order of first appearance, each
    with the values of all the rows of its key, in row order. *)
Lemma groups_spec (rows : list (K * V)) :
  groups eqb rows
  = map (fun k => (k, values_of eqb k rows)) (unique eqb (map fst rows)).
Proof.
  unfold groups. rewrite fold_grouped by constructor.
  unfold grouped. cbn [map app]. f_equal. f_equal.
  apply filter_all. reflexivity.
Qed.

Lemma filter_none {A : Type} (p q : A -> bool) (l : list A) :
  (forall y, p y = true -> q y = false) -> filter p (filter q l) = [].
Proof.
  intro H. induction l as [|x l IH]; simpl; [reflexivity|].
  destruct (q x) eqn:Qx; [|exact IH]. simpl.
  destruct (p x) eqn:Px; [|exact IH].
  rewrite (H x Px) in Qx. discriminate.
Qed.

(** Of the keys kept by [unique], at most one is equal to a given key. *)
Lemma unique_once (l : list K) (k : K) :
  (length (filter (eqb k) (unique eqb l)) <= 1)%nat.
Proof.
  induction l as [|x l IH]; simpl; [lia|].
  destruct (eqb k x) eqn:E; simpl.
  - rewrite filter_none; [simpl; lia|].
    intros y Hy. apply negb_false_iff.
    rewrite eqb_sym in E. now apply (eqb_trans x k y).
  - rewrite filter_comm.
    etransitivity; [apply filter_length_le | exact IH].
Qed.

(** Every key is equal to one of the keys kept by [unique]. *)
Lemma unique_covers (l : list K) (k : K) :
  In k l -> exists k', In k' (unique eqb l) /\ eqb k' k = true.
Proof.
  induction l as [|x l IH]; simpl; [tauto|].
  intros [->|H].
  - exists k. split; [now left | apply eqb_refl].
  - destruct (IH H) as (k' & Hk' & E).
    destruct (eqb x k') eqn:Ex.
    + exists x. split; [now left | now apply (eqb_trans x k' k)].
    + exists k'. split; [|exact E]. right. apply filter_In.
      split; [exact Hk' | now rewrite Ex].
Qed.

End GroupSpec.

Lemma add_row_concat {K V : Type} (eqb : K -> K -> bool) (k : K) (v : V)
  (gs : list (K * list V)) :
  Permutation (concat (map snd (add_row eqb k v gs)))
    (concat (map snd gs) ++ [v]).
Proof.
  induction gs as [|[k' vs] gs IH]; simpl; [reflexivity|].
  destruct (eqb k' k); simpl.
  - rewrite <- !app_assoc. apply Permutation_app_head, Permutation_app_comm.
  - rewrite <- app_assoc. now apply Permutation_app_head.
Qed.

(** Grouping neither loses nor repeats a row. *)
Lemma groups_concat {K V : Type} (eqb : K -> K -> bool) (rows : list (K * V)) :
  Permutation (concat (map snd (groups eqb rows))) (map snd rows).
Proof.
  unfold groups.
  assert (H : forall gs : list (K * list V),
            Permutation
              (concat (map snd (fold_left
                 (fun gs r => add_row eqb (fst r) (snd r) gs) rows gs)))
              (concat (map snd gs) ++ map snd rows)).
  { induction rows as [|r rows IH]; intro gs; simpl.
    - now rewrite app_nil_r.
    - rewrite IH, add_row_concat, <- app_assoc. reflexivity. }
  apply H.
Qed.

Lemma sorted_map {A B : Type} (R : B -> B -> Prop) (f : A -> B) (l : list A) :
  Sorted (fun a b => R (f a) (f b)) l -> Sorted R (map f l).
Proof.
  induction 1 as [|x l Hs IH Hd]; simpl; constructor; [exact IH|].
  destruct Hd; simpl; now constructor.
Qed.


(** ** Keys of the tables *)

Lemma cell_eqb_refl (a : cell) : cell_eqb a a = true.
Proof.
  destruct a; simpl; auto using Qeq_bool_refl, String.eqb_refl, Z.eqb_refl.
Qed.

Lemma Qeq_bool_comm (x y : Q) : Qeq_bool x y = Qeq_bool y x.
Proof.
  destruct (Qeq_bool x y) eqn:E1, (Qeq_bool y x) eqn:E2; try reflexivity.
  - apply Qeq_bool_sym in E1. congruence.
  - apply Qeq_bool_sym in E2. congruence.
Qed.

Lemma cell_eqb_sym (a b : cell) : cell_eqb a b = cell_eqb b a.
Proof.
  destruct a, b; simpl; auto using Qeq_bool_comm, String.eqb_sym, Z.eqb_sym.
Qed.

Lemma cell_eqb_trans (a b c : cell) :
  cell_eqb a b = true -> cell_eqb b c = true -> cell_eqb a c = true.
Proof.
  destruct a, b, c; simpl; try discriminate; auto.
  - apply Qeq_bool_trans.
  - rewrite !String.eqb_eq. congruence.
  - rewrite !Z.eqb_eq. congruence.
Qed.

Lemma cell_leb_total (a b : cell) : cell_leb a b = true \/ cell_leb b a = true.
Proof.
  destruct a, b; simpl; auto using String.leb_total.
  - destruct (Qle_bool q q0) eqn:E; [now left | right].
    apply Qle_bool_iff. destruct (Qlt_le_dec q0 q) as [H|H].
    + now apply Qlt_le_weak.
    + apply Qle_bool_iff in H. congruence.
  - destruct (Z.leb_spec t t0); [now left | right]. apply Z.leb_le. lia.
Qed.

Lemma bin_eqb_refl (a : option nat) : bin_eqb a a = true.
Proof. now apply bin_eqb_eq. Qed.

Lemma bin_eqb_sym (a b : option nat) : bin_eqb a b = bin_eqb b a.
Proof. destruct a, b; simpl; auto using Nat.eqb_sym. Qed.

Lemma bin_eqb_trans (a b c : option nat) :
  bin_eqb a b = true -> bin_eqb b c = true -> bin_eqb a c = true.
Proof. rewrite !bin_eqb_eq. congruence. Qed.

(** ** Segment tables, row by row *)

Lemma filter_map_fst {K A B : Type} (p : K -> bool) (f : K * A -> B)
  (l : list (K * A)) :
  length (filter (fun row => p (fst row)) (map (fun g => (fst g, f g)) l))
  = length (filter p (map fst l)).
Proof.
  induction l as [|g l IH]; simpl; [reflexivity|].
  destruct (p (fst g)); simpl; now rewrite IH.
Qed.

Lemma rate_by_means {K : Type} (eqb leb : K -> K -> bool)
  (keys : list K) (flag : list (option Q)) :
  (forall a, eqb a a = true) ->
  (forall a b, eqb a b = eqb b a) ->
  (forall a b c, eqb a b = true -> eqb b c = true -> eqb a c = true) ->
  group_means eqb keys flag (rate_by eqb leb keys flag).
Proof.
  intros Hrefl Hsym Htrans.
  set (rows := combine keys flag).
  set (table := map (fun k => (k, values_of eqb k rows)) (unique eqb (map fst rows))).
  assert (Hperm : Permutation
            (map (fun g : K * list (option Q) => (fst g, nanmean (snd g))) table)
            (rate_by eqb leb keys flag)).
  { unfold rate_by, groupby. fold rows.
    rewrite (groups_spec eqb Hrefl Hsym Htrans rows). fold table.
    apply Permutation_map, sort_perm. }
  split; [|split].
  - intros k r Hin.
    apply (Permutation_in _ (Permutation_sym Hperm)) in Hin.
    apply in_map_iff in Hin. destruct Hin as (g & E & Hg).
    apply in_map_iff in Hg. destruct Hg as (k0 & <- & Hk0).
    cbn [fst snd] in E. injection E as <- <-. split; [|reflexivity].
    apply unique_in, in_map_iff in Hk0. destruct Hk0 as ([a b] & <- & Hab).
    eapply in_combine_l, Hab.
  - intros k Hk.
    destruct (unique_covers eqb Hrefl Htrans (map fst rows) k Hk) as (k' & Hk' & E).
    exists k', (nanmean (values_of eqb k' rows)). split; [|exact E].
    apply (Permutation_in _ Hperm).
    apply in_map_iff. exists (k', values_of eqb k' rows). split; [reflexivity|].
    apply in_map_iff. now exists k'.
  - intro k.
    rewrite <- (Permutation_length (filter_perm _ _ _ Hperm)).
    rewrite filter_map_fst. unfold table. rewrite map_map. cbn [fst].
    rewrite map_id. now apply unique_once.
Qed.

Lemma group_means_perm {K : Type} (eqb : K -> K -> bool)
  (keys : list K) (flag : list (option Q)) (t t' : segment K) :
  Permutation t t' -> group_means eqb keys flag t -> group_means eqb keys flag t'.
Proof.
  intros Hp (H1 & H2 & H3). split; [|split].
  - intros k r Hin. apply H1. eapply Permutation_in; [symmetry; exact Hp | exact Hin].
  - intros k Hk. destruct (H2 k Hk) as (k' & r & Hin & E).
    exists k', r. split; [|exact E]. eapply Permutation_in; [exact Hp | exact Hin].
  - intro k. rewrite <- (Permutation_length (filter_perm _ _ _ Hp)). apply H3.
Qed.

Lemma fraud_by_means (df : frame) (key : string) (flag : list (option Q)) :
  agg_floats df "FRAUD_FLAG" = Returns flag ->
  exists t, fraud_by df key = Returns t /\
            group_means cell_eqb (key_cells df key) flag t.
Proof.
  intro Hflag. unfold fraud_by, key_cells.
  destruct (get df key) as [c|].
  - rewrite Hflag. cbn [bind]. eexists. split; [reflexivity|].
    apply rate_by_means;
      [exact cell_eqb_refl | exact cell_eqb_sym | exact cell_eqb_trans].
  - exists []. split; [reflexivity|]. split; [|split].
    + intros k r [].
    + intros k [].
    + intro k. simpl. lia.
Qed.

(** X1.  Each of the four grouped fraud-rate tables (by platform, by
    unique-address count, by failed-charge count, by order-value bucket)
    lists, for every key that occurs in the rows, exactly one row, and the
    rate of that row is the mean of the fraud flag over all the rows of
    that key, the rows of a missing key forming a group of their own. *)
Theorem segment_tables_list_group_means (quantile : list Q -> Q -> Q)
  (df : frame) (flag : list (option Q)) :
  agg_floats df "FRAUD_FLAG" = Returns flag ->
  (exists t, fraud_by_platform df = Returns t /\
             group_means cell_eqb (key_cells df "PLATFORM") flag t) /\
  (exists t, fraud_by_addr df = Returns t /\
             group_means cell_eqb (key_cells df "CX_UNIQUE_ADDRESSES") flag t) /\
  (exists t, fraud_by_failed df = Returns t /\
             group_means cell_eqb (key_cells df "FAIL_CHARGES_1D") flag t) /\
  (forall bins, GOV_BIN quantile df = Returns bins ->
     exists t, fraud_by_gov_bin quantile df = Returns t /\
               group_means bin_eqb bins flag t).
Proof.
  intro Hflag. split; [exact (fraud_by_means df _ flag Hflag)|].
  split.
  { unfold fraud_by_addr.
    destruct (fraud_by_means df "CX_UNIQUE_ADDRESSES" flag Hflag) as (t & -> & Ht).
    eexists. split; [reflexivity|].
    eapply group_means_perm; [apply sort_perm | exact Ht]. }
  split.
  { unfold fraud_by_failed.
    destruct (fraud_by_means df "FAIL_CHARGES_1D" flag Hflag) as (t & -> & Ht).
    eexists. split; [reflexivity|].
    eapply group_means_perm; [apply sort_perm | exact Ht]. }
  intros bins Hbins. unfold fraud_by_gov_bin.
  assert (Hhas : has df "GOV_DOLLARS" = true).
  { revert Hbins. unfold GOV_BIN, getitem, has.
    destruct (get df "GOV_DOLLARS"); [reflexivity | discriminate]. }
  rewrite Hhas, Hbins, Hflag. cbn [bind]. eexists. split; [reflexivity|].
  apply rate_by_means; [exact bin_eqb_refl | exact bin_eqb_sym | exact bin_eqb_trans].
Qed.

Lemma segment_tables_list_group_means_witness :
  agg_floats missing_gov_df "FRAUD_FLAG" = Returns [Some 1%Q; Some 0%Q] /\
  (exists t, fraud_by_platform missing_gov_df = Returns t /\
             group_means cell_eqb (key_cells missing_gov_df "PLATFORM")
               [Some 1%Q; Some 0%Q] t).
Proof.
  assert (H : agg_floats missing_gov_df "FRAUD_FLAG" = Returns [Some 1%Q; Some 0%Q])
    by (vm_compute; reflexivity).
  split; [exact H|].
  exact (proj1 (segment_tables_list_group_means linear_quantile missing_gov_df _ H)).
Defined.

(** X2.  The tables by platform, by unique-address count and by
    failed-charge count list their rows in ascending order of the key,
    the row of the missing key last. *)
Theorem segment_tables_ascend (df : frame) :
  (forall t, fraud_by_platform df = Returns t -> ascending t) /\
  (forall t, fraud_by_addr df = Returns t -> ascending t) /\
  (forall t, fraud_by_failed df = Returns t -> ascending t).
Proof.
  assert (Hsorted : forall l : segment cell, ascending (sort_values_key l)).
  { intro l. apply (sort_sorted (fun a b => cell_leb (fst a) (fst b))).
    intros a b. apply cell_leb_total. }
  assert (Hby : forall key t, fraud_by df key = Returns t -> ascending t).
  { intros key t. unfold fraud_by, bind.
    destruct (get df key); [|intro H; injection H as <-; constructor].
    destruct (agg_floats df "FRAUD_FLAG") as [flag|]; [|discriminate].
    intro H. injection H as <-. unfold rate_by, groupby.
    apply (sorted_map (fun a b => cell_leb (fst a) (fst b) = true)
             (fun g => (fst g, nanmean (snd g)))).
    cbn [fst].
    apply (sort_sorted (fun a b : cell * list (option Q) => cell_leb (fst a) (fst b))).
    intros a b. apply cell_leb_total. }
  split; [exact (Hby _)|]. split.
  - intros t. unfold fraud_by_addr, bind.
    destruct (fraud_by df "CX_UNIQUE_ADDRESSES"); [|discriminate].
    intro H. injection H as <-. apply Hsorted.
  - intros t. unfold fraud_by_failed, bind.
    destruct (fraud_by df "FAIL_CHARGES_1D"); [|discriminate].
    intro H. injection H as <-. apply Hsorted.
Qed.

(** ** The daily series, row by row *)

Lemma daily_unfold (df : frame) :
  daily df =
  (recs <- daily_records df ;;
   Returns (map daily_agg (groupby cell_eqb cell_leb recs))).
Proof.
  unfold daily, daily_records, bind.
  repeat match goal with
         | |- context [match ?m with Returns _ => _ | Raises => _ end] =>
             destruct m; [|reflexivity]
         end; reflexivity.
Qed.

Lemma groupby_rows {K V : Type} (eqb leb : K -> K -> bool) (rows : list (K * V)) :
  (forall a, eqb a a = true) ->
  (forall a b, eqb a b = eqb b a) ->
  (forall a b c, eqb a b = true -> eqb b c = true -> eqb a c = true) ->
  Permutation
    (map (fun k => (k, values_of eqb k rows)) (unique eqb (map fst rows)))
    (groupby eqb leb rows).
Proof.
  intros Hrefl Hsym Htrans. unfold groupby.
  rewrite (groups_spec eqb Hrefl Hsym Htrans rows). apply sort_perm.
Qed.

Lemma daily_agg_date (g : cell * list daily_cells) : Daily.DATE (daily_agg g) = fst g.
Proof. reflexivity. Qed.

Lemma filter_map_pre {A B : Type} (p : B -> bool) (f : A -> B) (l : list A) :
  filter p (map f l) = map f (filter (fun x => p (f x)) l).
Proof.
  induction l as [|x l IH]; simpl; [reflexivity|].
  destruct (p (f x)); simpl; now rewrite IH.
Qed.

(** X3.  The daily series has one row for every date that occurs in the
    table, the rows of a missing date forming a group of their own; the row
    of a date aggregates all the records of that date and no other record;
    the rows are in ascending order of the date, the missing date last. *)
Theorem daily_rows_aggregate_their_date (df : frame)
  (recs : list (cell * daily_cells)) (rows : list Daily.row) :
  daily_records df = Returns recs ->
  daily df = Returns rows ->
  (forall r, In r rows ->
     In (Daily.DATE r) (map fst recs) /\
     r = daily_agg (Daily.DATE r, values_of cell_eqb (Daily.DATE r) recs)) /\
  (forall d, In d (map fst recs) ->
     exists r, In r rows /\ cell_eqb (Daily.DATE r) d = true) /\
  (forall d, (length (filter (fun r => cell_eqb d (Daily.DATE r)) rows) <= 1)%nat) /\
  Sorted (fun a b => cell_leb (Daily.DATE a) (Daily.DATE b) = true) rows.
Proof.
  intros Hrecs. rewrite daily_unfold, Hrecs. cbn [bind].
  intro H. injection H as <-.
  pose proof (groupby_rows cell_eqb cell_leb recs
                cell_eqb_refl cell_eqb_sym cell_eqb_trans) as Hperm.
  split; [|split; [|split]].
  - intros r Hr. apply in_map_iff in Hr. destruct Hr as (g & <- & Hg).
    apply (Permutation_in _ (Permutation_sym Hperm)) in Hg.
    apply in_map_iff in Hg. destruct Hg as (k & <- & Hk).
    rewrite daily_agg_date. cbn [fst]. split; [|reflexivity].
    now apply unique_in in Hk.
  - intros d Hd.
    destruct (unique_covers cell_eqb cell_eqb_refl cell_eqb_trans _ d Hd)
      as (k & Hk & E).
    exists (daily_agg (k, values_of cell_eqb k recs)). split; [|exact E].
    apply in_map. apply (Permutation_in _ Hperm).
    apply in_map_iff. now exists k.
  - intro d. rewrite filter_map_pre, length_map.
    rewrite <- (Permutation_length (filter_perm _ _ _ Hperm)).
    rewrite filter_map_pre, length_map. cbn [fst].
    apply (unique_once cell_eqb cell_eqb_sym cell_eqb_trans).
  - apply (sorted_map (fun a b => cell_leb (Daily.DATE a) (Daily.DATE b) = true)).
    unfold groupby.
    apply (sort_sorted (fun a b : cell * list daily_cells => cell_leb (fst a) (fst b))).
    intros a b. apply cell_leb_total.
Qed.

Lemma daily_rows_aggregate_their_date_witness :
  exists recs rows,
    daily_records missing_gov_df = Returns recs /\
    daily missing_gov_df = Returns rows /\
    (forall r, In r rows ->
       In (Daily.DATE r) (map fst recs) /\
       r = daily_agg (Daily.DATE r, values_of cell_eqb (Daily.DATE r) recs)).
Proof.
  eexists. eexists.
  assert (H1 : daily_records missing_gov_df = Returns _) by (vm_compute; reflexivity).
  assert (H2 : daily missing_gov_df = Returns _) by (vm_compute; reflexivity).
  split; [exact H1|]. split; [exact H2|].
  exact (proj1 (daily_rows_aggregate_their_date missing_gov_df _ _ H1 H2)).
Defined.

(** ** Daily totals *)

Lemma map_snd_combine {A B : Type} (l : list A) (l' : list B) :
  length l = length l' -> map snd (combine l l') = l'.
Proof.
  revert l'. induction l as [|a l IH]; intros [|b l'] H; simpl in *;
    try discriminate; [reflexivity|].
  f_equal. apply IH. now injection H.
Qed.

Lemma combine_same_length {A B : Type} (l : list A) (l' : list B) :
  length l = length l' -> length (combine l l') = length l.
Proof. intro H. rewrite length_combine, <- H. apply Nat.min_id. Qed.

Lemma concat_perm {A : Type} (l l' : list (list A)) :
  Permutation l l' -> Permutation (concat l) (concat l').
Proof.
  induction 1 as [|x l l' _ IH|x y l|l l' l'' _ IH1 _ IH2]; simpl.
  - constructor.
  - now apply Permutation_app_head.
  - rewrite !app_assoc. apply Permutation_app_tail, Permutation_app_comm.
  - now transitivity (concat l').
Qed.

Lemma dropna_app (l l' : list (option Q)) : dropna (l ++ l') = dropna l ++ dropna l'.
Proof.
  induction l as [|[q|] l IH]; simpl; [reflexivity | now rewrite IH | exact IH].
Qed.

Lemma total_app (l l' : list Q) : (total (l ++ l') == total l + total l')%Q.
Proof.
  induction l as [|x l IH]; simpl; [ring|]. fold (total (l ++ l')) (total l).
  rewrite IH. ring.
Qed.

Lemma dropna_perm (l l' : list (option Q)) :
  Permutation l l' -> Permutation (dropna l) (dropna l').
Proof.
  induction 1 as [|[x|] l l' _ IH|[x|] [y|] l|l l' l'' _ IH1 _ IH2]; simpl;
    try reflexivity; try assumption.
  - now constructor.
  - apply perm_swap.
  - now transitivity (dropna l').
Qed.

Lemma nansum_perm (l l' : list (option Q)) :
  Permutation l l' -> (nansum l == nansum l')%Q.
Proof. intro H. apply total_perm, dropna_perm, H. Qed.

(** The sums of the groups add up to the sum of the column. *)
Lemma nansum_groups {K V : Type} (f : V -> option Q) (gs : list (K * list V)) :
  (total (map (fun g => nansum (map f (snd g))) gs)
   == nansum (map f (concat (map snd gs))))%Q.
Proof.
  induction gs as [|g gs IH]; simpl; [reflexivity|].
  fold (total (map (fun g => nansum (map f (snd g))) gs)).
  rewrite IH. unfold nansum. rewrite map_app, dropna_app, total_app. reflexivity.
Qed.

Lemma count_groups {K V : Type} (f : V -> cell) (gs : list (K * list V)) :
  count_total (map (fun g => count (map f (snd g))) gs)
  = count (map f (concat (map snd gs))).
Proof.
  induction gs as [|g gs IH]; simpl; [reflexivity|].
  fold (count_total (map (fun g => count (map f (snd g))) gs)).
  rewrite IH. unfold count. rewrite map_app, filter_app, length_app. lia.
Qed.

Lemma groupby_concat {K V : Type} (eqb leb : K -> K -> bool) (rows : list (K * V)) :
  Permutation (concat (map snd (groupby eqb leb rows))) (map snd rows).
Proof.
  unfold groupby. rewrite <- (groups_concat eqb rows).
  apply concat_perm, Permutation_map, Permutation_sym, sort_perm.
Qed.

Lemma rectangular_get (df : frame) (n : string) (c : column) :
  rectangular df -> get df n = Some c -> col_len c = len df.
Proof.
  unfold rectangular. generalize (len df). intros m H.
  induction H as [|[n' c'] df' Hc _ IH]; simpl; [discriminate|].
  destruct (String.eqb n' n); [|exact IH].
  intro E. injection E as <-. exact Hc.
Qed.

Lemma cells_length (c : column) : length (cells c) = col_len c.
Proof. destruct c; simpl; apply length_map. Qed.

Lemma floats_length (c : column) (v : list (option Q)) :
  floats c = Returns v -> length v = col_len c.
Proof.
  destruct c; simpl; try discriminate; intro H; injection H as <-;
    [apply length_map | reflexivity].
Qed.

Lemma agg_floats_length (df : frame) (n : string) (v : list (option Q)) :
  rectangular df -> agg_floats df n = Returns v -> length v = len df.
Proof.
  intros Hr. unfold agg_floats, getitem, bind.
  destruct (get df n) as [c|] eqn:E; [|discriminate].
  intro H. rewrite (floats_length _ _ H). now apply (rectangular_get df n).
Qed.

Lemma nansum_fillna (v : list (option Q)) : (nansum (fillna 0 v) == nansum v)%Q.
Proof.
  unfold nansum, fillna.
  induction v as [|[q|] v IH]; simpl; [reflexivity | |].
  - fold (total (dropna (map (fun x => Some (fill 0 x)) v))) (total (dropna v)).
    now rewrite IH.
  - fold (total (dropna (map (fun x => Some (fill 0 x)) v))).
    rewrite IH. ring.
Qed.

(** X4.  In a table whose columns have one length, the daily series loses
    and repeats nothing: over the days, the deliveries add up to the
    number of records that have an identifier, and the chargebacks, the
    fraudulent chargebacks and the chargeback costs add up to the sums of
    their columns; the total of the daily costs is the total-cost KPI. *)
Theorem daily_totals_add_up (df : frame) (rows : list Daily.row) :
  rectangular df ->
  daily df = Returns rows ->
  exists ids cb fr cost,
    getitem df "DELIVERY_ID" = Returns ids /\
    agg_floats df "RECEIVED_CHARGEBACK" = Returns cb /\
    agg_floats df "FRAUD_FLAG" = Returns fr /\
    agg_floats df "CHARGEBACK_COST" = Returns cost /\
    count_total (map Daily.deliveries rows) = count (cells ids) /\
    (total (map Daily.chargebacks rows) == nansum cb)%Q /\
    (total (map Daily.fraudulent rows) == nansum fr)%Q /\
    (total (map Daily.cb_cost rows) == nansum cost)%Q /\
    (exists c, overall_cb_cost df = Returns (Fin c) /\
               (c == total (map Daily.cb_cost rows))%Q).
Proof.
  intros Hr. rewrite daily_unfold. unfold daily_records.
  destruct (getitem df "DATE") as [dates|] eqn:Edates; [|discriminate].
  destruct (getitem df "DELIVERY_ID") as [ids|] eqn:Eids; [|discriminate].
  destruct (agg_floats df "RECEIVED_CHARGEBACK") as [cb|] eqn:Ecb; [|discriminate].
  destruct (agg_floats df "FRAUD_FLAG") as [fr|] eqn:Efr; [|discriminate].
  destruct (agg_floats df "CHARGEBACK_COST") as [cost|] eqn:Ecost; [|discriminate].
  destruct (agg_floats df "SIFT_CREATE_ORDER_PA_SCORE") as [sift|] eqn:Esift;
    [|discriminate].
  destruct (agg_floats df "GOV_DOLLARS") as [gov|] eqn:Egov; [|discriminate].
  cbn [bind]. intro H. injection H as <-.
  exists ids, cb, fr, cost. repeat (split; [reflexivity|]).
  assert (Ldates : length (cells dates) = len df).
  { rewrite cells_length. revert Edates. unfold getitem.
    destruct (get df "DATE") eqn:E; [|discriminate].
    intro H. injection H as <-. now apply (rectangular_get df "DATE"). }
  assert (Lids : length (cells ids) = len df).
  { rewrite cells_length. revert Eids. unfold getitem.
    destruct (get df "DELIVERY_ID") eqn:E; [|discriminate].
    intro H. injection H as <-. now apply (rectangular_get df "DELIVERY_ID"). }
  pose proof (agg_floats_length _ _ _ Hr Ecb) as Lcb.
  pose proof (agg_floats_length _ _ _ Hr Efr) as Lfr.
  pose proof (agg_floats_length _ _ _ Hr Ecost) as Lcost.
  pose proof (agg_floats_length _ _ _ Hr Esift) as Lsift.
  pose proof (agg_floats_length _ _ _ Hr Egov) as Lgov.
  set (r5 := combine sift gov).
  set (r4 := combine cost r5).
  set (r3 := combine fr r4).
  set (r2 := combine cb r3).
  set (r1 := combine (cells ids) r2).
  set (recs := combine (cells dates) r1).
  assert (L5 : length r5 = len df)
    by (unfold r5; rewrite combine_same_length; congruence).
  assert (L4 : length r4 = len df)
    by (unfold r4; rewrite combine_same_length; congruence).
  assert (L3 : length r3 = len df)
    by (unfold r3; rewrite combine_same_length; congruence).
  assert (L2 : length r2 = len df)
    by (unfold r2; rewrite combine_same_length; congruence).
  assert (L1 : length r1 = len df)
    by (unfold r1; rewrite combine_same_length; congruence).
  assert (P1 : map (@snd cell daily_cells) recs = r1)
    by (apply map_snd_combine; transitivity (len df);
        [exact Ldates | symmetry; exact L1]).
  assert (Pids : map fst r1 = cells ids) by (apply map_fst_combine; congruence).
  assert (P2 : map snd r1 = r2) by (apply map_snd_combine; congruence).
  assert (Pcb : map fst r2 = cb) by (apply map_fst_combine; congruence).
  assert (P3 : map snd r2 = r3) by (apply map_snd_combine; congruence).
  assert (Pfr : map fst r3 = fr) by (apply map_fst_combine; congruence).
  assert (P4 : map snd r3 = r4) by (apply map_snd_combine; congruence).
  assert (Pcost : map fst r4 = cost) by (apply map_fst_combine; congruence).
  pose proof (groupby_concat (V:=daily_cells) cell_eqb cell_leb recs) as Hperm.
  rewrite P1 in Hperm.
  generalize dependent (groupby (V:=daily_cells) cell_eqb cell_leb recs). intros gs Hperm.
  assert (Hcost : (total (map Daily.cb_cost (map daily_agg gs)) == nansum cost)%Q).
  { rewrite map_map. cbn [daily_agg Daily.cb_cost].
    etransitivity; [exact (nansum_groups (fun v : daily_cells => fst (snd (snd (snd v)))) gs)|].
    rewrite (nansum_perm _ _ (Permutation_map _ Hperm)).
    rewrite <- Pcost, <- P4, <- P3, <- P2, !map_map. reflexivity. }
  split; [|split; [|split; [|split]]].
  - rewrite map_map. cbn [daily_agg Daily.deliveries].
    etransitivity; [exact (count_groups (V:=daily_cells) fst gs)|].
    unfold count. f_equal.
    rewrite (Permutation_length (filter_perm _ _ _ (Permutation_map _ Hperm))).
    rewrite <- Pids. reflexivity.
  - rewrite map_map. cbn [daily_agg Daily.chargebacks].
    etransitivity; [exact (nansum_groups (fun v : daily_cells => fst (snd v)) gs)|].
    rewrite (nansum_perm _ _ (Permutation_map _ Hperm)).
    rewrite <- Pcb, <- P2, !map_map. reflexivity.
  - rewrite map_map. cbn [daily_agg Daily.fraudulent].
    etransitivity; [exact (nansum_groups (fun v : daily_cells => fst (snd (snd v))) gs)|].
    rewrite (nansum_perm _ _ (Permutation_map _ Hperm)).
    rewrite <- Pfr, <- P3, <- P2, !map_map. reflexivity.
  - exact Hcost.
  - unfold overall_cb_cost, get_floats. revert Ecost.
    unfold agg_floats, getitem, bind.
    destruct (get df "CHARGEBACK_COST") as [c|]; [|discriminate].
    intros ->. eexists. split; [reflexivity|].
    rewrite Hcost. apply nansum_fillna.
Qed.

Lemma daily_totals_add_up_witness :
  rectangular missing_gov_df /\
  exists rows,
    daily missing_gov_df = Returns rows /\
    exists c, overall_cb_cost missing_gov_df = Returns (Fin c) /\
              (c == total (map Daily.cb_cost rows))%Q.
Proof.
  assert (Hr : rectangular missing_gov_df) by (repeat constructor).
  split; [exact Hr|]. eexists.
  assert (H : daily missing_gov_df = Returns _) by (vm_compute; reflexivity).
  split; [exact H|].
  destruct (daily_totals_add_up missing_gov_df _ Hr H)
    as (ids & cb & fr & cost & _ & _ & _ & _ & _ & _ & _ & _ & Hc).
  exact Hc.
Defined.

(** ** What preprocessing keeps and what it establishes *)

Lemma has_setitem (df : frame) (n m : string) (c : column) :
  has (setitem df n c) m = String.eqb n m || has df m.
Proof.
  unfold has. destruct (String.eqb n m) eqn:E.
  - apply String.eqb_eq in E. subst m. now rewrite get_setitem_same.
  - apply String.eqb_neq in E. now rewrite get_setitem_other.
Qed.

Lemma has_get (df : frame) (n : string) :
  has df n = true <-> exists c, get df n = Some c.
Proof.
  unfold has. destruct (get df n) as [c|]; split; try discriminate; eauto.
  intros (c & H). discriminate.
Qed.

Lemma setitem_not_nil (df : frame) (n : string) (c : column) : setitem df n c <> [].
Proof. destruct df as [|[m c'] df]; simpl; [|destruct (String.eqb m n)]; discriminate. Qed.

Lemma all_rows_get (k : nat) (df : frame) (n : string) (c : column) :
  all_rows k df -> get df n = Some c -> col_len c = k.
Proof.
  induction 1 as [|[m c'] df Hc _ IH]; simpl; [discriminate|].
  destruct (String.eqb m n); [|exact IH].
  intro E. injection E as <-. exact Hc.
Qed.

Lemma all_rows_setitem (k : nat) (df : frame) (n : string) (c : column) :
  all_rows k df -> col_len c = k -> all_rows k (setitem df n c).
Proof.
  intros H Hc. induction H as [|[m c'] df Hc' Hdf IH]; simpl.
  - now repeat constructor.
  - destruct (String.eqb m n); constructor; auto.
Qed.

Lemma all_rows_len (k : nat) (df : frame) : all_rows k df -> df <> [] -> len df = k.
Proof. destruct 1 as [|[m c] df Hc _]; [congruence | intros _; exact Hc]. Qed.

Lemma all_rows_rectangular (k : nat) (df : frame) :
  all_rows k df -> df <> [] -> rectangular df.
Proof. intros H Hne. unfold rectangular. now rewrite (all_rows_len k df H Hne). Qed.

Lemma rectangular_all_rows (df : frame) : rectangular df -> all_rows (len df) df.
Proof. exact (fun H => H). Qed.

Lemma numeric_floats (c : column) :
  is_numeric c = true -> exists v, floats c = Returns v.
Proof. destruct c; simpl; try discriminate; eauto. Qed.

Ltac not_listed H :=
  let E := fresh in
  intro E; apply H; rewrite E; simpl; repeat (try (left; reflexivity); right).

Ltac not_among :=
  let H := fresh in
  simpl; intro H; repeat (destruct H as [H|H]; [discriminate|]); exact H.

Section Stages.

Variable read_number : string -> option Q.
Variable read_time : string -> option Z.

(** *** Numeric coercion *)

Lemma coerce_get (df : frame) (m n : string) :
  get (coerce read_number df m) n
  = if String.eqb m n then option_map (to_numeric read_number) (get df n)
    else get df n.
Proof.
  unfold coerce. destruct (String.eqb m n) eqn:E.
  - apply String.eqb_eq in E. subst m.
    destruct (get df n) as [c|] eqn:G; simpl.
    + apply get_setitem_same.
    + exact G.
  - apply String.eqb_neq in E.
    destruct (get df m); [now apply get_setitem_other | reflexivity].
Qed.

Lemma coerce_all_get_other (names : list string) (df : frame) (n : string) :
  ~ In n names -> get (fold_left (coerce read_number) names df) n = get df n.
Proof.
  revert df. induction names as [|m names IH]; simpl; intros df H; [reflexivity|].
  rewrite IH by (intro Hn; apply H; now right). rewrite coerce_get.
  destruct (String.eqb m n) eqn:E; [|reflexivity].
  apply String.eqb_eq in E. exfalso. apply H. now left.
Qed.

Lemma coerce_all_has (names : list string) (df : frame) (n : string) :
  has (fold_left (coerce read_number) names df) n = has df n.
Proof.
  revert df. induction names as [|m names IH]; simpl; intros df; [reflexivity|].
  rewrite IH. unfold has. rewrite coerce_get.
  destruct (String.eqb m n); [|reflexivity]. now destruct (get df n).
Qed.

Lemma numeric_has (df : frame) (n : string) :
  has (numeric read_number df) n = has df n.
Proof. apply coerce_all_has. Qed.

Lemma numeric_get_other (df : frame) (n : string) :
  ~ In n numeric_cols -> get (numeric read_number df) n = get df n.
Proof. apply coerce_all_get_other. Qed.

Lemma coerce_all_rows (k : nat) (df : frame) (m : string) :
  all_rows k df -> all_rows k (coerce read_number df m).
Proof.
  intro H. unfold coerce. destruct (get df m) as [c|] eqn:E; [|exact H].
  apply all_rows_setitem; [exact H|].
  rewrite (proj2 (to_numeric_numeric _ c)). now apply (all_rows_get k df m).
Qed.

Lemma numeric_all_rows (k : nat) (df : frame) :
  all_rows k df -> all_rows k (numeric read_number df).
Proof.
  unfold numeric. generalize numeric_cols. intros names. revert df.
  induction names as [|m names IH]; simpl; intros df H; [exact H|].
  apply IH. now apply coerce_all_rows.
Qed.

Lemma numeric_not_nil (df : frame) : df <> [] -> numeric read_number df <> [].
Proof.
  unfold numeric. generalize numeric_cols. intros names. revert df.
  induction names as [|m names IH]; simpl; intros df H; [exact H|].
  apply IH. unfold coerce. destruct (get df m); [apply setitem_not_nil | exact H].
Qed.

(** *** Calendar fields *)

Lemma calendar_returns (df : frame) :
  (exists df', calendar read_time df = Returns df') <-> has df "CREATED_AT" = true.
Proof.
  unfold calendar, has. destruct (get df "CREATED_AT"); split; eauto.
  - intros (df' & H). discriminate.
  - discriminate.
Qed.

Lemma calendar_get_other (df df' : frame) (n : string) :
  calendar read_time df = Returns df' ->
  n <> "CREATED_AT"%string -> n <> "DATE"%string -> n <> "HOUR"%string ->
  n <> "DOW"%string -> n <> "DOW_LABEL"%string ->
  get df' n = get df n.
Proof.
  unfold calendar. destruct (get df "CREATED_AT") as [c|]; [|discriminate].
  intros H H1 H2 H3 H4 H5. injection H as <-.
  now rewrite !get_setitem_other by congruence.
Qed.

Lemma calendar_date (df df' : frame) :
  calendar read_time df = Returns df' ->
  exists v, get df' "DATE" = Some (DateCol v).
Proof.
  unfold calendar. destruct (get df "CREATED_AT") as [c|]; [|discriminate].
  intros H. injection H as <-.
  rewrite !get_setitem_other by discriminate. rewrite get_setitem_same. eauto.
Qed.

Lemma calendar_all_rows (k : nat) (df df' : frame) :
  calendar read_time df = Returns df' -> all_rows k df ->
  all_rows k df' /\ df' <> [].
Proof.
  unfold calendar. destruct (get df "CREATED_AT") as [c|] eqn:E; [|discriminate].
  intros H Hk. injection H as <-. split; [|apply setitem_not_nil].
  assert (Hc : length (to_datetime read_time c) = k).
  { rewrite to_datetime_length. now apply (all_rows_get k df "CREATED_AT"). }
  repeat apply all_rows_setitem; try exact Hk; simpl; now rewrite ?length_map.
Qed.

(** *** Labels *)

Lemma labels_returns (df : frame) : exists df', labels df = Returns df'.
Proof.
  unfold labels. cbv zeta. unfold getitem. rewrite get_setitem_same. cbn [bind].
  eauto.
Qed.

Lemma labels_get_other (df df' : frame) (n : string) :
  labels df = Returns df' ->
  n <> "RECEIVED_CHARGEBACK"%string -> n <> "IS_FRAUDULENT_CHARGEBACK"%string ->
  n <> "FRAUD_FLAG"%string ->
  get df' n = get df n.
Proof.
  unfold labels. cbv zeta. unfold getitem. rewrite get_setitem_same. cbn [bind].
  intros H H1 H2 H3. injection H as <-.
  now rewrite !get_setitem_other by congruence.
Qed.

Lemma labels_binary (df df' : frame) :
  labels df = Returns df' ->
  (exists c, get df' "RECEIVED_CHARGEBACK" = Some c /\ binary c) /\
  (exists c, get df' "FRAUD_FLAG" = Some c /\ binary c).
Proof.
  intro H. split.
  - revert H. unfold labels. cbv zeta. unfold getitem.
    rewrite get_setitem_same. cbn [bind]. intro H. injection H as <-.
    rewrite !get_setitem_other by discriminate. rewrite get_setitem_same.
    eexists. split; [reflexivity|]. apply label_binary.
  - destruct (labels_fraud_flag _ _ H) as (v & Hv & Hb).
    eexists. split; [exact Hv|]. now exists v.
Qed.

Lemma label_all_rows (k : nat) (df : frame) (n : string) :
  all_rows k df -> df <> [] -> col_len (label df n) = k.
Proof.
  intros Hk Hne. unfold label. destruct (get df n) as [c|] eqn:E; simpl.
  - rewrite to_bool_int_length. now apply (all_rows_get k df n).
  - rewrite repeat_length. now apply all_rows_len.
Qed.

Lemma labels_all_rows (k : nat) (df df' : frame) :
  labels df = Returns df' -> all_rows k df -> df <> [] ->
  all_rows k df' /\ df' <> [].
Proof.
  unfold labels. cbv zeta. unfold getitem. rewrite get_setitem_same. cbn [bind].
  intros H Hk Hne. injection H as <-. split; [|apply setitem_not_nil].
  assert (H1 : all_rows k (setitem df "RECEIVED_CHARGEBACK"
                             (label df "RECEIVED_CHARGEBACK"))).
  { apply all_rows_setitem; [exact Hk | now apply label_all_rows]. }
  assert (H2 : col_len (label (setitem df "RECEIVED_CHARGEBACK"
                                 (label df "RECEIVED_CHARGEBACK"))
                          "IS_FRAUDULENT_CHARGEBACK") = k).
  { apply label_all_rows; [exact H1 | apply setitem_not_nil]. }
  repeat apply all_rows_setitem; auto using label_all_rows.
Qed.

(** *** Money *)

Lemma money_returns (df : frame) : exists df', money read_number df = Returns df'.
Proof.
  unfold money, cents_to_dollars, bind.
  destruct (get df "GOV") as [c|]; [|eauto].
  destruct (numeric_floats (col_fillna0 (to_numeric read_number c))) as (v & ->);
    [|eauto].
  destruct c; reflexivity.
Qed.

Lemma money_all_rows (k : nat) (df df' : frame) :
  money read_number df = Returns df' -> all_rows k df -> df <> [] ->
  all_rows k df' /\ df' <> [].
Proof.
  unfold money, cents_to_dollars, bind. intros H Hk Hne.
  destruct (get df "GOV") as [c|] eqn:E.
  - assert (Hc : col_len (col_fillna0 (to_numeric read_number c)) = k).
    { pose proof (all_rows_get _ _ _ _ Hk E) as Hc.
      destruct c; simpl in *; unfold fillna; now rewrite ?length_map. }
    destruct (floats _) as [v|] eqn:Ev; [|discriminate].
    injection H as <-. split; [|apply setitem_not_nil].
    repeat apply all_rows_setitem; auto.
    simpl. rewrite length_map. now rewrite (floats_length _ _ Ev).
  - injection H as <-. split; [|apply setitem_not_nil].
    apply all_rows_setitem; [exact Hk|].
    simpl. rewrite repeat_length. now apply all_rows_len.
Qed.

Lemma has_setitem_mono (df : frame) (n m : string) (c : column) :
  has df m = true -> has (setitem df n c) m = true.
Proof. intro H. rewrite has_setitem, H. apply orb_true_r. Qed.

Lemma calendar_has (df df' : frame) (n : string) :
  calendar read_time df = Returns df' -> has df n = true -> has df' n = true.
Proof.
  unfold calendar. destruct (get df "CREATED_AT") as [c|]; [|discriminate].
  intros H Hn. injection H as <-. now repeat apply has_setitem_mono.
Qed.

Lemma labels_has (df df' : frame) (n : string) :
  labels df = Returns df' -> has df n = true -> has df' n = true.
Proof.
  unfold labels. cbv zeta. unfold getitem. rewrite get_setitem_same. cbn [bind].
  intros H Hn. injection H as <-. now repeat apply has_setitem_mono.
Qed.

Lemma money_has (df df' : frame) (n : string) :
  money read_number df = Returns df' -> has df n = true -> has df' n = true.
Proof.
  unfold money, bind. intros H Hn. destruct (get df "GOV") as [c|].
  - destruct (cents_to_dollars _); [|discriminate]. injection H as <-.
    now repeat apply has_setitem_mono.
  - injection H as <-. now apply has_setitem_mono.
Qed.

(** *** The pipeline *)

Lemma preprocess_stages (raw df : frame) :
  preprocess read_number read_time raw = Returns df ->
  exists df1 df2,
    calendar read_time raw = Returns df1 /\
    labels (numeric read_number df1) = Returns df2 /\
    money read_number df2 = Returns df.
Proof.
  unfold preprocess, bind.
  destruct (calendar read_time raw) as [df1|]; [|discriminate].
  destruct (labels (numeric read_number df1)) as [df2|] eqn:E; [|discriminate].
  intro H. exists df1, df2. auto.
Qed.

Lemma preprocess_all_rows (k : nat) (raw df : frame) :
  preprocess read_number read_time raw = Returns df ->
  all_rows k raw -> all_rows k df /\ df <> [].
Proof.
  intros H Hk. destruct (preprocess_stages _ _ H) as (df1 & df2 & H1 & H2 & H3).
  destruct (calendar_all_rows k _ _ H1 Hk) as [K1 N1].
  destruct (labels_all_rows k _ _ H2 (numeric_all_rows k _ K1) (numeric_not_nil _ N1))
    as [K2 N2].
  exact (money_all_rows k _ _ H3 K2 N2).
Qed.

Lemma preprocess_has (raw df : frame) (n : string) :
  preprocess read_number read_time raw = Returns df ->
  ~ In n written -> has df n = has raw n.
Proof.
  intros H Hn. destruct (preprocess_stages _ _ H) as (df1 & df2 & H1 & H2 & H3).
  transitivity (has df2 n).
  { unfold has. now rewrite (money_get_other _ _ _ n H3) by not_listed Hn. }
  transitivity (has (numeric read_number df1) n).
  { unfold has. now rewrite (labels_get_other _ _ n H2) by not_listed Hn. }
  rewrite numeric_has.
  unfold has. now rewrite (calendar_get_other _ _ n H1) by not_listed Hn.
Qed.

Lemma preprocess_get_other (raw df : frame) (n : string) :
  preprocess read_number read_time raw = Returns df ->
  ~ In n written -> ~ In n numeric_cols -> get df n = get raw n.
Proof.
  intros H Hn Hm. destruct (preprocess_stages _ _ H) as (df1 & df2 & H1 & H2 & H3).
  rewrite (money_get_other _ _ _ n H3) by not_listed Hn.
  rewrite (labels_get_other _ _ n H2) by not_listed Hn.
  rewrite numeric_get_other by exact Hm.
  apply (calendar_get_other _ _ n H1); not_listed Hn.
Qed.

Lemma preprocess_date (raw df : frame) :
  preprocess read_number read_time raw = Returns df ->
  exists v, get df "DATE" = Some (DateCol v).
Proof.
  intros H. destruct (preprocess_stages _ _ H) as (df1 & df2 & H1 & H2 & H3).
  rewrite (money_get_other _ _ _ "DATE" H3) by discriminate.
  rewrite (labels_get_other _ _ "DATE" H2) by discriminate.
  rewrite numeric_get_other by not_among.
  exact (calendar_date _ _ H1).
Qed.

Lemma preprocess_binary (raw df : frame) :
  preprocess read_number read_time raw = Returns df ->
  (exists c, get df "RECEIVED_CHARGEBACK" = Some c /\ binary c) /\
  (exists c, get df "FRAUD_FLAG" = Some c /\ binary c).
Proof.
  intros H. destruct (preprocess_stages _ _ H) as (df1 & df2 & H1 & H2 & H3).
  rewrite (money_get_other _ _ _ "RECEIVED_CHARGEBACK" H3) by discriminate.
  rewrite (money_get_other _ _ _ "FRAUD_FLAG" H3) by discriminate.
  exact (labels_binary _ _ H2).
Qed.

End Stages.

(** ** The preprocessing block as a whole *)

(** X5.  Preprocessing needs the column CREATED_AT and nothing else: on a
    table that has it, whatever its cells and the other columns hold,
    preprocessing returns; on a table without it, it raises. *)
Theorem preprocess_needs_created_at_only (read_number : string -> option Q)
  (read_time : string -> option Z) (raw : frame) :
  (exists df, preprocess read_number read_time raw = Returns df)
  <-> has raw "CREATED_AT" = true.
Proof.
  split.
  - intros (df & H). destruct (preprocess_stages _ _ _ _ H) as (df1 & _ & H1 & _).
    apply (calendar_returns read_time). eauto.
  - intro H. apply (calendar_returns read_time) in H. destruct H as (df1 & H1).
    destruct (labels_returns (numeric read_number df1)) as (df2 & H2).
    destruct (money_returns read_number df2) as (df & H3).
    exists df. unfold preprocess. rewrite H1. cbn [bind]. rewrite H2. exact H3.
Qed.

(** X6.  Preprocessing keeps the table rectangular and keeps its rows:
    when all the columns of the input have one length, all the columns of
    the result, the added ones included, have that length. *)
Theorem preprocess_keeps_the_rows (read_number : string -> option Q)
  (read_time : string -> option Z) (raw df : frame) :
  rectangular raw ->
  preprocess read_number read_time raw = Returns df ->
  rectangular df /\ len df = len raw.
Proof.
  intros Hr H.
  destruct (preprocess_all_rows _ _ (len raw) _ _ H Hr) as [Hk Hne].
  split; [now apply (all_rows_rectangular (len raw)) | now apply all_rows_len].
Qed.

Lemma preprocess_keeps_the_rows_witness :
  rectangular missing_gov /\
  preprocess no_number no_time missing_gov = Returns missing_gov_df /\
  rectangular missing_gov_df /\ len missing_gov_df = len missing_gov.
Proof.
  assert (Hr : rectangular missing_gov) by (repeat constructor).
  assert (H : preprocess no_number no_time missing_gov = Returns missing_gov_df)
    by (vm_compute; reflexivity).
  split; [exact Hr|]. split; [exact H|].
  exact (preprocess_keeps_the_rows no_number no_time _ _ Hr H).
Defined.

(** X7.  Preprocessing drops no column, adds the calendar fields, the two
    flags, the fraud label and the order value in major units, and leaves
    untouched every column that is neither one it writes nor one declared
    numeric. *)
Theorem preprocess_touches_declared_columns_only (read_number : string -> option Q)
  (read_time : string -> option Z) (raw df : frame) :
  preprocess read_number read_time raw = Returns df ->
  (forall n, has raw n = true -> has df n = true) /\
  (forall n, In n ["DATE"; "HOUR"; "DOW"; "DOW_LABEL"; "RECEIVED_CHARGEBACK";
                   "IS_FRAUDULENT_CHARGEBACK"; "FRAUD_FLAG"; "GOV_DOLLARS"]%string ->
             has df n = true) /\
  (forall n, ~ In n written -> ~ In n numeric_cols -> get df n = get raw n).
Proof.
  intro H. destruct (preprocess_stages _ _ _ _ H) as (df1 & df2 & H1 & H2 & H3).
  split; [|split].
  - intros n Hn. apply (money_has _ _ _ _ H3), (labels_has _ _ _ H2).
    rewrite numeric_has. now apply (calendar_has _ _ _ _ H1).
  - assert (C : forall n, In n ["DATE"; "HOUR"; "DOW"; "DOW_LABEL"]%string ->
                          has df1 n = true).
    { revert H1. unfold calendar.
      destruct (get raw "CREATED_AT") as [c|]; [|discriminate].
      intro E. injection E as <-. intros n Hn. rewrite !has_setitem.
      simpl in Hn.
      repeat (destruct Hn as [<-|Hn]; [reflexivity|]). contradiction. }
    assert (L : forall n, In n ["RECEIVED_CHARGEBACK"; "IS_FRAUDULENT_CHARGEBACK";
                                "FRAUD_FLAG"]%string -> has df2 n = true).
    { revert H2. unfold labels. cbv zeta. unfold getitem.
      rewrite get_setitem_same. cbn [bind].
      intro E. injection E as <-. intros n Hn. rewrite !has_setitem.
      simpl in Hn.
      repeat (destruct Hn as [<-|Hn]; [reflexivity|]). contradiction. }
    intros n Hn. simpl in Hn.
    destruct Hn as [<-|[<-|[<-|[<-|[<-|[<-|[<-|[<-|[]]]]]]]]].
    1-4: apply (money_has _ _ _ _ H3), (labels_has _ _ _ H2);
         rewrite numeric_has; apply C; simpl; tauto.
    1-3: apply (money_has _ _ _ _ H3), L; simpl; tauto.
    destruct (money_gov_dollars _ _ _ H3) as (g & Hg). unfold has. now rewrite Hg.
  - intros n Hn Hm. now apply (preprocess_get_other read_number read_time raw).
Qed.

Lemma preprocess_touches_declared_columns_only_witness :
  preprocess no_number no_time missing_gov = Returns missing_gov_df /\
  get missing_gov_df "PLATFORM" = get missing_gov "PLATFORM".
Proof.
  assert (H : preprocess no_number no_time missing_gov = Returns missing_gov_df)
    by (vm_compute; reflexivity).
  split; [exact H|].
  apply (proj2 (proj2 (preprocess_touches_declared_columns_only _ _ _ _ H))).
  - not_among.
  - not_among.
Defined.

(** ** Rates of counts *)

Lemma to_float_int (z : Z) :
  to_float (PyInt z) = Raises \/ to_float (PyInt z) = Returns (Fin (inject_Z z)).
Proof. unfold to_float. destruct (Text.round_double (inject_Z z)); auto. Qed.

Lemma to_float_moderate (z : Z) :
  Z.abs z < 2 ^ 1023 -> to_float (PyInt z) = Returns (Fin (inject_Z z)).
Proof.
  intro Hz. unfold to_float, Text.round_double.
  destruct (Qle_bool (Qabs (inject_Z z)) (Text.pow2 (-1075))); [reflexivity|].
  destruct (Qle_bool (Text.pow2 1024 - Text.pow2 970) (Qabs (inject_Z z))) eqn:E;
    [|reflexivity].
  exfalso. apply Qle_bool_iff in E.
  assert (Hb : (inject_Z (2 ^ 1023) <= Text.pow2 1024 - Text.pow2 970)%Q)
    by (vm_compute; discriminate).
  pose proof (Qle_trans _ _ _ Hb E) as Hle.
  unfold Qle, Qabs, inject_Z in Hle. cbn [Qnum Qden] in Hle. lia.
Qed.

Lemma round_double_unit (q : Q) :
  (0 <= q <= 1)%Q ->
  exists r, Text.round_double q = Fin r /\ (0 <= r <= 1)%Q /\
            (q == 0 \/ ~ q <= Text.pow2 (-1075) -> r == q)%Q.
Proof.
  intros [H0 H1]. unfold Text.round_double.
  assert (Ea : Qle_bool (Qabs q) (Text.pow2 (-1075)) = Qle_bool q (Text.pow2 (-1075)))
    by (apply Qle_bool_eq_l, Qabs_pos, H0).
  assert (Eb : Qle_bool (Text.pow2 1024 - Text.pow2 970) (Qabs q)
               = Qle_bool (Text.pow2 1024 - Text.pow2 970) q)
    by (apply Qleb_comp; [reflexivity | apply Qabs_pos, H0]).
  rewrite Ea, Eb.
  destruct (Qle_bool q (Text.pow2 (-1075))) eqn:E.
  - exists 0%Q. split; [reflexivity|]. split; [lra|].
    apply Qle_bool_iff in E. intros [Hq|Hq]; [now rewrite Hq | contradiction].
  - destruct (Qle_bool (Text.pow2 1024 - Text.pow2 970) q) eqn:E'.
    + exfalso. apply Qle_bool_iff in E'.
      assert (Hb : (1 < Text.pow2 1024 - Text.pow2 970)%Q)
        by (vm_compute; reflexivity).
      lra.
    + exists q. split; [reflexivity|]. split; [lra | reflexivity].
Qed.

Lemma inject_Z_pos (z : Z) : 0 < z -> (0 < inject_Z z)%Q.
Proof. intro H. change 0%Q with (inject_Z 0). now rewrite <- Zlt_Qlt. Qed.

Lemma inject_Z_nonneg (z : Z) : 0 <= z -> (0 <= inject_Z z)%Q.
Proof. intro H. change 0%Q with (inject_Z 0). now rewrite <- Zle_Qle. Qed.

Lemma quotient_unit (n d : Z) :
  0 <= n <= d -> 0 < d -> (0 <= inject_Z n / inject_Z d <= 1)%Q.
Proof.
  intros Hn Hd. pose proof (inject_Z_pos d Hd) as Hd'.
  assert (Hn0 : (0 <= inject_Z n)%Q) by (apply inject_Z_nonneg; lia).
  assert (Hnd : (inject_Z n <= inject_Z d)%Q) by (rewrite <- Zle_Qle; lia).
  split.
  - apply Qle_shift_div_l; [exact Hd' | lra].
  - apply Qle_shift_div_r; [exact Hd' | lra].
Qed.

(** [safe_div] on two counts, the first no greater than the second. *)
Lemma safe_div_counts (n d : Z) :
  0 <= n <= d ->
  exists q, safe_div (PyInt n) (PyInt d) = Fin q /\ (0 <= q <= 1)%Q /\
            (0 < d < 2 ^ 1023 -> (q == inject_Z n / inject_Z d)%Q).
Proof.
  intros Hn. unfold safe_div. cbn [truth].
  destruct (Z.eqb_spec d 0) as [->|Hd]; cbn [negb].
  - exists 0%Q. split; [reflexivity|]. split; [lra | lia].
  - assert (Hpos : 0 < d) by lia.
    destruct (round_double_unit _ (quotient_unit n d Hn Hpos)) as (r & Er & Hr & Hx).
    assert (Hdiv : float_div (Fin (inject_Z n)) (Fin (inject_Z d)) = Returns (Fin r)).
    { unfold float_div.
      destruct (Qeq_bool (inject_Z d) 0) eqn:E; [|now rewrite Er].
      apply Qeq_bool_iff in E. unfold Qeq, inject_Z in E. cbn [Qnum Qden] in E. lia. }
    destruct (to_float_int n) as [En|En], (to_float_int d) as [Ed|Ed];
      rewrite En; cbn [bind]; rewrite ?Ed; cbn [bind]; rewrite ?Hdiv.
    1-3: exists 0%Q; split; [reflexivity|]; split; [lra|]; intro Hb;
         rewrite ?to_float_moderate in En by lia;
         rewrite ?to_float_moderate in Ed by lia; discriminate.
    exists r. split; [reflexivity|]. split; [exact Hr|].
    intros Hb. apply Hx.
    destruct (Z.eq_dec n 0) as [->|Hn0]; [left; unfold Qdiv; ring | right].
    intro Hle.
    assert (Hp : (Text.pow2 (-1075) * inject_Z d < 1)%Q).
    { assert (Hd2 : (inject_Z d <= inject_Z (2 ^ 1023))%Q)
        by (rewrite <- Zle_Qle; lia).
      assert (Hc : (Text.pow2 (-1075) * inject_Z (2 ^ 1023) < 1)%Q)
        by (vm_compute; reflexivity).
      assert (Hq : (0 <= Text.pow2 (-1075))%Q) by (vm_compute; discriminate).
      eapply Qle_lt_trans; [|exact Hc].
      rewrite !(Qmult_comm (Text.pow2 (-1075))).
      apply Qmult_le_compat_r; [exact Hd2 | exact Hq]. }
    assert (Hn1 : (1 <= inject_Z n)%Q).
    { change 1%Q with (inject_Z 1). rewrite <- Zle_Qle. lia. }
    pose proof (inject_Z_pos d Hpos) as Hd'.
    assert (Hmul : (inject_Z n / inject_Z d * inject_Z d
                    <= Text.pow2 (-1075) * inject_Z d)%Q).
    { apply Qmult_le_compat_r; [exact Hle | lra]. }
    assert (Hid : (inject_Z n / inject_Z d * inject_Z d == inject_Z n)%Q).
    { field. lra. }
    rewrite Hid in Hmul. lra.
Qed.

Lemma Qabs_quotient (n d : Z) :
  d <> 0 -> (Qabs (inject_Z n / inject_Z d) <= Qabs (inject_Z n))%Q.
Proof.
  intro Hd. unfold Qdiv. rewrite Qabs_Qmult, Qabs_Qinv.
  assert (H1 : (1 <= Qabs (inject_Z d))%Q).
  { unfold Qle, Qabs, inject_Z. cbn [Qnum Qden]. lia. }
  pose proof (Qabs_nonneg (inject_Z n)) as H0.
  apply Qle_shift_div_r; [lra|].
  assert (H : (1 * Qabs (inject_Z n) <= Qabs (inject_Z d) * Qabs (inject_Z n))%Q)
    by (apply Qmult_le_compat_r; assumption).
  lra.
Qed.

(** [safe_div] on two integers is a finite float, and is not negative when
    they are not. *)
Lemma to_float_int_finite (z : Z) :
  to_float (PyInt z) = Raises \/
  (to_float (PyInt z) = Returns (Fin (inject_Z z)) /\
   forall b, Text.round_double (inject_Z z) <> Inf b).
Proof.
  unfold to_float. destruct (Text.round_double (inject_Z z)); auto.
  all: right; split; [reflexivity | discriminate].
Qed.

Lemma safe_div_ints (n d : Z) :
  exists q, safe_div (PyInt n) (PyInt d) = Fin q /\
            (0 <= n -> 0 <= d -> (0 <= q)%Q).
Proof.
  unfold safe_div. cbn [truth].
  destruct (Z.eqb_spec d 0) as [->|Hd]; cbn [negb].
  { exists 0%Q. split; [reflexivity | intros; lra]. }
  destruct (to_float_int_finite n) as [En|[En Hfin]]; rewrite En; cbn [bind].
  { exists 0%Q. split; [reflexivity | intros; lra]. }
  destruct (to_float_int_finite d) as [Ed|[Ed _]]; rewrite Ed; cbn [bind].
  { exists 0%Q. split; [reflexivity | intros; lra]. }
  unfold float_div.
  destruct (Qeq_bool (inject_Z d) 0) eqn:E.
  { exists 0%Q. split; [reflexivity | intros; lra]. }
  unfold Text.round_double.
  destruct (Qle_bool (Qabs (inject_Z n / inject_Z d)) (Text.pow2 (-1075))).
  { exists 0%Q. split; [reflexivity | intros; lra]. }
  destruct (Qle_bool (Text.pow2 1024 - Text.pow2 970)
              (Qabs (inject_Z n / inject_Z d))) eqn:E2.
  - exfalso. apply Qle_bool_iff in E2.
    pose proof (Qle_trans _ _ _ E2 (Qabs_quotient n d Hd)) as Hbig.
    apply Qle_bool_iff in Hbig.
    revert Hfin. unfold Text.round_double. rewrite Hbig.
    destruct (Qle_bool (Qabs (inject_Z n)) (Text.pow2 (-1075))) eqn:E0.
    + intros _. apply Qle_bool_iff in E0, Hbig.
      assert (Hb : (Text.pow2 (-1075) < Text.pow2 1024 - Text.pow2 970)%Q)
        by (vm_compute; reflexivity).
      lra.
    + intro H. now apply (H (negb (Qle_bool 0 (inject_Z n)))).
  - eexists. split; [reflexivity|]. intros Hn0 Hd0.
    pose proof (inject_Z_nonneg n Hn0).
    assert (Hpos : (0 < inject_Z d)%Q) by (apply inject_Z_pos; lia).
    apply Qle_shift_div_l; [exact Hpos | lra].
Qed.

(** X8.  On two integers [safe_div] gives a finite float, never NaN or an
    infinity, which is not negative when they are not; on counts
    [0 <= n <= d] the rate lies between 0 and 1, and it is the quotient
    [n / d] when [d] is positive and below [2 ^ 1023]. *)
Theorem safe_div_on_integers (n d : Z) :
  exists q, safe_div (PyInt n) (PyInt d) = Fin q /\
            (0 <= n -> 0 <= d -> (0 <= q)%Q) /\
            (0 <= n <= d -> (0 <= q <= 1)%Q) /\
            (0 <= n <= d -> 0 < d < 2 ^ 1023 ->
             (q == inject_Z n / inject_Z d)%Q).
Proof.
  destruct (safe_div_ints n d) as (q & Hq & Hpos).
  exists q. split; [exact Hq|]. split; [exact Hpos|]. split.
  - intro Hn. destruct (safe_div_counts n d Hn) as (q' & Hq' & Hu & _).
    rewrite Hq in Hq'. injection Hq' as ->. exact Hu.
  - intros Hn Hd. destruct (safe_div_counts n d Hn) as (q' & Hq' & _ & Hx).
    rewrite Hq in Hq'. injection Hq' as ->. now apply Hx.
Qed.

(** ** KPIs of a preprocessed table *)







Section Kpis.

Variable read_number : string -> option Q.
Variable read_time : string -> option Z.

Lemma preprocess_numeric (raw df : frame) (n : string) :
  preprocess read_number read_time raw = Returns df ->
  In n numeric_cols -> column_is (fun c => is_numeric c = true) df n.
Proof.
  intros H Hn. destruct (preprocess_stages _ _ _ _ H) as (df1 & df2 & H1 & H2 & H3).
  destruct (String.eqb n "GOV") eqn:E.
  - apply String.eqb_eq in E. subst n. intros c Hc. revert H3 Hc.
    unfold money, cents_to_dollars, bind.
    destruct (get df2 "GOV") as [g|] eqn:G.
    + destruct (floats _); [|discriminate]. intro E. injection E as <-.
      rewrite get_setitem_other by discriminate. rewrite get_setitem_same.
      intro E. injection E as <-. destruct g; reflexivity.
    + intro E. injection E as <-.
      rewrite get_setitem_other by discriminate. congruence.
  - apply String.eqb_neq in E.
    assert (Hw : n <> "GOV_DOLLARS"%string /\ n <> "RECEIVED_CHARGEBACK"%string /\
                 n <> "IS_FRAUDULENT_CHARGEBACK"%string /\ n <> "FRAUD_FLAG"%string).
    { simpl in Hn.
      repeat (destruct Hn as [<-|Hn];
              [repeat split; discriminate|]). contradiction. }
    destruct Hw as (W1 & W2 & W3 & W4).
    eapply money_column_is; [exact H3 | exact E | exact W1 |].
    eapply labels_column_is; [exact H2 | exact W2 | exact W3 | exact W4 |].
    apply coerce_all_numeric. now left.
Qed.


End Kpis.


(** ** The daily series of a preprocessed table *)

Lemma agg_floats_has (df : frame) (n : string) (v : list (option Q)) :
  agg_floats df n = Returns v -> has df n = true.
Proof.
  unfold agg_floats, getitem, has, bind. now destruct (get df n).
Qed.

Lemma getitem_has (df : frame) (n : string) (c : column) :
  getitem df n = Returns c -> has df n = true.
Proof. unfold getitem, has. now destruct (get df n). Qed.

Lemma agg_floats_numeric (df : frame) (n : string) (c : column) :
  get df n = Some c -> is_numeric c = true ->
  exists v, agg_floats df n = Returns v.
Proof.
  intros G Hc. unfold agg_floats, getitem. rewrite G. cbn [bind].
  now apply numeric_floats.
Qed.

Lemma binary_numeric (c : column) : binary c -> is_numeric c = true.
Proof. intros (v & -> & _). reflexivity. Qed.

Section DailyOfPreprocessed.

Variable read_number : string -> option Q.
Variable read_time : string -> option Z.

(** X10.  On a preprocessed table the daily series is built exactly when
    the input has the three columns DELIVERY_ID, CHARGEBACK_COST and
    SIFT_CREATE_ORDER_PA_SCORE; without one of them it raises.  The other
    columns it reads are those that preprocessing writes. *)
Theorem daily_needs_three_input_columns (raw df : frame) :
  preprocess read_number read_time raw = Returns df ->
  ((exists rows, daily df = Returns rows) <->
   has raw "DELIVERY_ID" = true /\
   has raw "CHARGEBACK_COST" = true /\
   has raw "SIFT_CREATE_ORDER_PA_SCORE" = true).
Proof.
  intro H.
  assert (P : forall n, ~ In n written -> has df n = has raw n)
    by (intros n Hn; now apply (preprocess_has read_number read_time raw df n)).
  assert (H1 : has df "DELIVERY_ID" = has raw "DELIVERY_ID") by (apply P; not_among).
  assert (H2 : has df "CHARGEBACK_COST" = has raw "CHARGEBACK_COST")
    by (apply P; not_among).
  assert (H3 : has df "SIFT_CREATE_ORDER_PA_SCORE"
               = has raw "SIFT_CREATE_ORDER_PA_SCORE") by (apply P; not_among).
  rewrite <- H1, <- H2, <- H3. clear P H1 H2 H3.
  split.
  - intros (rows & Hd). rewrite daily_unfold in Hd. unfold daily_records in Hd.
    destruct (getitem df "DATE") as [dates|]; [|discriminate].
    destruct (getitem df "DELIVERY_ID") as [ids|] eqn:E1; [|discriminate].
    destruct (agg_floats df "RECEIVED_CHARGEBACK") as [cb|]; [|discriminate].
    destruct (agg_floats df "FRAUD_FLAG") as [fr|]; [|discriminate].
    destruct (agg_floats df "CHARGEBACK_COST") as [cost|] eqn:E2; [|discriminate].
    destruct (agg_floats df "SIFT_CREATE_ORDER_PA_SCORE") as [sift|] eqn:E3;
      [|discriminate].
    split; [exact (getitem_has _ _ _ E1)|].
    split; [exact (agg_floats_has _ _ _ E2) | exact (agg_floats_has _ _ _ E3)].
  - intros (D1 & D2 & D3).
    apply has_get in D1, D2, D3.
    destruct D1 as (ids & G1), D2 as (c2 & G2), D3 as (c3 & G3).
    destruct (preprocess_date _ _ _ _ H) as (dv & Gd).
    destruct (preprocess_binary _ _ _ _ H) as ((cb & Gcb & Bcb) & (fr & Gfr & Bfr)).
    destruct (preprocess_gov_dollars _ _ _ _ H) as (g & Gg).
    destruct (agg_floats_numeric df _ cb Gcb (binary_numeric _ Bcb)) as (vcb & Ecb).
    destruct (agg_floats_numeric df _ fr Gfr (binary_numeric _ Bfr)) as (vfr & Efr).
    destruct (agg_floats_numeric df _ c2 G2) as (v2 & E2).
    { apply (preprocess_numeric _ _ raw df "CHARGEBACK_COST" H); [simpl; tauto | exact G2]. }
    destruct (agg_floats_numeric df _ c3 G3) as (v3 & E3).
    { apply (preprocess_numeric _ _ raw df "SIFT_CREATE_ORDER_PA_SCORE" H);
        [simpl; tauto | exact G3]. }
    destruct (agg_floats_numeric df _ (NumCol g) Gg eq_refl) as (vg & Eg).
    eexists. rewrite daily_unfold. unfold daily_records, getitem.
    rewrite Gd, G1. cbn [bind]. rewrite Ecb. cbn [bind]. rewrite Efr. cbn [bind].
    rewrite E2. cbn [bind]. rewrite E3. cbn [bind]. rewrite Eg. cbn [bind].
    reflexivity.
Qed.

End DailyOfPreprocessed.

Lemma daily_needs_three_input_columns_witness :
  preprocess no_number no_time missing_gov = Returns missing_gov_df /\
  exists rows, daily missing_gov_df = Returns rows.
Proof.
  assert (H : preprocess no_number no_time missing_gov = Returns missing_gov_df)
    by (vm_compute; reflexivity).
  split; [exact H|].
  apply (daily_needs_three_input_columns no_number no_time _ _ H).
  repeat split; vm_compute; reflexivity.
Defined.

(** ** Daily rates *)

Lemma filter_notna_all (l : list cell) :
  Forall (fun c => notna c = true) l -> filter notna l = l.
Proof. intro H. apply filter_all. now apply Forall_forall. Qed.

Lemma nansum_unit (vs : list (option Q)) :
  Forall unit_rate vs ->
  (0 <= nansum vs <= inject_Z (Z.of_nat (length vs)))%Q.
Proof.
  intro H. destruct (dropna_unit vs H) as [Hl Hf].
  unfold nansum. rewrite <- Hl. now apply total_unit.
Qed.

Lemma rate_unit (num : Q) (den : Z) :
  0 < den -> (0 <= num <= inject_Z den)%Q -> (0 <= rate num den <= 1)%Q.
Proof.
  intros Hd Hn. unfold rate, replace_zero.
  destruct (Z.eqb_spec den 0) as [E|_]; [lia|]. cbn [div_cell fill].
  pose proof (inject_Z_pos den Hd) as Hp.
  split.
  - apply Qle_shift_div_l; [exact Hp | lra].
  - apply Qle_shift_div_r; [exact Hp | lra].
Qed.

Lemma daily_agg_counted (g : cell * list daily_cells) :
  good_group (fun _ => True) counted g ->
  0 < Daily.deliveries (daily_agg g) /\
  (0 <= Daily.chargeback_rate (daily_agg g) <= 1)%Q /\
  (0 <= Daily.fraud_rate (daily_agg g) <= 1)%Q.
Proof.
  intros (Hne & _ & Hv). destruct g as [k vs]. cbn [fst snd] in *.
  cbn [daily_agg Daily.deliveries Daily.chargeback_rate Daily.fraud_rate snd].
  assert (Hids : Forall (fun c => notna c = true) (map fst vs)).
  { apply Forall_map. eapply Forall_impl; [|exact Hv]. now intros v (H & _). }
  assert (Hcb : Forall unit_rate (map (fun v : daily_cells => fst (snd v)) vs)).
  { apply Forall_map. eapply Forall_impl; [|exact Hv]. now intros v (_ & H & _). }
  assert (Hfr : Forall unit_rate (map (fun v : daily_cells => fst (snd (snd v))) vs)).
  { apply Forall_map. eapply Forall_impl; [|exact Hv]. now intros v (_ & _ & H). }
  assert (Hcount : count (map fst vs) = Z.of_nat (length vs)).
  { unfold count. now rewrite (filter_notna_all _ Hids), length_map. }
  rewrite Hcount.
  assert (Hlen : 0 < Z.of_nat (length vs)) by (destruct vs; [congruence | simpl; lia]).
  pose proof (nansum_unit _ Hcb) as Ncb. pose proof (nansum_unit _ Hfr) as Nfr.
  rewrite length_map in Ncb, Nfr.
  split; [exact Hlen|]. split; apply rate_unit; assumption.
Qed.

Lemma binary_unit_rates (c : column) (v : list (option Q)) :
  binary c -> floats c = Returns v -> Forall unit_rate v.
Proof.
  intros (z & -> & Hz) H. cbn [floats] in H. injection H as <-.
  now apply binary_flags_unit.
Qed.

(** X11.  On a preprocessed table every one of whose records has an
    identifier, every day of the daily series has at least one delivery
    and its chargeback rate and its fraud rate lie between 0 and 1. *)
Theorem daily_rates_in_unit_interval (read_number : string -> option Q)
  (read_time : string -> option Z) (raw df : frame) (ids : column)
  (rows : list Daily.row) :
  preprocess read_number read_time raw = Returns df ->
  get df "DELIVERY_ID" = Some ids ->
  Forall (fun c => notna c = true) (cells ids) ->
  daily df = Returns rows ->
  forall r, In r rows ->
    0 < Daily.deliveries r /\
    (0 <= Daily.chargeback_rate r <= 1)%Q /\
    (0 <= Daily.fraud_rate r <= 1)%Q.
Proof.
  intros H Gids Hids Hd r Hr.
  destruct (preprocess_binary _ _ _ _ H) as ((cb & Gcb & Bcb) & (fr & Gfr & Bfr)).
  rewrite daily_unfold in Hd. unfold daily_records, agg_floats, getitem in Hd.
  rewrite Gids, Gcb, Gfr in Hd.
  destruct (get df "DATE") as [dates|]; [|discriminate].
  cbn [bind] in Hd.
  destruct (floats cb) as [vcb|] eqn:Ecb; [|discriminate].
  destruct (floats fr) as [vfr|] eqn:Efr; [|discriminate].
  cbn [bind] in Hd.
  destruct (get df "CHARGEBACK_COST") as [c2|]; [|discriminate]. cbn [bind] in Hd.
  destruct (floats c2) as [cost|]; [|discriminate]. cbn [bind] in Hd.
  destruct (get df "SIFT_CREATE_ORDER_PA_SCORE") as [c3|]; [|discriminate].
  cbn [bind] in Hd.
  destruct (floats c3) as [sift|]; [|discriminate]. cbn [bind] in Hd.
  destruct (get df "GOV_DOLLARS") as [c4|]; [|discriminate]. cbn [bind] in Hd.
  destruct (floats c4) as [gov|]; [|discriminate]. cbn [bind] in Hd.
  injection Hd as <-.
  apply in_map_iff in Hr. destruct Hr as (g & <- & Hg).
  apply daily_agg_counted.
  pose proof (binary_unit_rates _ _ Bcb Ecb) as Ucb.
  pose proof (binary_unit_rates _ _ Bfr Efr) as Ufr.
  rewrite Forall_forall in Hids, Ucb, Ufr.
  revert g Hg. apply Forall_forall.
  apply (groupby_good cell_eqb (fun _ => True) counted cell_leb).
  apply Forall_forall. intros [d [i [a [b rest]]]] Hin.
  split; [exact I|]. cbn [snd].
  apply in_combine_r in Hin.
  pose proof (in_combine_l _ _ _ _ Hin) as Hi. apply in_combine_r in Hin.
  pose proof (in_combine_l _ _ _ _ Hin) as Ha. apply in_combine_r in Hin.
  pose proof (in_combine_l _ _ _ _ Hin) as Hb.
  repeat split; cbn [fst snd]; auto.
Qed.

Lemma daily_rates_in_unit_interval_witness :
  preprocess no_number no_time missing_gov = Returns missing_gov_df /\
  exists rows,
    daily missing_gov_df = Returns rows /\
    forall r, In r rows ->
      0 < Daily.deliveries r /\
      (0 <= Daily.chargeback_rate r <= 1)%Q /\
      (0 <= Daily.fraud_rate r <= 1)%Q.
Proof.
  assert (H : preprocess no_number no_time missing_gov = Returns missing_gov_df)
    by (vm_compute; reflexivity).
  split; [exact H|]. eexists.
  assert (Hd : daily missing_gov_df = Returns _) by (vm_compute; reflexivity).
  split; [exact Hd|].
  apply (daily_rates_in_unit_interval no_number no_time _ _ (IntCol [1; 2]) _ H).
  - vm_compute. reflexivity.
  - repeat constructor.
  - exact Hd.
Defined.

(** ** The flag normalisation, applied twice *)

(** X12.  Normalising a flag column a second time changes nothing: the
    zeros and ones that [to_bool_int] gives are read back as themselves. *)
Theorem to_bool_int_idempotent (c : column) :
  to_bool_int (IntCol (to_bool_int c)) = to_bool_int c.
Proof.
  pose proof (to_bool_int_binary c) as Hb.
  cbn [to_bool_int]. rewrite <- (map_id (to_bool_int c)) at 2.
  apply map_ext_in. intros z Hz. rewrite Forall_forall in Hb.
  rewrite map_str_int. destruct (Hb z Hz) as [->| ->]; reflexivity.
Qed.

(** ** The average order value *)

Lemma to_numeric_idempotent (rn : string -> option Q) (c : column) :
  to_numeric rn (to_numeric rn c) = to_numeric rn c.
Proof. destruct c; reflexivity. Qed.

Lemma coerce_all_get (rn : string -> option Q) (names : list string)
  (df : frame) (n : string) :
  In n names ->
  get (fold_left (coerce rn) names df) n = option_map (to_numeric rn) (get df n).
Proof.
  revert df. induction names as [|m names IH]; simpl; intros df H; [contradiction|].
  destruct (in_dec string_dec n names) as [Hin|Hout].
  - rewrite IH by exact Hin. rewrite coerce_get.
    destruct (String.eqb m n); [|reflexivity].
    destruct (get df n); simpl; [now rewrite to_numeric_idempotent | reflexivity].
  - rewrite coerce_all_get_other by exact Hout. rewrite coerce_get.
    destruct H as [->|H]; [|contradiction]. now rewrite String.eqb_refl.
Qed.

Lemma dropna_present {A : Type} (f : A -> Q) (l : list A) :
  dropna (map (fun x => Some (f x)) l) = map f l.
Proof. induction l as [|x l IH]; simpl; [reflexivity | now rewrite IH]. Qed.

Section OrderValue.

Variable read_number : string -> option Q.
Variable read_time : string -> option Z.

Lemma preprocess_dollars (raw df : frame) (v : list (option Q)) :
  preprocess read_number read_time raw = Returns df ->
  get raw "GOV" = Some (NumCol v) ->
  get df "GOV_DOLLARS" = Some (NumCol (map (fun x => Some (fill 0 x / 100)%Q) v)).
Proof.
  intros H G. destruct (preprocess_stages _ _ _ _ H) as (df1 & df2 & H1 & H2 & H3).
  assert (G1 : get df1 "GOV" = Some (NumCol v)).
  { rewrite (calendar_get_other _ _ _ "GOV" H1); [exact G | discriminate..]. }
  assert (G2 : get df2 "GOV" = Some (NumCol v)).
  { rewrite (labels_get_other _ _ "GOV" H2); [|discriminate..].
    unfold numeric. rewrite coerce_all_get by (simpl; tauto). now rewrite G1. }
  revert H3. unfold money. rewrite G2. cbn [to_numeric col_fillna0 cents_to_dollars floats bind].
  intro E. injection E as <-. rewrite get_setitem_same. unfold fillna.
  now rewrite map_map.
Qed.

(** X13.  The average order value KPI of a table whose order values are
    floats is the sum of the present order values, in major units,
    divided by the number of all the records: a missing order value
    counts as an order of value 0. *)
Theorem avg_gov_divides_by_all_records (raw df : frame) (v : list (option Q)) :
  preprocess read_number read_time raw = Returns df ->
  get raw "GOV" = Some (NumCol v) ->
  v <> [] ->
  exists a,
    avg_gov df = Returns (Fin a) /\
    (a == total (map (fun q => q / 100) (dropna v))
          / inject_Z (Z.of_nat (length v)))%Q.
Proof.
  intros H G Hne. unfold avg_gov.
  rewrite (preprocess_dollars raw df v H G). cbn [floats bind].
  unfold nanmean. rewrite (dropna_present (fun x => fill 0 x / 100)%Q v).
  assert (E : forall l : list (option Q),
            (total (map (fun x => fill 0 x / 100) l)
             == total (map (fun q => q / 100) (dropna l)))%Q).
  { induction l as [|[q|] l IH]; cbn [map dropna total fold_right fill].
    - reflexivity.
    - fold (total (map (fun x => fill 0 x / 100)%Q l)).
      fold (total (map (fun q => q / 100)%Q (dropna l))). now rewrite IH.
    - fold (total (map (fun x => fill 0 x / 100)%Q l)). rewrite IH.
      unfold total, Qdiv. ring. }
  unfold average.
  destruct (map (fun x => (fill 0 x / 100)%Q) v) as [|y l] eqn:Em.
  { apply map_eq_nil in Em. contradiction. }
  rewrite <- Em. eexists. split; [reflexivity|].
  now rewrite length_map, E.
Qed.

End OrderValue.

Lemma avg_gov_divides_by_all_records_witness :
  preprocess no_number no_time missing_gov = Returns missing_gov_df /\
  exists a,
    avg_gov missing_gov_df = Returns (Fin a) /\
    (a == total (map (fun q => q / 100) (dropna [Some 1000; None]))
          / inject_Z (Z.of_nat (length [Some 1000%Q; None])))%Q.
Proof.
  assert (H : preprocess no_number no_time missing_gov = Returns missing_gov_df)
    by (vm_compute; reflexivity).
  split; [exact H|].
  apply (avg_gov_divides_by_all_records no_number no_time missing_gov _ _ H).
  - reflexivity.
  - discriminate.
Defined.

(** ** Recommendation cards *)

(** A stable sort on a rank 0 or 1 moves the elements of rank 0 to the
    front and keeps the order otherwise. *)
Lemma sort_selected {A : Type} (p : A -> bool) (l : list A) :
  sort (fun a b => ((if p a then 0 else 1) <=? (if p b then 0 else 1))%nat) l
  = filter p l ++ filter (fun a => negb (p a)) l.
Proof.
  set (leb := fun a b => ((if p a then 0 else 1) <=? (if p b then 0 else 1))%nat).
  assert (Hfront : forall x f n, p x = false -> Forall (fun a => p a = true) f ->
                     insert leb x (f ++ n) = f ++ insert leb x n).
  { intros x f n Hx Hf. induction Hf as [|a f Ha _ IH]; [reflexivity|].
    cbn [app insert]. unfold leb at 1. rewrite Hx, Ha. cbn [Nat.leb].
    now rewrite IH. }
  assert (Hback : forall x n, Forall (fun a => p a = false) n ->
                    insert leb x n = x :: n).
  { intros x n Hn. destruct Hn as [|a n Ha _]; [reflexivity|].
    cbn [insert]. unfold leb. rewrite Ha. now destruct (p x). }
  assert (Hsel : forall x n, p x = true -> insert leb x n = x :: n).
  { intros x n Hx. destruct n as [|a n]; [reflexivity|].
    cbn [insert]. unfold leb. now rewrite Hx. }
  induction l as [|x l IH]; [reflexivity|].
  change (sort leb (x :: l)) with (insert leb x (sort leb l)). rewrite IH.
  cbn [filter]. destruct (p x) eqn:Hx; cbn [negb].
  - now apply Hsel.
  - rewrite Hfront; [|exact Hx|].
    + rewrite Hback; [reflexivity|].
      apply Forall_forall. intros a Ha. apply filter_In in Ha.
      now apply negb_true_iff.
    + apply Forall_forall. intros a Ha. now apply filter_In in Ha.
Qed.

Lemma filter_nothing {A : Type} (p : A -> bool) (l : list A) :
  existsb p l = false ->
  filter p l = [] /\ filter (fun a => negb (p a)) l = l.
Proof.
  induction l as [|x l IH]; simpl; [now split|].
  intro H. apply orb_false_iff in H. destruct H as [Hx Hl].
  rewrite Hx. cbn [negb]. destruct (IH Hl) as [-> ->]. now split.
Qed.

(** X14.  The recommendation cards are those of all the rules of the
    catalog; the card of the selected rule comes first and is the only one
    highlighted, the other cards keep the order of the catalog; without a
    selection, or with a key that is not in the catalog, the cards are in
    catalog order and none is highlighted. *)
Theorem selected_card_comes_first (selected_key : option string) :
  let card_of e := rec_card (fst e) (snd e) selected_key in
  build_rec_cards selected_key =
  match selected_key with
  | Some k =>
      map card_of (filter (fun e => String.eqb (fst e) k) REC_DEFS)
      ++ map card_of (filter (fun e => negb (String.eqb (fst e) k)) REC_DEFS)
  | None => map card_of REC_DEFS
  end /\
  forall e, In e REC_DEFS ->
    highlight (card_of e) = true <-> selected_key = Some (fst e).
Proof.
  intro card_of. split.
  - unfold build_rec_cards.
    destruct selected_key as [k|]; [|now rewrite map_map].
    set (cards := map (fun e => (fst e, rec_card (fst e) (snd e) (Some k))) REC_DEFS).
    assert (Hcards : forall q : string -> bool,
              map snd (filter (fun x => q (fst x)) cards)
              = map card_of (filter (fun e => q (fst e)) REC_DEFS)).
    { intro q. unfold cards. generalize REC_DEFS. intro l.
      induction l as [|e l IH]; [reflexivity|].
      cbn [map filter fst]. destruct (q (fst e)); cbn [map snd]; now rewrite IH. }
    destruct (existsb (fun e => String.eqb (fst e) k) REC_DEFS) eqn:Ex.
    + destruct (String.eqb k "") eqn:Ek.
      { apply String.eqb_eq in Ek. subst k. discriminate Ex. }
      cbn [negb andb].
      rewrite (sort_selected (fun x : string * card => String.eqb (fst x) k) cards).
      rewrite map_app.
      rewrite (Hcards (fun s => String.eqb s k)).
      now rewrite (Hcards (fun s => negb (String.eqb s k))).
    + rewrite andb_false_r.
      destruct (filter_nothing _ _ Ex) as [-> ->]. cbn [map app].
      unfold cards. now rewrite map_map.
  - intros e He. unfold card_of, rec_card. cbn [highlight].
    destruct selected_key as [k|]; [|split; discriminate].
    rewrite String.eqb_eq. split; congruence.
Qed.

(** ** The trend insight *)








(** ** Highest and lowest rates *)

Section ArgBest.

(** [geb a b]: [a] is at least as good as [b]. *)
Variable geb : Q -> Q -> bool.
Hypothesis geb_total : forall a b, geb a b = true \/ geb b a = true.
Hypothesis geb_trans : forall a b c, geb a b = true -> geb b c = true -> geb a c = true.

Lemma geb_refl (a : Q) : geb a a = true.
Proof. now destruct (geb_total a a). Qed.

Lemma arg_best_spec (l : list (option Q)) :
  forall (i : nat) (best : option (nat * Q)) (j : nat) (v : Q),
  arg_best (fun q b => negb (geb b q)) l i best = Some (j, v) ->
  (forall x, In (Some x) l -> geb v x = true) /\
  (forall j0 b, best = Some (j0, b) -> geb v b = true) /\
  (best = Some (j, v) \/ (i <= j /\ nth_error l (j - i) = Some (Some v)))%nat.
Proof.
  induction l as [|[q|] l IH]; intros i best j v H; cbn [arg_best] in H.
  - subst best. split; [intros x []|]. split; [|now left].
    intros j0 b E. injection E as <- <-. apply geb_refl.
  - apply IH in H. destruct H as (Hall & Hbest & Hpos).
    assert (Hq : geb v q = true).
    { destruct best as [[j0 b]|].
      - destruct (geb b q) eqn:E; cbn [negb] in *.
        + apply (geb_trans v b q); [now apply (Hbest j0 b) | exact E].
        + now apply (Hbest i q).
      - now apply (Hbest i q). }
    split; [|split].
    + intros x [E|Hx]; [injection E as <-; exact Hq | now apply Hall].
    + intros j0 b ->. destruct (geb b q) eqn:E; cbn [negb] in *.
      * now apply (Hbest j0 b).
      * destruct (geb_total b q) as [E'|E']; [congruence|].
        apply (geb_trans v q b); assumption.
    + destruct Hpos as [Hpos|[Hle Hnth]].
      * destruct best as [[j0 b]|].
        -- destruct (geb b q); cbn [negb] in Hpos.
           ++ now left.
           ++ injection Hpos as <- <-. right. split; [lia|].
              now rewrite Nat.sub_diag.
        -- injection Hpos as <- <-. right. split; [lia|].
           now rewrite Nat.sub_diag.
      * right. split; [lia|].
        replace (j - i)%nat with (S (j - S i)) by lia. exact Hnth.
  - apply IH in H. destruct H as (Hall & Hbest & Hpos).
    split; [|split].
    + intros x [E|Hx]; [discriminate | now apply Hall].
    + exact Hbest.
    + destruct Hpos as [Hpos|[Hle Hnth]]; [now left|].
      right. split; [lia|].
      replace (j - i)%nat with (S (j - S i)) by lia. exact Hnth.
Qed.

Lemma arg_best_some (l : list (option Q)) :
  forall (i : nat) (best : option (nat * Q)),
  (best <> None \/ exists x, In (Some x) l) ->
  arg_best (fun q b => negb (geb b q)) l i best <> None.
Proof.
  induction l as [|[q|] l IH]; intros i best H; cbn [arg_best].
  - destruct H as [H|(x & [])]. exact H.
  - apply IH. left. destruct best as [[j0 b]|]; [|discriminate].
    destruct (negb (geb b q)); discriminate.
  - apply IH. destruct H as [H|(x & [E|Hx])]; [now left | discriminate | right; eauto].
Qed.

End ArgBest.

(** The row that [idxmax] and [idxmin] point at, in a table that has a
    row and no missing rate. *)
Lemma extreme_rows {K : Type} (t : segment K) :
  t <> [] ->
  (forall k r, In (k, r) t -> exists q, r = Some q) ->
  exists i j ktop qtop kbot qbot,
    idxmax (map snd t) = Returns i /\ loc t i = Returns (ktop, Some qtop) /\
    idxmin (map snd t) = Returns j /\ loc t j = Returns (kbot, Some qbot) /\
    In (ktop, Some qtop) t /\ In (kbot, Some qbot) t /\
    forall k q, In (k, Some q) t -> (qbot <= q <= qtop)%Q.
Proof.
  intros Hne Hsome.
  assert (Hx : exists x, In (Some x) (map snd t)).
  { destruct t as [|[k r] t]; [congruence|].
    destruct (Hsome k r (or_introl eq_refl)) as (q & ->). exists q. now left. }
  assert (Hrow : forall i v, nth_error (map snd t) i = Some (Some v) ->
                   exists k, nth_error t i = Some (k, Some v)).
  { intros i v H. rewrite nth_error_map in H.
    destruct (nth_error t i) as [[k r]|]; [|discriminate].
    simpl in H. injection H as ->. now exists k. }
  pose (up := fun a b : Q => Qle_bool b a).
  pose (down := fun a b : Q => Qle_bool a b).
  assert (Tup : forall a b, up a b = true \/ up b a = true)
    by (intros a b; apply Qle_bool_total).
  assert (Rup : forall a b c, up a b = true -> up b c = true -> up a c = true)
    by (intros a b c H1 H2; apply (Qle_bool_trans c b a); assumption).
  assert (Tdown : forall a b, down a b = true \/ down b a = true)
    by (intros a b; apply Qle_bool_total).
  assert (Rdown : forall a b c, down a b = true -> down b c = true -> down a c = true)
    by (intros a b c; apply Qle_bool_trans).
  unfold idxmax, idxmin.
  change (fun q b => Qlt_bool b q) with (fun q b => negb (up b q)).
  change (fun q b => Qlt_bool q b) with (fun q b => negb (down b q)).
  pose proof (arg_best_some up (map snd t) 0 None (or_intror Hx)) as S1.
  pose proof (arg_best_some down (map snd t) 0 None (or_intror Hx)) as S2.
  destruct (arg_best (fun q b => negb (up b q)) (map snd t) 0 None)
    as [[i qtop]|] eqn:E1; [|congruence].
  destruct (arg_best (fun q b => negb (down b q)) (map snd t) 0 None)
    as [[j qbot]|] eqn:E2; [|congruence].
  destruct (arg_best_spec up Tup Rup _ _ _ _ _ E1) as (A1 & _ & [P1|[_ P1]]);
    [discriminate|].
  destruct (arg_best_spec down Tdown Rdown _ _ _ _ _ E2) as (A2 & _ & [P2|[_ P2]]);
    [discriminate|].
  rewrite Nat.sub_0_r in P1, P2.
  destruct (Hrow _ _ P1) as (ktop & N1). destruct (Hrow _ _ P2) as (kbot & N2).
  exists i, j, ktop, qtop, kbot, qbot. unfold loc. rewrite N1, N2.
  repeat (split; [reflexivity|]).
  split; [eapply nth_error_In; eassumption|].
  split; [eapply nth_error_In; eassumption|].
  intros k q Hin.
  assert (Hq : In (Some q) (map snd t)).
  { apply in_map_iff. now exists (k, Some q). }
  split; apply Qle_bool_iff; [exact (A2 q Hq) | exact (A1 q Hq)].
Qed.

Section ExtremeRows.

Variable fmt_pct : pyfloat -> string.
Variable str_key : cell -> string.
Variable str_bin : option nat -> string.
Variable read_number : string -> option Q.
Variable read_time : string -> option Z.
Variable quantile : list Q -> Q -> Q.

Lemma observed_rates_present {K : Type} (t : segment K) (keys : list K) :
  rates_of_observed t keys -> forall k r, In (k, r) t -> exists q, r = Some q.
Proof.
  intros H k r Hin. destruct (H k r Hin) as ((q & -> & _) & _). now exists q.
Qed.

Lemma gov_bin_rates_present (raw df : frame) (t : segment (option nat)) :
  preprocess read_number read_time raw = Returns df ->
  fraud_by_gov_bin quantile df = Returns t ->
  forall k r, In (k, r) t -> exists q, r = Some q.
Proof.
  intros H Ht.
  destruct (preprocess_fraud_flag _ _ _ _ H) as (v & Hflag & Hv).
  revert Ht. unfold fraud_by_gov_bin, agg_floats, getitem.
  destruct (has df "GOV_DOLLARS"); [|intro E; injection E as <-; intros k r []].
  destruct (GOV_BIN quantile df) as [bins|]; [|discriminate]. cbn [bind].
  rewrite Hflag. cbn [bind floats]. intro E. injection E as <-.
  intros k r Hin. apply rate_by_spec in Hin; [|now apply binary_flags_unit].
  destruct Hin as (_ & q & -> & _). now exists q.
Qed.

(** X16.  On a preprocessed table the platform insight and the bucket
    insight do not raise, and the rows they name are extreme: no row of
    the table has a higher rate than the one reported as highest, none a
    lower rate than the one reported as lowest. *)
Theorem insights_name_the_extreme_rows (raw df : frame) (base : pyfloat) :
  preprocess read_number read_time raw = Returns df ->
  (forall t, fraud_by_platform df = Returns t -> t <> [] ->
     exists ktop qtop kbot qbot,
       In (ktop, Some qtop) t /\ In (kbot, Some qbot) t /\
       (forall k q, In (k, Some q) t -> (qbot <= q <= qtop)%Q) /\
       insight_platform fmt_pct str_key t base
       = Returns
           ["Highest fraud platform: " ++ str_key ktop
            ++ " (" ++ fmt_pct (Fin qtop) ++ ").";
            "Lowest fraud platform: " ++ str_key kbot
            ++ " (" ++ fmt_pct (Fin qbot) ++ ").";
            "Overall fraud rate baseline: " ++ fmt_pct base ++ "."]%string) /\
  (forall t, fraud_by_gov_bin quantile df = Returns t -> t <> [] ->
     exists ktop qtop kbot qbot,
       In (ktop, Some qtop) t /\ In (kbot, Some qbot) t /\
       (forall k q, In (k, Some q) t -> (qbot <= q <= qtop)%Q) /\
       insight_govbin fmt_pct str_bin t base
       = Returns
           ["Highest fraud bin: " ++ str_bin ktop
            ++ " (" ++ fmt_pct (Fin qtop) ++ ").";
            "Lowest fraud bin: " ++ str_bin kbot
            ++ " (" ++ fmt_pct (Fin qbot) ++ ").";
            "Baseline fraud rate: " ++ fmt_pct base ++ "."]%string).
Proof.
  intro H. split.
  - intros t Ht Hne.
    destruct (preprocess_fraud_flag _ _ _ _ H) as (v & Hflag & Hv).
    destruct (fraud_by_spec df "PLATFORM" v Hflag Hv) as (t' & Ht' & Hobs).
    unfold fraud_by_platform in Ht. rewrite Ht' in Ht. injection Ht as ->.
    destruct (extreme_rows t Hne (observed_rates_present _ _ Hobs))
      as (i & j & ktop & qtop & kbot & qbot & E1 & E2 & E3 & E4 & I1 & I2 & Hall).
    exists ktop, qtop, kbot, qbot.
    split; [exact I1|]. split; [exact I2|]. split; [exact Hall|].
    unfold insight_platform. destruct t as [|row t]; [congruence|].
    rewrite E1. cbn [bind]. rewrite E2. cbn [bind]. rewrite E3. cbn [bind].
    rewrite E4. reflexivity.
  - intros t Ht Hne.
    destruct (extreme_rows t Hne (gov_bin_rates_present raw df t H Ht))
      as (i & j & ktop & qtop & kbot & qbot & E1 & E2 & E3 & E4 & I1 & I2 & Hall).
    exists ktop, qtop, kbot, qbot.
    split; [exact I1|]. split; [exact I2|]. split; [exact Hall|].
    unfold insight_govbin. destruct t as [|row t]; [congruence|].
    rewrite E1. cbn [bind]. rewrite E2. cbn [bind]. rewrite E3. cbn [bind].
    rewrite E4. reflexivity.
Qed.

End ExtremeRows.

Lemma insights_name_the_extreme_rows_witness :
  preprocess no_number no_time missing_gov = Returns missing_gov_df /\
  exists t ktop qtop kbot qbot,
    fraud_by_platform missing_gov_df = Returns t /\
    In (ktop, Some qtop) t /\ In (kbot, Some qbot) t /\
    (forall k q, In (k, Some q) t -> (qbot <= q <= qtop)%Q).
Proof.
  assert (H : preprocess no_number no_time missing_gov = Returns missing_gov_df)
    by (vm_compute; reflexivity).
  split; [exact H|]. eexists.
  assert (Ht : fraud_by_platform missing_gov_df = Returns _)
    by (vm_compute; reflexivity).
  destruct (proj1 (insights_name_the_extreme_rows
                     (fun _ => EmptyString) (fun _ => EmptyString)
                     (fun _ => EmptyString) no_number no_time linear_quantile
                     missing_gov missing_gov_df NaN H) _ Ht)
    as (ktop & qtop & kbot & qbot & I1 & I2 & Hall & _); [discriminate|].
  exists ktop, qtop, kbot, qbot.
  split; [exact Ht|]. split; [exact I1|]. split; [exact I2 | exact Hall].
Defined.

(** ** The address insight and the missing key *)

Lemma sort_head {A : Type} (leb : A -> A -> bool) (l : list A) (h : A)
  (rest : list A) :
  (forall a b, leb a b = true \/ leb b a = true) ->
  (forall a b c, leb a b = true -> leb b c = true -> leb a c = true) ->
  sort leb l = h :: rest ->
  In h l /\ forall x, In x l -> leb h x = true.
Proof.
  intros Htotal Htrans E.
  split; [apply (sort_in leb); rewrite E; now left|].
  pose proof (sort_sorted leb Htotal l) as Hs. rewrite E in Hs.
  apply Sorted_StronglySorted in Hs; [|intros a b c; apply Htrans].
  inversion Hs as [|? ? _ Hall]; subst.
  intros x Hx. apply (sort_in leb) in Hx. rewrite E in Hx.
  destruct Hx as [<-|Hx].
  - now destruct (Htotal h h).
  - rewrite Forall_forall in Hall. now apply Hall.
Qed.

Lemma rate_geb_total (a b : option Q) : rate_geb a b = true \/ rate_geb b a = true.
Proof.
  destruct a as [x|], b as [y|]; simpl; auto.
  destruct (Qle_bool_total x y); auto.
Qed.

Lemma rate_geb_trans (a b c : option Q) :
  rate_geb a b = true -> rate_geb b c = true -> rate_geb a c = true.
Proof.
  destruct a as [x|], b as [y|], c as [z|]; simpl; try discriminate; auto.
  intros H1 H2. now apply (Qle_bool_trans z y x).
Qed.

Lemma numeric_cells (c : column) :
  is_numeric c = true ->
  forall k, In k (cells c) -> k = Na \/ exists q, k = Num q.
Proof.
  destruct c as [v|v|v|v|v]; try discriminate; intros _ k Hk; cbn [cells] in Hk;
    apply in_map_iff in Hk; destruct Hk as (x & <- & _).
  - right. eauto.
  - destruct x; simpl; eauto.
Qed.

Lemma rows_ge_returns (n : Q) (t : segment cell) :
  (forall k r, In (k, r) t -> k = Na \/ exists q, k = Num q) ->
  exists rows, rows_ge n t = Returns rows.
Proof.
  induction t as [|[k r] t IH]; intro H; [now exists []|].
  destruct IH as (rows & E); [intros k' r' Hin; apply (H k' r'); now right|].
  cbn [rows_ge fst]. rewrite E.
  destruct (H k r (or_introl eq_refl)) as [->|(q & ->)]; cbn [key_ge bind]; eauto.
Qed.

Section Addresses.

Variable fmt_pct : pyfloat -> string.
Variable read_number : string -> option Q.
Variable read_time : string -> option Z.

Lemma fraud_by_addr_rows (raw df : frame) (t : segment cell) :
  preprocess read_number read_time raw = Returns df ->
  fraud_by_addr df = Returns t ->
  forall k r, In (k, r) t ->
    (k = Na \/ exists q, k = Num q) /\ exists q, r = Some q.
Proof.
  intros H Ht k r Hin.
  destruct (preprocess_fraud_flag _ _ _ _ H) as (v & Hflag & Hv).
  destruct (fraud_by_spec df "CX_UNIQUE_ADDRESSES" v Hflag Hv) as (t' & Ht' & Hobs).
  unfold fraud_by_addr in Ht. rewrite Ht' in Ht. cbn [bind] in Ht.
  injection Ht as <-. apply sort_in in Hin.
  destruct (Hobs k r Hin) as ((q & -> & _) & Hk). split; [|now exists q].
  unfold key_cells in Hk.
  destruct (get df "CX_UNIQUE_ADDRESSES") as [c|] eqn:G; [|destruct Hk].
  apply (numeric_cells c); [|exact Hk].
  apply (preprocess_numeric _ _ raw df "CX_UNIQUE_ADDRESSES" H); [|exact G].
  simpl. tauto.
Qed.

(** X17.  On a preprocessed table the address insight returns when no
    record misses its unique-address count; when the records that miss it
    form the group of the strictly highest fraud rate, the insight raises,
    as the missing count cannot be converted to an integer. *)
Theorem addresses_insight_and_the_missing_key (raw df : frame)
  (t : segment cell) (base : pyfloat) :
  preprocess read_number read_time raw = Returns df ->
  fraud_by_addr df = Returns t ->
  ((forall r, ~ In (Na, r) t) ->
   exists bullets, insight_addresses fmt_pct t base = Returns bullets) /\
  (forall r0, In (Na, Some r0) t ->
     (forall k q, In (k, Some q) t -> k <> Na -> (q < r0)%Q) ->
     insight_addresses fmt_pct t base = Raises).
Proof.
  intros H Ht. pose proof (fraud_by_addr_rows raw df t H Ht) as Hrows.
  assert (Ttotal : forall a b : cell * option Q,
            rate_geb (snd a) (snd b) = true \/ rate_geb (snd b) (snd a) = true)
    by (intros a b; apply rate_geb_total).
  assert (Ttrans : forall a b c : cell * option Q,
            rate_geb (snd a) (snd b) = true -> rate_geb (snd b) (snd c) = true ->
            rate_geb (snd a) (snd c) = true)
    by (intros a b c; apply rate_geb_trans).
  split.
  - intro Hno. unfold insight_addresses. destruct t as [|row t]; [eauto|].
    destruct (sort (fun a b => rate_geb (snd a) (snd b)) (row :: t))
      as [|[kh rh] rest] eqn:E.
    { pose proof (sort_length (fun a b : cell * option Q => rate_geb (snd a) (snd b))
                    (row :: t)) as L. rewrite E in L. discriminate. }
    destruct (sort_head _ _ _ _ Ttotal Ttrans E) as [Hin _].
    destruct (Hrows kh rh Hin) as ([->|(q & ->)] & _); [now apply Hno in Hin|].
    cbn [fst int_key bind].
    destruct (rows_ge_returns 2 (row :: t)) as (rows & ->).
    { intros k r Hkr. now apply (Hrows k r). }
    cbn [bind]. eauto.
  - intros r0 Hna Hstrict. unfold insight_addresses.
    destruct t as [|row t]; [destruct Hna|].
    destruct (sort (fun a b => rate_geb (snd a) (snd b)) (row :: t))
      as [|[kh rh] rest] eqn:E; [reflexivity|].
    destruct (sort_head _ _ _ _ Ttotal Ttrans E) as [Hin Hbest].
    destruct (Hrows kh rh Hin) as (Hk & q & ->).
    pose proof (Hbest (Na, Some r0) Hna) as Hge. cbn [snd rate_geb] in Hge.
    apply Qle_bool_iff in Hge.
    destruct Hk as [->|(x & ->)]; [reflexivity|].
    exfalso. assert (Hlt : (q < r0)%Q) by (apply (Hstrict (Num x)); [exact Hin | discriminate]).
    lra.
Qed.

End Addresses.

Lemma addresses_insight_and_the_missing_key_witness :
  preprocess no_number no_time missing_count = Returns missing_count_df /\
  fraud_by_addr missing_count_df = Returns missing_count_table /\
  In (Na, Some 1%Q) missing_count_table /\
  insight_addresses (fun _ => EmptyString) missing_count_table NaN = Raises.
Proof.
  assert (H : preprocess no_number no_time missing_count = Returns missing_count_df)
    by (vm_compute; reflexivity).
  assert (Ht : fraud_by_addr missing_count_df = Returns missing_count_table)
    by (vm_compute; reflexivity).
  assert (Hna : In (Na, Some 1%Q) missing_count_table)
    by (vm_compute; tauto).
  split; [exact H|]. split; [exact Ht|]. split; [exact Hna|].
  apply (proj2 (addresses_insight_and_the_missing_key (fun _ => EmptyString)
                  no_number no_time _ _ _ NaN H Ht) 1%Q Hna).
  intros k q Hin Hk. vm_compute in Hin.
  destruct Hin as [E|[E|[E|[]]]]; injection E as <- <-;
    [reflexivity | reflexivity | congruence].
Defined.

(** ** KPIs of a table without records *)


Section EmptyTable.

Variable read_number : string -> option Q.
Variable read_time : string -> option Z.

Lemma flag_total_zero_rows (df : frame) (n : string) (v : list Z) :
  zero_rows df -> get df n = Some (IntCol v) -> flag_total df n = Returns 0.
Proof.
  intros Hz Hget. unfold flag_total, getitem. rewrite Hget. cbn [bind floats].
  pose proof (get_zero_rows _ _ _ Hz Hget) as Hlen. simpl in Hlen.
  apply length_zero_iff_nil in Hlen. now subst v.
Qed.

Lemma overall_deliveries_zero_rows (df : frame) :
  zero_rows df -> overall_deliveries df = 0.
Proof.
  intro Hz. unfold overall_deliveries.
  destruct (get df "DELIVERY_ID") as [c|] eqn:E.
  - now rewrite (cells_nil c (get_zero_rows _ _ _ Hz E)).
  - now rewrite len_zero_rows.
Qed.

Lemma get_floats_zero_rows (df : frame) (n : string) (default : list (option Q)) :
  zero_rows df -> column_is (fun c => is_numeric c = true) df n ->
  get_floats df n default = Returns [] \/
  (get df n = None /\ get_floats df n default = Returns default).
Proof.
  intros Hz Hn. unfold get_floats. destruct (get df n) as [c|] eqn:E.
  - left. apply floats_nil; [eapply get_zero_rows; eauto | now apply Hn].
  - now right.
Qed.

Lemma agg_floats_zero_rows (df : frame) (n : string) (c : column) :
  zero_rows df -> get df n = Some c -> is_numeric c = true ->
  agg_floats df n = Returns [].
Proof.
  intros Hz G Hn. unfold agg_floats, getitem. rewrite G. cbn [bind].
  apply floats_nil; [exact (get_zero_rows _ _ _ Hz G) | exact Hn].
Qed.

Lemma flag_floats_zero_rows (df : frame) (n : string) (v : list Z) :
  zero_rows df -> get df n = Some (IntCol v) -> agg_floats df n = Returns [].
Proof. intros Hz G. now apply (agg_floats_zero_rows df n (IntCol v)). Qed.

Lemma daily_zero_rows (df : frame) (dates ids cost sift : column)
  (cb fr : list Z) (gov : list (option Q)) :
  zero_rows df ->
  get df "DATE" = Some dates ->
  get df "DELIVERY_ID" = Some ids ->
  get df "RECEIVED_CHARGEBACK" = Some (IntCol cb) ->
  get df "FRAUD_FLAG" = Some (IntCol fr) ->
  get df "CHARGEBACK_COST" = Some cost -> is_numeric cost = true ->
  get df "SIFT_CREATE_ORDER_PA_SCORE" = Some sift -> is_numeric sift = true ->
  get df "GOV_DOLLARS" = Some (NumCol gov) ->
  daily df = Returns [].
Proof.
  intros Hz Gd Gi Gcb Gfr Gc Nc Gs Ns Gg. unfold daily, getitem.
  rewrite Gd, Gi. cbn [bind].
  rewrite (flag_floats_zero_rows df _ cb Hz Gcb). cbn [bind].
  rewrite (flag_floats_zero_rows df _ fr Hz Gfr). cbn [bind].
  rewrite (agg_floats_zero_rows df _ cost Hz Gc Nc). cbn [bind].
  rewrite (agg_floats_zero_rows df _ sift Hz Gs Ns). cbn [bind].
  rewrite (agg_floats_zero_rows df _ (NumCol gov) Hz Gg eq_refl). cbn [bind].
  rewrite (cells_nil dates (get_zero_rows _ _ _ Hz Gd)). reflexivity.
Qed.

Lemma fraud_by_zero_rows (df : frame) (key : string) (fr : list Z) :
  zero_rows df -> get df "FRAUD_FLAG" = Some (IntCol fr) ->
  fraud_by df key = Returns [].
Proof.
  intros Hz Gfr. unfold fraud_by. destruct (get df key) as [k|] eqn:Gk; [|reflexivity].
  rewrite (flag_floats_zero_rows df _ fr Hz Gfr). cbn [bind].
  rewrite (cells_nil k (get_zero_rows _ _ _ Hz Gk)). reflexivity.
Qed.

Lemma GOV_BIN_zero_rows (quantile : list Q -> Q -> Q) (df : frame)
  (gov : list (option Q)) :
  zero_rows df -> get df "GOV_DOLLARS" = Some (NumCol gov) ->
  GOV_BIN quantile df = Returns [].
Proof.
  intros Hz Gg. unfold GOV_BIN, getitem. rewrite Gg. cbn [bind floats].
  pose proof (get_zero_rows _ _ _ Hz Gg) as Hl. simpl in Hl.
  apply length_zero_iff_nil in Hl. now subst gov.
Qed.

Lemma complete_nil_r (x : list (option Q)) : complete x [] = [].
Proof. destruct x as [|[a|] x]; reflexivity. Qed.

Lemma predictors_zero_rows (df : frame) (fr : list Z) :
  zero_rows df -> get df "FRAUD_FLAG" = Some (IntCol fr) ->
  exists t, predictors df = Returns t /\ Forall (fun e => snd e = None) t.
Proof.
  intros Hz Gfr. unfold predictors, getitem. rewrite Gfr. cbn [bind astype_int].
  pose proof (get_zero_rows _ _ _ Hz Gfr) as Hl. simpl in Hl.
  apply length_zero_iff_nil in Hl. subst fr. cbn [map].
  eexists. split; [reflexivity|].
  apply Forall_forall. intros e He. unfold drop_labels in He.
  apply filter_In in He. destruct He as [He _].
  apply in_map_iff in He. destruct He as (nc & <- & _). cbn [snd].
  unfold pearson. now rewrite complete_nil_r.
Qed.

(** C6 (as the code has it).  For a table without records that has the
    columns the pipeline reads, no component raises: preprocessing returns
    a table, still without records; the two flag counts are 0, the
    chargeback rate, the fraud rate and the total chargeback cost are 0.0,
    the average risk score is NaN and the average order value returns; the
    daily series, the segment tables by platform, by address count and by
    failed charges, the column of decile buckets and its table are empty;
    the comparison of periods on the empty series gives no result; the
    predictor ranking and its chart return, with no coefficient.  The
    glossary and the catalog of recommendations do not depend on the
    table: every glossary field has its definition, and whatever rule is
    selected the cards are those of all the rules. *)
Theorem empty_table_kpis (quantile : list Q -> Q -> Q) (raw : frame) :
  zero_rows raw ->
  has raw "CREATED_AT" = true ->
  has raw "DELIVERY_ID" = true ->
  has raw "CHARGEBACK_COST" = true ->
  has raw "SIFT_CREATE_ORDER_PA_SCORE" = true ->
  exists df,
    preprocess read_number read_time raw = Returns df /\
    zero_rows df /\
    overall_cb df = Returns 0 /\
    overall_fraud df = Returns 0 /\
    overall_cb_rate df = Returns (Fin 0) /\
    overall_fraud_rate df = Returns (Fin 0) /\
    overall_cb_cost df = Returns (Fin 0) /\
    avg_sift df = Returns NaN /\
    (exists g, avg_gov df = Returns g) /\
    daily df = Returns [] /\
    fraud_by_platform df = Returns [] /\
    fraud_by_addr df = Returns [] /\
    fraud_by_failed df = Returns [] /\
    GOV_BIN quantile df = Returns [] /\
    fraud_by_gov_bin quantile df = Returns [] /\
    last_vs_prior_7d [] [] = Returns None /\
    (exists t chart,
        predictors df = Returns t /\ predictors_chart df = Returns chart /\
        Forall (fun e => snd e = None) t) /\
    Forall (fun e => glossary_map (fst e) = snd e) glossary_items /\
    (forall selected_key,
        Permutation (build_rec_cards selected_key)
          (map (fun e => rec_card (fst e) (snd e) selected_key) REC_DEFS)).
Proof.
  intros Hraw Hc Hid Hcost0 Hsift0.
  destruct (proj2 (calendar_returns read_time raw) Hc) as (df1 & H1).
  destruct (labels_returns (numeric read_number df1)) as (df2 & H2).
  destruct (money_returns read_number df2) as (df & H3).
  assert (H : preprocess read_number read_time raw = Returns df).
  { unfold preprocess. rewrite H1. cbn [bind]. rewrite H2. exact H3. }
  clear H1 H2 H3 df1 df2.
  exists df. split; [exact H|].
  destruct (preprocess_columns _ _ _ _ H)
    as ((v1 & Hcb) & (v2 & Hfr) & (g & Hg) & Hcost & Hsift & Hz).
  specialize (Hz Hraw).
  assert (P : forall n, ~ In n written -> has df n = has raw n)
    by (intros n Hn; now apply (preprocess_has read_number read_time raw df n)).
  assert (Gid : exists c, get df "DELIVERY_ID" = Some c).
  { apply has_get. rewrite P; [exact Hid | not_among]. }
  assert (Gcost : exists c, get df "CHARGEBACK_COST" = Some c).
  { apply has_get. rewrite P; [exact Hcost0 | not_among]. }
  assert (Gsift : exists c, get df "SIFT_CREATE_ORDER_PA_SCORE" = Some c).
  { apply has_get. rewrite P; [exact Hsift0 | not_among]. }
  destruct Gid as (ids & Gid), Gcost as (cost & Gcost), Gsift as (sift & Gsift).
  destruct (preprocess_date _ _ _ _ H) as (dv & Gd).
  pose proof (flag_total_zero_rows df _ v1 Hz Hcb) as Tcb.
  pose proof (flag_total_zero_rows df _ v2 Hz Hfr) as Tfr.
  pose proof (GOV_BIN_zero_rows quantile df g Hz Hg) as Hbin.
  split; [exact Hz|].
  split; [exact Tcb|].
  split; [exact Tfr|].
  split.
  { unfold overall_cb_rate, overall_cb. rewrite Tcb. cbn [bind].
    now rewrite (overall_deliveries_zero_rows df Hz). }
  split.
  { unfold overall_fraud_rate, overall_fraud. rewrite Tfr. cbn [bind].
    now rewrite (overall_deliveries_zero_rows df Hz). }
  split.
  { unfold overall_cb_cost.
    destruct (get_floats_zero_rows df "CHARGEBACK_COST" [Some 0%Q] Hz Hcost)
      as [-> | [_ ->]]; reflexivity. }
  split.
  { unfold avg_sift.
    destruct (get_floats_zero_rows df "SIFT_CREATE_ORDER_PA_SCORE" [None] Hz Hsift)
      as [-> | [_ ->]]; reflexivity. }
  split.
  { unfold avg_gov, get_floats. rewrite Hg.
    rewrite (floats_nil (NumCol g) (get_zero_rows _ _ _ Hz Hg) eq_refl).
    cbn [bind]. eexists. reflexivity. }
  split.
  { apply (daily_zero_rows df _ ids cost sift v1 v2 g Hz Gd Gid Hcb Hfr Gcost);
      [now apply Hcost | exact Gsift | now apply Hsift | exact Hg]. }
  split; [exact (fraud_by_zero_rows df _ v2 Hz Hfr)|].
  split.
  { unfold fraud_by_addr. now rewrite (fraud_by_zero_rows df _ v2 Hz Hfr). }
  split.
  { unfold fraud_by_failed. now rewrite (fraud_by_zero_rows df _ v2 Hz Hfr). }
  split; [exact Hbin|].
  split.
  { unfold fraud_by_gov_bin. rewrite Hbin. cbn [bind].
    rewrite (flag_floats_zero_rows df _ v2 Hz Hfr). cbn [bind].
    now destruct (has df "GOV_DOLLARS"). }
  split; [reflexivity|].
  split.
  { destruct (predictors_zero_rows df v2 Hz Hfr) as (t & Ht & Hnone).
    exists t. eexists. split; [exact Ht|]. split; [|exact Hnone].
    unfold predictors_chart. rewrite Ht. reflexivity. }
  split; [exact glossary_map_items | exact build_rec_cards_all].
Qed.

End EmptyTable.

Lemma empty_table_kpis_witness :
  zero_rows empty_table /\
  preprocess no_number no_time empty_table = Returns empty_df /\
  overall_cb_rate empty_df = Returns (Fin 0) /\
  overall_fraud_rate empty_df = Returns (Fin 0) /\
  overall_cb_cost empty_df = Returns (Fin 0) /\
  avg_sift empty_df = Returns NaN /\
  daily empty_df = Returns [] /\
  fraud_by_gov_bin linear_quantile empty_df = Returns [].
Proof.
  assert (Hz : zero_rows empty_table) by (repeat constructor).
  assert (Hp : preprocess no_number no_time empty_table = Returns empty_df)
    by (vm_compute; reflexivity).
  split; [exact Hz|]. split; [exact Hp|].
  destruct (empty_table_kpis no_number no_time linear_quantile empty_table Hz
              eq_refl eq_refl eq_refl eq_refl)
    as (df & H & _ & _ & _ & H1 & H2 & H3 & H4 & _ & H5 & _ & _ & _ & _ & H6 & _).
  rewrite Hp in H. injection H as <-.
  split; [exact H1|]. split; [exact H2|]. split; [exact H3|].
  split; [exact H4|]. split; [exact H5 | exact H6].
Defined.

(** C6 as stated fails: on the table without records the average order
    value and the average risk score are NaN, not 0. *)
Lemma empty_table_averages_are_nan :
  zero_rows empty_table /\
  preprocess no_number no_time empty_table = Returns empty_df /\
  avg_gov empty_df = Returns NaN /\ avg_gov empty_df <> Returns (Fin 0) /\
  avg_sift empty_df = Returns NaN /\ avg_sift empty_df <> Returns (Fin 0).
Proof.
  split; [repeat constructor|].
  split; [vm_compute; reflexivity|].
  split; [vm_compute; reflexivity|].
  split; [vm_compute; discriminate|].
  split; [vm_compute; reflexivity|].
  vm_compute; discriminate.
Qed.

